(** * PixelFrame agent action: a shallow embedding of [src/index.js]

  The action invokes a remote agent, polls the job it starts, applies the
  returned repository plan to the working tree and drives git and the
  GitHub REST API.  This file embeds the JavaScript functions as Rocq
  functions over

  - a type [value] of JSON / JavaScript values with the coercions the
    source relies on (truthiness, [||], [??], [===], property access);
  - a state-and-exception monad [M] whose state carries the trace of
    observable effects, the scripted answers of the outside world (HTTP
    responses, child-process exits), a small file-system tree and the
    module-level variable [lastLoggedStatus].

  A JavaScript string is a sequence of UTF-16 code units.  It is
  represented by the bytes of its UTF-8 encoding, an unpaired surrogate by
  the three bytes of its code point; [Str.length], [Str.trim] and
  [Str.slice0] count and cut the code units these bytes stand for.

  An event of the trace records one call that reaches the outside world
  with its arguments as they are; [console_text] gives the text such a call
  prints, which is not escaped.

  Line numbers in the comments refer to [src/index.js].  The build script,
  the second source file, is embedded in the module [Build]. *)

From Stdlib Require Import ZArith NArith List Ascii String DecimalString Lia.
From stdpp Require Import base option gmap strings list.
Import ListNotations.
Local Open Scope string_scope.
Local Open Scope list_scope.
Local Open Scope Z_scope.
Set Warnings "-register-all".

(* ===================================================================== *)
(** ** Strings *)
(* ===================================================================== *)

Module Str.

(** The double quote character, for messages that quote their argument. *)
Definition dquote : string := String "034"%char EmptyString.

Definition is_upper (c : ascii) : bool :=
  let n := nat_of_ascii c in (Nat.leb 65 n && Nat.leb n 90)%bool.

Definition is_lower (c : ascii) : bool :=
  let n := nat_of_ascii c in (Nat.leb 97 n && Nat.leb n 122)%bool.

Definition lower_char (c : ascii) : ascii :=
  if is_upper c then ascii_of_nat (nat_of_ascii c + 32) else c.

Definition upper_char (c : ascii) : ascii :=
  if is_lower c then ascii_of_nat (nat_of_ascii c - 32) else c.

Fixpoint map_chars (f : ascii -> ascii) (s : string) : string :=
  match s with
  | EmptyString => EmptyString
  | String c r => String (f c) (map_chars f r)
  end.

(** [String.prototype.toLowerCase] / [toUpperCase] on the ASCII letters.
    No character outside ASCII lower-cases to an ASCII letter of the words
    the source compares against, so the membership tests below agree with
    the JavaScript ones. *)
Definition toLowerCase : string -> string := map_chars lower_char.
Definition toUpperCase : string -> string := map_chars upper_char.

(** [s.replace(/ /g, '_')] *)
Definition spaces_to_underscores : string -> string :=
  map_chars (fun c => if Ascii.eqb c " "%char then "_"%char else c).

(** The line feed. *)
Definition LF : string := String "010"%char EmptyString.

Definition code (c : ascii) : N := N_of_ascii c.

(** The number of bytes of the character that the byte [c] starts. *)
Definition size (c : ascii) : nat :=
  if (code c <? 192)%N then 1
  else if (code c <? 224)%N then 2
  else if (code c <? 240)%N then 3
  else 4.

(** The characters of a string, each with all its bytes; bytes that are cut
    short at the end of the string stay together. *)
Fixpoint chars (s : string) : list string :=
  match s with
  | EmptyString => []
  | String a r =>
      match size a with
      | 1%nat => String a EmptyString :: chars r
      | 2%nat =>
          match r with
          | String b r' => String a (String b EmptyString) :: chars r'
          | _ => [s]
          end
      | 3%nat =>
          match r with
          | String b (String c r') => String a (String b (String c EmptyString)) :: chars r'
          | _ => [s]
          end
      | _ =>
          match r with
          | String b (String c (String d r')) =>
              String a (String b (String c (String d EmptyString))) :: chars r'
          | _ => [s]
          end
      end
  end.

Fixpoint glue (xs : list string) : string :=
  match xs with
  | [] => EmptyString
  | x :: r => x +:+ glue r
  end.

(** A byte that continues a character. *)
Definition continues (c : ascii) : bool := ((128 <=? code c) && (code c <? 192))%N%bool.

(** The code point of a character, U+FFFD for bytes that encode none: the
    bytes after the first continue it, and the code point needs as many
    bytes as there are. *)
Definition point (x : string) : N :=
  match x with
  | String a EmptyString => if (code a <? 128)%N then code a else 65533%N
  | String a (String b EmptyString) =>
      let n := ((code a - 192) * 64 + (code b - 128))%N in
      if (continues b && (128 <=? n)%N)%bool then n else 65533%N
  | String a (String b (String c EmptyString)) =>
      let n := ((code a - 224) * 4096 + (code b - 128) * 64 + (code c - 128))%N in
      if (continues b && continues c && (2048 <=? n)%N)%bool then n else 65533%N
  | String a (String b (String c (String d EmptyString))) =>
      let n := ((code a - 240) * 262144 + (code b - 128) * 4096 + (code c - 128) * 64
                + (code d - 128))%N in
      if (continues b && continues c && continues d
          && (65536 <=? n)%N && (n <=? 1114111)%N)%bool
      then n else 65533%N
  | _ => 65533%N
  end.

(** The UTF-16 code units of a character: two above U+FFFF, else one. *)
Definition units (x : string) : nat := if (65536 <=? point x)%N then 2 else 1.

(** [s.length] *)
Definition length (s : string) : nat := list_sum (map units (chars s)).

(** White space and line terminators as [trim] knows them: TAB, LF, VT, FF,
    CR, SP, NBSP, U+1680, U+2000 to U+200A, LS, PS, U+202F, U+205F, U+3000
    and U+FEFF. *)
Definition is_white (x : string) : bool :=
  let n := point x in
  ((9 <=? n) && (n <=? 13) || (n =? 32) || (n =? 160) || (n =? 5760)
   || (8192 <=? n) && (n <=? 8202) || (n =? 8232) || (n =? 8233) || (n =? 8239)
   || (n =? 8287) || (n =? 12288) || (n =? 65279))%N%bool.

Fixpoint drop_white (xs : list string) : list string :=
  match xs with
  | x :: r => if is_white x then drop_white r else xs
  | [] => []
  end.

(** [String.prototype.trim] *)
Definition trim (s : string) : string :=
  glue (rev (drop_white (rev (drop_white (chars s))))).

(** The first code unit of a character above U+FFFF, on its own. *)
Definition high_surrogate (x : string) : string :=
  let k := (((point x - 65536) / 1024) mod 1024)%N in
  String "237"%char
    (String (ascii_of_N (160 + k / 64)) (String (ascii_of_N (128 + k mod 64)) EmptyString)).

(** The characters that make up the first [n] code units; a character of
    two units that starts at unit [n - 1] leaves its first unit. *)
Fixpoint take_units (n : nat) (xs : list string) : list string :=
  match n, xs with
  | S n', x :: r =>
      match units x, n' with
      | 2%nat, O => [high_surrogate x]
      | 2%nat, S n'' => x :: take_units n'' r
      | _, _ => x :: take_units n' r
      end
  | _, _ => []
  end.

(** [s.slice(0, n)] *)
Definition slice0 (n : nat) (s : string) : string := glue (take_units n (chars s)).

Definition nonempty (s : string) : bool :=
  match s with EmptyString => false | _ => true end.

Definition starts_with_slash (s : string) : bool :=
  match s with String "/"%char _ => true | _ => false end.

(** [s.startsWith(p)] *)
Fixpoint starts_with (p s : string) : bool :=
  match p with
  | EmptyString => true
  | String c p' =>
      match s with
      | String d s' => (Ascii.eqb c d && starts_with p' s')%bool
      | EmptyString => false
      end
  end.

(** [s.split('/')] *)
Fixpoint split_slash (s : string) : list string :=
  match s with
  | EmptyString => [EmptyString]
  | String c r =>
      if Ascii.eqb c "/"%char then EmptyString :: split_slash r
      else match split_slash r with
           | h :: t => String c h :: t
           | [] => [String c EmptyString]
           end
  end.

(** [xs.join(sep)] *)
Fixpoint join (sep : string) (xs : list string) : string :=
  match xs with
  | [] => EmptyString
  | [x] => x
  | x :: r => x +:+ sep +:+ join sep r
  end.

Definition of_Z (n : Z) : string := NilZero.string_of_int (Z.to_int n).

End Str.

(* ===================================================================== *)
(** ** JavaScript values *)
(* ===================================================================== *)

(** Values as [JSON.parse] produces them, plus [undefined].  Numbers are kept
    as integers: the source only tests them for truthiness, compares
    [length] with [0] and prints them. *)
Inductive value : Type :=
| VUndef
| VNull
| VBool (b : bool)
| VNum (n : Z)
| VStr (s : string)
| VArr (items : list value)
| VObj (fields : list (string * value)).

Module Js.

(** [Boolean(v)] *)
Definition truthy (v : value) : bool :=
  match v with
  | VUndef | VNull => false
  | VBool b => b
  | VNum n => negb (n =? 0)
  | VStr s => Str.nonempty s
  | VArr _ | VObj _ => true
  end.

(** [a || b] *)
Definition or (a b : value) : value := if truthy a then a else b.

(** [a ?? b] *)
Definition nullish (a b : value) : value :=
  match a with VUndef | VNull => b | _ => a end.

Fixpoint assoc (k : string) (fields : list (string * value)) : value :=
  match fields with
  | [] => VUndef
  | (k', v) :: r => if String.eqb k k' then v else assoc k r
  end.

(** [v.k] for a [v] that is neither [null] nor [undefined].  The keys the
    source reads are own properties of parsed objects, or [length]. *)
Definition get (v : value) (k : string) : value :=
  match v with
  | VObj fields => assoc k fields
  | VArr items =>
      if String.eqb k "length" then VNum (Z.of_nat (length items)) else VUndef
  | VStr s =>
      if String.eqb k "length" then VNum (Z.of_nat (Str.length s)) else VUndef
  | _ => VUndef
  end.

(** [v?.k] *)
Definition get_opt (v : value) (k : string) : value :=
  match v with VUndef | VNull => VUndef | _ => get v k end.

(** [typeof v === 'object'] *)
Definition is_object (v : value) : bool :=
  match v with VNull | VArr _ | VObj _ => true | _ => false end.

Definition is_array (v : value) : bool :=
  match v with VArr _ => true | _ => false end.

Definition is_nullish (v : value) : bool :=
  match v with VUndef | VNull => true | _ => false end.

(** [a === b].  Two arrays or objects are equal only when they are the same
    reference; every comparison in the source has a literal or a value of
    an earlier [JSON.parse] on one side, so such operands never are. *)
Definition strict_eq (a b : value) : bool :=
  match a, b with
  | VUndef, VUndef => true
  | VNull, VNull => true
  | VBool x, VBool y => Bool.eqb x y
  | VNum x, VNum y => x =? y
  | VStr x, VStr y => String.eqb x y
  | _, _ => false
  end.

Definition is_str (s : string) (v : value) : bool := strict_eq v (VStr s).
Definition is_true (v : value) : bool := strict_eq v (VBool true).

(** [String(v)], also the conversion of a template literal.  Objects that
    carry a key named [toString] or [valueOf] of their own are outside the
    model. *)
Fixpoint to_text (v : value) : string :=
  match v with
  | VUndef => "undefined"
  | VNull => "null"
  | VBool true => "true"
  | VBool false => "false"
  | VNum n => Str.of_Z n
  | VStr s => s
  | VArr items =>
      (fix elems (l : list value) : string :=
         match l with
         | [] => EmptyString
         | x :: r =>
             let here := match x with VUndef | VNull => EmptyString | _ => to_text x end in
             match r with
             | [] => here
             | _ => here +:+ "," +:+ elems r
             end
         end) items
  | VObj _ => "[object Object]"
  end.

Definition array_items (v : value) : list value :=
  match v with VArr items => items | _ => [] end.

End Js.

(* ===================================================================== *)
(** ** Paths: Node's POSIX [path.resolve] and [path.dirname] *)
(* ===================================================================== *)

(** An absolute, normalised path is the list of its segments; [[]] is [/]. *)
Definition path := list string.

Module Path.

(** [normalizeString(p, false)]: empty and [.] segments vanish, [..] drops
    the segment before it and is dropped itself at the root.  [stack] holds
    the segments kept so far, innermost first. *)
Fixpoint normalize (stack : list string) (segs : list string) : path :=
  match segs with
  | [] => rev stack
  | s :: r =>
      if (String.eqb s "" || String.eqb s ".")%bool then normalize stack r
      else if String.eqb s ".." then normalize (tl stack) r
      else normalize (s :: stack) r
  end.

(** [path.resolve(cwd, p)], with [cwd] the absolute [process.cwd()]: the
    arguments are taken from the right until an absolute one is met, an
    empty argument is skipped, and the concatenation is normalised. *)
Definition resolve (cwd p : string) : path :=
  if Str.nonempty p then
    if Str.starts_with_slash p then normalize [] (Str.split_slash (p +:+ "/"))
    else normalize [] (Str.split_slash (cwd +:+ "/" +:+ p +:+ "/"))
  else normalize [] (Str.split_slash (cwd +:+ "/")).

(** [path.dirname] of a resolved path. *)
Definition dirname (p : path) : path := removelast p.

Definition render (p : path) : string := "/" +:+ Str.join "/" p.

(** The working tree root is [process.cwd()] itself. *)
Definition root (cwd : string) : path := resolve cwd "".

(** [inside r p]: [p] is [r] or lies below it. *)
Definition inside (r p : path) : Prop := r `prefix_of` p.

(** A relative path stays below its starting directory when no prefix of
    it has more [..] segments than named ones. *)
Fixpoint stays_below (depth : nat) (segs : list string) : bool :=
  match segs with
  | [] => true
  | s :: r =>
      if (String.eqb s "" || String.eqb s ".")%bool then stays_below depth r
      else if String.eqb s ".." then
        match depth with
        | O => false
        | S d => stays_below d r
        end
      else stays_below (S depth) r
  end.

Definition contained (p : string) : bool :=
  (negb (Str.starts_with_slash p) && stays_below 0 (Str.split_slash p))%bool.

End Path.

(* ===================================================================== *)
(** ** The outside world and the effects of the action *)
(* ===================================================================== *)

(** An HTTP response as [fetch] delivers it.  [response_json] stands for the
    outcome of [JSON.parse] on the body text. *)
Inductive parse_result : Type :=
| Unparsable (why : string)
| Parsed (data : value).

Record response : Type := mkResponse {
  response_status : Z;
  response_statusText : string;
  response_text : string;
  response_json : parse_result
}.

Inductive fetch_outcome : Type :=
| Responds (r : response)
| FetchFailed (why : string).

(** How a spawned child process ends: the [error] event, or [close] with an
    exit code ([None] when a signal ended it). *)
Inductive spawn_outcome : Type :=
| SpawnFailed (why : string)
| Closed (code : option Z).

(** What [writeFileChange] hands to [fs.writeFile].  The byte-level
    conversions ([Buffer.from(_, 'base64')], [toString('utf-8')]) are kept
    symbolic. *)
Inductive file_data : Type :=
| Plain (contents : value)
| Base64 (contents : value).

(** The content of a file: what [fs.writeFile] was given, as bytes or as
    UTF-8 text, or what [fs.appendFile] made of it, the earlier content (none
    when the file was missing) followed by [text]. *)
Inductive file_content : Type :=
| Bytes (d : file_data)
| Utf8 (d : file_data)
| Appended (before : option file_content) (text : string).

Inductive node : Type :=
| Dir
| File (c : file_content).

Inductive level : Type := Debug | Notice | Warning | Failure.

Inductive serialized : Type :=
| Text (s : string)
| Json (v : value).

(** Observable effects, in the order the action performs them.  An event is
    one call with its arguments.  [Annotation l message] is the call of
    [console.log] (for [Debug] and [Notice]), of [console.warn] or
    [console.error] (for [Warning]) or of [console.error] (for [Failure])
    that prints the workflow command of [l] followed by [message];
    [OutputLine destination name v] is the call of
    [appendOutputLine] for the output [name], which appends to the file
    [destination] or, when [destination] is empty, prints a [::set-output]
    command. *)
Inductive event : Type :=
| Annotation (l : level) (message : string)
| Sleep (ms : Z)
| HttpRequest (method url : string) (headers : list (string * string)) (body : option value)
| Spawn (command : string) (args : list string) (outcome : spawn_outcome)
| Mkdir (p : path)
| WriteFile (p : path) (c : file_content)
| Rm (p : path)
| OutputLine (destination name : string) (v : serialized)
| ExitCode (code : Z).

Inductive exn : Type :=
| Error (message : string)
| TypeError (message : string)
| SystemError (code : string) (p : path).

(** [error.message].  For an error of the file system the code and the path
    stand for the sentence Node makes of them. *)
Definition exn_message (e : exn) : string :=
  match e with
  | Error m | TypeError m => m
  | SystemError code p => code +:+ ": " +:+ Path.render p
  end.

Inductive payload_outcome : Type :=
| Unreadable (why : string)
| Malformed (why : string)
| Payload (v : value).

(** What the process reads but never changes. *)
Record host : Type := mkHost {
  env : string -> string;                      (* process.env[k], '' when unset *)
  cwd : string;                                (* process.cwd() *)
  url_resolve : string -> string -> option string;  (* new URL(rel, base).toString() *)
  url_origin : string -> option string;        (* new URL(u).origin *)
  read_payload : path -> payload_outcome;      (* fs.readFile + JSON.parse *)
  json_stringify : value -> string             (* JSON.stringify(v) *)
}.

Record state : Type := mkState {
  trace : list event;
  responses : list fetch_outcome;   (* answers to the fetch calls still to come *)
  exits : list spawn_outcome;       (* ends of the child processes still to come *)
  fs : gmap path node;
  lastLoggedStatus : gmap string value
}.

Inductive outcome (A : Type) : Type :=
| Ok (a : A)
| Throw (e : exn).
Arguments Ok {A} a.
Arguments Throw {A} e.

Definition M (A : Type) : Type := state -> outcome A * state.

#[global] Instance M_ret : MRet M := fun A a st => (Ok a, st).
#[global] Instance M_bind : MBind M := fun A B f m st =>
  match m st with
  | (Ok a, st') => f a st'
  | (Throw e, st') => (Throw e, st')
  end.

Definition throw {A} (e : exn) : M A := fun st => (Throw e, st).

Definition try_catch {A} (m : M A) (handler : exn -> M A) : M A := fun st =>
  match m st with
  | (Ok a, st') => (Ok a, st')
  | (Throw e, st') => handler e st'
  end.

Definition add_event (e : event) (st : state) : state :=
  mkState (trace st ++ [e]) (responses st) (exits st) (fs st) (lastLoggedStatus st).

Definition emit (e : event) : M unit := fun st => (Ok tt, add_event e st).

Definition set_fs (f : gmap path node) (st : state) : state :=
  mkState (trace st) (responses st) (exits st) f (lastLoggedStatus st).

Definition set_lastLoggedStatus (m : gmap string value) : M unit := fun st =>
  (Ok tt, mkState (trace st) (responses st) (exits st) (fs st) m).

Definition get_lastLoggedStatus (k : string) : M value := fun st =>
  (Ok (default VUndef (lastLoggedStatus st !! k)), st).

Definition remember_status (k : string) (v : value) : M unit := fun st =>
  (Ok tt, mkState (trace st) (responses st) (exits st) (fs st)
            (<[k := v]> (lastLoggedStatus st))).

(** [for (const x of xs) body(x)] *)
Fixpoint for_of {A} (xs : list A) (body : A -> M unit) : M unit :=
  match xs with
  | [] => mret tt
  | x :: r => body x ;; for_of r body
  end.

(** [await fetch(url, {method, headers, body})]: the request is recorded and
    the next scripted answer is taken; a network failure rejects. *)
Definition fetch (method url : string) (headers : list (string * string))
    (body : option value) : M response := fun st =>
  let st1 := add_event (HttpRequest method url headers body) st in
  match responses st with
  | Responds r :: rest =>
      (Ok r, mkState (trace st1) rest (exits st1) (fs st1) (lastLoggedStatus st1))
  | FetchFailed why :: rest =>
      (Throw (TypeError why), mkState (trace st1) rest (exits st1) (fs st1) (lastLoggedStatus st1))
  | [] => (Throw (TypeError "fetch failed"), st1)
  end.

(** [response.ok] *)
Definition response_ok (r : response) : bool :=
  (200 <=? response_status r) && (response_status r <=? 299).

(** [JSON.parse(await response.text())]; the empty text never parses. *)
Definition JSON_parse (r : response) : parse_result :=
  if Str.nonempty (response_text r) then response_json r
  else Unparsable "Unexpected end of JSON input".

(** *** The file system: [fs.mkdir], [fs.writeFile], [fs.appendFile], [fs.rm] *)

Module Fs.

(** A map stands for a tree: the root is a directory, and an entry that
    exists has directories above it.  [mkdir_all], [writeFile], [appendFile]
    and [rm] keep it so. *)
Definition lookup (f : gmap path node) (p : path) : option node :=
  match p with [] => Some Dir | _ => f !! p end.

(** All non-empty prefixes of [p], shortest first. *)
Fixpoint ancestors_and_self (above : path) (p : path) : list path :=
  match p with
  | [] => []
  | s :: r => (above ++ [s]) :: ancestors_and_self (above ++ [s]) r
  end.

(** [fs.mkdir(p, {recursive: true})] *)
Fixpoint mkdir_all (f : gmap path node) (dirs : list path) : outcome (gmap path node) :=
  match dirs with
  | [] => Ok f
  | d :: r =>
      match f !! d with
      | Some (File _) =>
          Throw (SystemError (match r with [] => "EEXIST" | _ => "ENOTDIR" end) d)
      | _ => mkdir_all (<[d := Dir]> f) r
      end
  end.

Definition mkdir_recursive (f : gmap path node) (p : path) : outcome (gmap path node) :=
  mkdir_all f (ancestors_and_self [] p).

(** [fs.writeFile(p, c)] *)
Definition writeFile (f : gmap path node) (p : path) (c : file_content)
    : outcome (gmap path node) :=
  match lookup f p with
  | Some Dir => Throw (SystemError "EISDIR" p)
  | _ =>
      match lookup f (Path.dirname p) with
      | Some Dir => Ok (<[p := File c]> f)
      | Some (File _) => Throw (SystemError "ENOTDIR" p)
      | None => Throw (SystemError "ENOENT" p)
      end
  end.

(** [fs.appendFile(p, text)]: the file is created when it is missing. *)
Definition appendFile (f : gmap path node) (p : path) (text : string)
    : outcome (gmap path node) :=
  match lookup f p with
  | Some Dir => Throw (SystemError "EISDIR" p)
  | here =>
      match lookup f (Path.dirname p) with
      | Some Dir =>
          Ok (<[p := File (Appended (match here with Some (File c) => Some c | _ => None end)
                             text)]> f)
      | Some (File _) => Throw (SystemError "ENOTDIR" p)
      | None => Throw (SystemError "ENOENT" p)
      end
  end.

(** A component of [p] before the last is a regular file. *)
Definition below_file (f : gmap path node) (p : path) : bool :=
  existsb (fun d => match f !! d with Some (File _) => true | _ => false end)
    (ancestors_and_self [] (Path.dirname p)).

(** [fs.rm(p, {force, recursive})]: the target is looked up first, which
    fails with [ENOTDIR] when the path runs through a regular file and with
    [ENOENT] when the target is missing; [force] forgives [ENOENT] and
    nothing else.  A directory is an error unless [recursive].  The tree has
    no owners and no permissions: refusals such as [EACCES], [EPERM] and
    [EBUSY] are not modelled. *)
Definition rm (force recursive : bool) (f : gmap path node) (p : path)
    : outcome (gmap path node) :=
  match lookup f p with
  | None =>
      if below_file f p then Throw (SystemError "ENOTDIR" p)
      else if force then Ok f else Throw (SystemError "ENOENT" p)
  | Some Dir =>
      if recursive then Ok (filter (fun kv => ~ p `prefix_of` kv.1) f)
      else Throw (SystemError "ERR_FS_EISDIR" p)
  | Some (File _) => Ok (delete p f)
  end.

End Fs.

Definition fs_step (e : event) (op : gmap path node -> outcome (gmap path node)) : M unit :=
  fun st =>
    let st1 := add_event e st in
    match op (fs st) with
    | Ok f => (Ok tt, set_fs f st1)
    | Throw err => (Throw err, st1)
    end.

(* ===================================================================== *)
(** ** The action *)
(* ===================================================================== *)

Definition ACTION_VERSION : string := "2.1.0".
Definition USER_AGENT : string := "pixelframe-agent-action/" +:+ ACTION_VERSION.

(** [PIPELINE_CONFIG] (lines 12-37) *)
Module PIPELINE_CONFIG.

Definition agents : list (string * (string * string)) :=
  [ ("ticket", ("Agent 1: Ticket Analysis", "Grok-4"));
    ("coder", ("Agent 2: Code Generation", "Opus 4.5"));
    ("reviewer", ("Agent 3: Verification", "Codex")) ].

Definition messages : list (string * list (string * string)) :=
  [ ("coder",
      [ ("pending", "Waiting to start...");
        ("starting", "Analyzing codebase structure...");
        ("thinking", "Planning code changes...");
        ("generating", "Generating code...");
        ("completed", "Code generated");
        ("failed", "Code generation failed") ]);
    ("reviewer",
      [ ("pending", "Waiting for code...");
        ("starting", "Verifying acceptance criteria...");
        ("validating", "Checking syntax and patterns...");
        ("completed", "Verification passed");
        ("issues", "Issues found, regenerating...");
        ("failed", "Verification failed") ]) ].

End PIPELINE_CONFIG.

Fixpoint table_get {A} (k : string) (t : list (string * A)) : option A :=
  match t with
  | [] => None
  | (k', a) :: r => if String.eqb k k' then Some a else table_get k r
  end.

Definition text_or_undefined (o : option string) : value :=
  match o with Some s => VStr s | None => VUndef end.

Record repo : Type := mkRepo { owner : string; name : string }.

Record details : Type := mkDetails {
  details_message : value;
  details_files_count : value;
  details_issues_count : value
}.

Record file_change : Type := mkChange {
  change_path : value;
  change_contents : value;
  change_encoding : value;
  change_mode : value
}.

Record pr_result : Type := mkResult { prNumber : value; prUrl : value }.

Definition no_pull_request : pr_result := mkResult VNull VNull.

Section Action.

Variable h : host.

(** *** GitHub Actions helpers (lines 43-92) *)

Definition formatInputKey (name : string) : string :=
  "INPUT_" +:+ Str.toUpperCase (Str.spaces_to_underscores name).

Definition getInput (name : string) (required : bool) : M string :=
  let value := env h (formatInputKey name) in
  if (negb (Str.nonempty value) || negb (Str.nonempty (Str.trim value)))%bool then
    if required then throw (Error ("Input required and not supplied: " +:+ name))
    else mret ""
  else mret (Str.trim value).

(** The value of an output as line 71 makes it a text. *)
Definition serialized_text (v : serialized) : string :=
  match v with Text s => s | Json v => json_stringify h v end.

(** The line of an output (line 72); the value is not escaped. *)
Definition output_line (name : string) (v : serialized) : string :=
  "name=" +:+ name +:+ "::" +:+ serialized_text v.

(** [appendOutputLine] (lines 59-68): the line and a line feed are appended
    to the file named by [GITHUB_OUTPUT], and an append that fails is caught
    and reported as a warning; when the variable is unset the line is printed
    as a [::set-output] command. *)
Definition appendOutputLine (name : string) (v : serialized) : M unit :=
  let outputPath := env h "GITHUB_OUTPUT" in
  if Str.nonempty outputPath then
    try_catch
      (fs_step (OutputLine outputPath name v)
         (fun f => Fs.appendFile f (Path.resolve (cwd h) outputPath)
                     (output_line name v +:+ Str.LF)))
      (fun error =>
         emit (Annotation Warning
                 ("Failed to write to GITHUB_OUTPUT: " +:+ exn_message error)))
  else emit (OutputLine outputPath name v).

Definition setOutput (name : string) (v : value) : M unit :=
  appendOutputLine name (match v with VStr s => Text s | _ => Json v end).

(** [setFailed], [toDebug], [toNotice] and [toWarning] (lines 75-92) make
    one call of the console each, with the command of their level and the
    message as it is; [console_text] below is the text of such a call and
    [console_lines] the lines it prints. *)
Definition setFailed (message : string) : M unit :=
  emit (Annotation Failure message) ;; emit (ExitCode 1).

Definition toDebug (message : string) : M unit :=
  if String.eqb (env h "RUNNER_DEBUG") "1" then emit (Annotation Debug message)
  else mret tt.

Definition toNotice (message : string) : M unit := emit (Annotation Notice message).

Definition toWarning (message : string) : M unit := emit (Annotation Warning message).

(** *** Agent status logging (lines 101-165) *)

Definition statusIcons : list (string * string) :=
  [ ("pending", "⏳"); ("starting", "🔄"); ("thinking", "🔄");
    ("generating", "🔄"); ("validating", "🔄"); ("completed", "✅");
    ("issues", "⚠️"); ("failed", "❌") ].

(** The two tables are indexed by the text of [status]; a status that names
    a property every object inherits ([constructor], [toString], ...) finds
    that property in the source and is outside the model. *)
Definition logAgentStatus (agentKey : string) (status : value) (d : details) : M unit :=
  match table_get agentKey PIPELINE_CONFIG.agents with
  | None => mret tt
  | Some (agent_name, agent_model) =>
      let icon := default "🔄" (table_get (Js.to_text status) statusIcons) in
      let configured :=
        match table_get agentKey PIPELINE_CONFIG.messages with
        | Some t => text_or_undefined (table_get (Js.to_text status) t)
        | None => VUndef
        end in
      let message := Js.or (details_message d) (Js.or configured status) in
      let logLine :=
        icon +:+ " " +:+ agent_name +:+ " [" +:+ agent_model +:+ "]: "
             +:+ Js.to_text message in
      (if Js.is_str "failed" status then toWarning logLine else toNotice logLine) ;;
      (if Js.truthy (details_files_count d) then
         toNotice ("   └─ " +:+ Js.to_text (details_files_count d) +:+ " files modified")
       else mret tt) ;;
      (if Js.truthy (details_issues_count d) then
         toNotice ("   └─ " +:+ Js.to_text (details_issues_count d) +:+ " issues found")
       else mret tt)
  end.

Definition banner : string :=
  "═══════════════════════════════════════════════════════════".

Definition logPipelineStart : M unit :=
  toNotice banner ;;
  toNotice "  PIXELFRAME MULTI-AGENT PIPELINE" ;;
  toNotice banner ;;
  toNotice "" ;;
  logAgentStatus "ticket" (VStr "completed")
    (mkDetails (VStr "Ticket requirements analyzed") VUndef VUndef).

Definition logPipelineComplete (prNumber prUrl : value) : M unit :=
  toNotice "" ;;
  toNotice banner ;;
  (if Js.truthy prNumber then
     toNotice ("  ✅ PR #" +:+ Js.to_text prNumber +:+ " CREATED SUCCESSFULLY") ;;
     (if Js.truthy prUrl then toNotice ("  📎 " +:+ Js.to_text prUrl) else mret tt)
   else toNotice "  ✅ PIPELINE COMPLETED") ;;
  toNotice banner.

(** *** JSON and repository helpers (lines 171-230) *)

Definition parseRepository (repoString : value) : M (option repo) :=
  if negb (Js.truthy repoString) then mret None
  else match repoString with
       | VStr s =>
           match Str.split_slash s with
           | o :: n :: _ =>
               if (negb (Str.nonempty o) || negb (Str.nonempty n))%bool then mret None
               else mret (Some (mkRepo o n))
           | _ => mret None
           end
       | _ => throw (TypeError "repoString.split is not a function")
       end.

Definition env_or_null (k : string) : value :=
  Js.or (VStr (env h k)) VNull.

Definition buildContextSnapshot : value :=
  VObj [ ("repository", env_or_null "GITHUB_REPOSITORY");
         ("repositoryOwner", env_or_null "GITHUB_REPOSITORY_OWNER");
         ("ref", env_or_null "GITHUB_REF");
         ("sha", env_or_null "GITHUB_SHA");
         ("runId", env_or_null "GITHUB_RUN_ID");
         ("runAttempt", env_or_null "GITHUB_RUN_ATTEMPT");
         ("workflow", env_or_null "GITHUB_WORKFLOW");
         ("eventName", env_or_null "GITHUB_EVENT_NAME");
         ("actor", env_or_null "GITHUB_ACTOR");
         ("job", env_or_null "GITHUB_JOB") ].

(** The field names under which a payload may carry the endpoint, in the
    order the source tries them. *)
Definition endpoint_aliases : list string :=
  [ "agentUrl"; "agent_url"; "agent_endpoint"; "agentEndpoint"; "url"; "endpoint" ].

Definition resolveAgentUrl (payload : value) (inputBaseUrl : string) : M value :=
  let candidates :=
    if (Js.truthy payload && Js.is_object payload)%bool then
      List.filter Js.truthy (map (Js.get payload) endpoint_aliases)
    else [] in
  match candidates with
  | c :: _ => mret c
  | [] =>
      let base :=
        if Str.nonempty inputBaseUrl then inputBaseUrl
        else env h "PIXELFRAME_BASE_URL" in
      if negb (Str.nonempty base) then mret VNull
      else match url_resolve h "/agent/run" base with
           | Some u => mret (VStr u)
           | None => throw (Error "Invalid PixelFrame base URL: Invalid URL")
           end
  end.

(** *** Agent API communication (lines 237-382) *)

Definition maxAttempts : nat := 120.
Definition pollInterval : Z := 5000.

Definition bearer (key : string) : list (string * string) :=
  if Str.nonempty key then [("Authorization", "Bearer " +:+ key)] else [].

(** Lines 290-296 and 299-305: an agent's status is logged when it differs
    from the one remembered for it in [lastLoggedStatus]. *)
Definition logAgentChange (agentKey : string) (agent : value) (d : details) : M unit :=
  if Js.truthy agent then
    last ← get_lastLoggedStatus agentKey;
    if negb (Js.strict_eq (Js.get agent "status") last) then
      logAgentStatus agentKey (Js.get agent "status") d ;;
      remember_status agentKey (Js.get agent "status")
    else mret tt
  else mret tt.

(** The body of the [for] loop of [pollAgentStatus] (lines 251-327) for the
  loop counter [attempt]: [Some v] when the body returns [v], [None] when it
  reaches [continue] or its end. *)
Definition pollAttempt (attempt : nat) (statusUrl apiKey : string) (runId : value)
    : M (option value) :=
  emit (Sleep pollInterval) ;;
  toDebug ("Polling attempt " +:+ Str.of_Z (Z.of_nat attempt + 1) +:+ "/"
             +:+ Str.of_Z (Z.of_nat maxAttempts) +:+ " - " +:+ statusUrl) ;;
  response ← fetch "GET" statusUrl (("User-Agent", USER_AGENT) :: bearer apiKey) None;
  match JSON_parse response with
  | Unparsable why =>
      toWarning ("Status response is not valid JSON: " +:+ why) ;;
      mret None
  | Parsed data =>
      if negb (response_ok response) then
        if response_status response =? 404 then
          throw (Error ("Job " +:+ Js.to_text runId +:+ " not found (404)"))
        else if response_status response =? 410 then
          throw (Error ("Job " +:+ Js.to_text runId +:+ " expired (410)"))
        else
          throw (Error ("Status check failed (" +:+ Str.of_Z (response_status response)
                          +:+ "): " +:+ Str.slice0 200 (response_text response)))
      else if Js.is_nullish data then
        throw (TypeError "Cannot read properties of null (reading 'pipeline')")
      else
        (if Js.truthy (Js.get data "pipeline") then
           let coder := Js.get (Js.get data "pipeline") "coder" in
           let reviewer := Js.get (Js.get data "pipeline") "reviewer" in
           logAgentChange "coder" coder
             (mkDetails (Js.get coder "message") (Js.get coder "files_count") VUndef) ;;
           logAgentChange "reviewer" reviewer
             (mkDetails (Js.get reviewer "message") VUndef (Js.get reviewer "issues_count"))
         else mret tt) ;;
        if Js.is_str "completed" (Js.get data "status") then
          toNotice "" ;;
          toNotice ("Job " +:+ Js.to_text runId +:+ " completed after "
                      +:+ Str.of_Z ((Z.of_nat attempt + 1) * pollInterval / 1000) +:+ "s") ;;
          mret (Some data)
        else if Js.is_str "failed" (Js.get data "status") then
          toWarning ("Job " +:+ Js.to_text runId +:+ " failed: "
                       +:+ Js.to_text (Js.or (Js.get data "error") (VStr "Unknown error"))) ;;
          mret (Some (Js.or (Js.get data "result") data))
        else if Js.is_str "processing" (Js.get data "status") then
          toDebug ("Still processing... ("
                     +:+ Js.to_text (Js.or (Js.get data "elapsed_seconds")
                                       (VNum ((Z.of_nat attempt + 1) * 5)))
                     +:+ "s elapsed)") ;;
          mret None
        else
          toWarning ("Unknown status: " +:+ Js.to_text (Js.get data "status")) ;;
          mret None
  end.

(** The [for] loop itself (line 250) and the [throw] after it (line 330), by
    recursion on the attempts that remain. *)
Fixpoint pollLoop (remaining attempt : nat) (statusUrl apiKey : string) (runId : value)
    : M value :=
  match remaining with
  | O => throw (Error ("Job " +:+ Js.to_text runId +:+ " timed out after 10 minutes"))
  | S remaining' =>
      returned ← pollAttempt attempt statusUrl apiKey runId;
      match returned with
      | Some v => mret v
      | None => pollLoop remaining' (S attempt) statusUrl apiKey runId
      end
  end.

Definition pollAgentStatus (baseUrl apiKey : string) (runId : value) : M value :=
  match url_resolve h ("/agent/status/" +:+ Js.to_text runId) baseUrl with
  | None => throw (TypeError "Invalid URL")
  | Some statusUrl =>
      toNotice ("Job " +:+ Js.to_text runId
                  +:+ " started, polling for completion (max 10 minutes)...") ;;
      toNotice "" ;;
      set_lastLoggedStatus ∅ ;;
      pollLoop maxAttempts 0 statusUrl apiKey runId
  end.

Definition callAgent (agentUrl : value) (apiKey : string)
    (payload context metadata : value) : M value :=
  let headers :=
    [("Content-Type", "application/json"); ("User-Agent", USER_AGENT)] ++ bearer apiKey in
  let body := VObj [("payload", payload); ("context", context); ("metadata", metadata)] in
  toDebug ("Calling PixelFrame agent at " +:+ Js.to_text agentUrl) ;;
  response ← fetch "POST" (Js.to_text agentUrl) headers (Some body);
  let raw := response_text response in
  data ← (if Str.nonempty raw then
            match JSON_parse response with
            | Parsed d => mret d
            | Unparsable why =>
                toWarning ("Agent response is not valid JSON: " +:+ why) ;;
                mret (VObj [("raw", VStr raw)])
            end
          else mret VUndef);
  if negb (response_ok response) then
    throw (Error ("PixelFrame API request failed ("
                    +:+ Str.of_Z (response_status response) +:+ " "
                    +:+ response_statusText response +:+ "): "
                    +:+ (if Str.nonempty raw then Str.slice0 500 raw else "No response body")))
  else if (Js.truthy data && Js.is_str "processing" (Js.get data "status")
           && Js.truthy (Js.get data "runId"))%bool then
    match url_origin h (Js.to_text agentUrl) with
    | None => throw (TypeError "Invalid URL")
    | Some baseUrl => pollAgentStatus baseUrl apiKey (Js.get data "runId")
    end
  else mret data.

(** *** File operations (lines 388-453) *)

Definition normalizeFileChanges (files : value) : list file_change :=
  match files with
  | VArr entries =>
      omap (fun entry =>
              if (negb (Js.truthy entry) || negb (Js.is_object entry)
                  || negb (Js.truthy (Js.get entry "path")))%bool
              then None
              else Some (mkChange
                           (Js.get entry "path")
                           (Js.nullish (Js.get entry "contents")
                              (Js.nullish (Js.get entry "content") (VStr "")))
                           (Js.or (Js.get entry "encoding")
                              (Js.or (Js.get entry "contentEncoding") (VStr "utf-8")))
                           (Js.or (Js.get entry "mode") (VStr "text"))))
           entries
  | _ => []
  end.

(** [path.resolve(process.cwd(), p)]; a [p] that is not a string is refused
    by [path.resolve]. *)
Definition resolve_in_cwd (p : value) : M path :=
  match p with
  | VStr s => mret (Path.resolve (cwd h) s)
  | _ => throw (TypeError "The paths[1] argument must be of type string")
  end.

Definition writeFileChange (change : file_change) : M unit :=
  filePath ← resolve_in_cwd (change_path change);
  fs_step (Mkdir (Path.dirname filePath))
    (fun f => Fs.mkdir_recursive f (Path.dirname filePath)) ;;
  let data :=
    if Js.is_str "base64" (change_encoding change)
    then Base64 (change_contents change) else Plain (change_contents change) in
  if Js.is_str "binary" (change_mode change) then
    fs_step (WriteFile filePath (Bytes data)) (fun f => Fs.writeFile f filePath (Bytes data))
  else
    fs_step (WriteFile filePath (Utf8 data)) (fun f => Fs.writeFile f filePath (Utf8 data)).

Definition removeFile (pathToRemove : string) : M unit :=
  let resolved := Path.resolve (cwd h) pathToRemove in
  fs_step (Rm resolved) (fun f => Fs.rm true true f resolved).

Definition applyFileOperations (plan : value) : M unit :=
  let updates :=
    normalizeFileChanges
      (Js.or (Js.get plan "files") (Js.or (Js.get plan "updates") (VArr []))) in
  (if (0 <? length updates)%nat then
     toNotice ("📝 Applying " +:+ Str.of_Z (Z.of_nat (length updates)) +:+ " file changes...")
   else mret tt) ;;
  for_of updates (fun change =>
    writeFileChange change ;;
    toDebug ("Wrote file " +:+ Js.to_text (change_path change))) ;;
  let deletions :=
    if Js.is_array (Js.get plan "deletions") then Js.array_items (Js.get plan "deletions")
    else [] in
  for_of deletions (fun item =>
    match item with
    | VStr s =>
        removeFile s ;;
        toDebug ("Removed file " +:+ s)
    | _ =>
        if Js.truthy item then
          match Js.get item "path" with
          | VStr s =>
              removeFile s ;;
              toDebug ("Removed file " +:+ s)
          | _ => mret tt
          end
        else mret tt
    end).

(** *** Git operations (lines 459-515) *)

Definition exit_code_text (code : option Z) : string :=
  match code with Some c => Str.of_Z c | None => "null" end.

(** [runCommand]: the child's end is the next scripted one; anything but a
    clean exit rejects.  Arguments are recorded as text; [spawn] refusing an
    argument that is not a string is not modelled. *)
Definition runCommand (command : string) (args : list string) : M unit := fun st =>
  let '(o, rest) :=
    match exits st with
    | o :: rest => (o, rest)
    | [] => (SpawnFailed ("spawn " +:+ command +:+ " ENOENT"), [])
    end in
  let st1 :=
    mkState (trace st ++ [Spawn command args o]) (responses st) rest (fs st)
      (lastLoggedStatus st) in
  match o with
  | SpawnFailed why => (Throw (Error why), st1)
  | Closed (Some 0) => (Ok tt, st1)
  | Closed code =>
      (Throw (Error (command +:+ " " +:+ Str.join " " args +:+ " exited with code "
                       +:+ exit_code_text code)), st1)
  end.

Definition ensureGitUserConfigured (commitConfig : value) : M unit :=
  match commitConfig with
  | VNull => throw (TypeError "Cannot read properties of null (reading 'name')")
  | _ =>
      let config := match commitConfig with VUndef => VObj [] | c => c end in
      let user_name :=
        Js.or (Js.get config "name")
          (Js.or (VStr (env h "GIT_COMMITTER_NAME")) (VStr "pixelframe-agent")) in
      let user_email :=
        Js.or (Js.get config "email")
          (Js.or (VStr (env h "GIT_COMMITTER_EMAIL")) (VStr "pixelframe@git.local")) in
      runCommand "git" ["config"; "user.name"; Js.to_text user_name] ;;
      runCommand "git" ["config"; "user.email"; Js.to_text user_email]
  end.

Definition prepareBranch (branchName baseBranch : value) : M unit :=
  runCommand "git" ["fetch"; "--prune"; "--tags"] ;;
  let baseRef :=
    Js.to_text
      (Js.or baseBranch
         (Js.or (VStr (env h "GITHUB_BASE_REF"))
            (Js.or (VStr (env h "GITHUB_REF_NAME")) (VStr "main")))) in
  runCommand "git" ["checkout"; baseRef] ;;
  runCommand "git" ["pull"; "--ff-only"; "origin"; baseRef] ;;
  runCommand "git" ["checkout"; "-B"; Js.to_text branchName; baseRef].

Definition stageAndCommit (message : value) : M bool :=
  runCommand "git" ["add"; "--all"] ;;
  try_catch
    (runCommand "git" ["diff"; "--cached"; "--quiet"] ;;
     toNotice "No staged changes detected; skipping commit." ;;
     mret false)
    (fun _ =>
       runCommand "git" ["commit"; "-m"; Js.to_text message] ;;
       mret true).

Definition pushBranch (branchName : value) (force : bool) : M unit :=
  runCommand "git"
    (if force then ["push"; "--force-with-lease"; "origin"; Js.to_text branchName]
     else ["push"; "origin"; Js.to_text branchName]).

(** *** GitHub API operations (lines 521-642) *)

Definition githubRequest (token method url : string) (body : option value) : M value :=
  let headers :=
    [ ("Authorization", "Bearer " +:+ token);
      ("User-Agent", USER_AGENT);
      ("Accept", "application/vnd.github+json") ]
    ++ (match body with Some _ => [("Content-Type", "application/json")] | None => [] end) in
  response ← fetch method url headers body;
  let text := response_text response in
  data ← (if Str.nonempty text then
            match JSON_parse response with
            | Parsed d => mret d
            | Unparsable why =>
                toWarning ("GitHub API response from " +:+ url +:+ " is not valid JSON: " +:+ why) ;;
                mret (VObj [("raw", VStr text)])
            end
          else mret VNull);
  if negb (response_ok response) then
    throw (Error ("GitHub API request failed ("
                    +:+ Str.of_Z (response_status response) +:+ " "
                    +:+ response_statusText response +:+ "): "
                    +:+ (if Str.nonempty text then Str.slice0 400 text else "No response body")))
  else mret data.

Definition pulls_url (r : repo) : string :=
  "https://api.github.com/repos/" +:+ owner r +:+ "/" +:+ name r +:+ "/pulls".

Definition createOrUpdatePullRequest (repository : option repo)
    (branchName baseBranch pullRequestSpec : value) (token : string) : M value :=
  match repository with
  | None => mret VNull
  | Some r =>
      if (negb (Js.truthy branchName) || negb (Str.nonempty token))%bool then mret VNull
      else
        let base := Js.or baseBranch (VStr "main") in
        let title :=
          Js.or (Js.get pullRequestSpec "title")
            (VStr ("Updates from PixelFrame agent (" +:+ Js.to_text branchName +:+ ")")) in
        let body := Js.or (Js.get pullRequestSpec "body") (VStr "") in
        let draft := VBool (Js.is_true (Js.get pullRequestSpec "draft")) in
        let number :=
          Js.or (Js.get pullRequestSpec "number") (Js.get pullRequestSpec "prNumber") in
        if Js.truthy number then
          toNotice ("📝 Updating pull request #" +:+ Js.to_text number) ;;
          githubRequest token "PATCH" (pulls_url r +:+ "/" +:+ Js.to_text number)
            (Some (VObj [("title", title); ("body", body); ("draft", draft)])) ;;
          mret number
        else
          toNotice ("🔀 Creating pull request from " +:+ Js.to_text branchName
                      +:+ " to " +:+ Js.to_text base) ;;
          pr ← githubRequest token "POST" (pulls_url r)
                 (Some (VObj [("head", branchName); ("base", base); ("title", title);
                              ("body", body); ("draft", draft)]));
          mret (if (Js.truthy pr && Js.truthy (Js.get pr "number"))%bool
                then Js.get pr "number" else VNull)
  end.

Definition requestReviewsIfNeeded (repository : option repo)
    (pullRequestNumber reviewers : value) (token : string) : M unit :=
  match repository with
  | None => mret tt
  | Some r =>
      if (negb (Js.truthy pullRequestNumber) || negb (Str.nonempty token))%bool then mret tt
      else
        let users :=
          if Js.is_array (Js.get_opt reviewers "users") then Js.get reviewers "users"
          else Js.or reviewers (VArr []) in
        let teams :=
          if Js.is_array (Js.get_opt reviewers "teams") then Js.get reviewers "teams"
          else VArr [] in
        if (Js.strict_eq (Js.get users "length") (VNum 0)
            && Js.strict_eq (Js.get teams "length") (VNum 0))%bool then mret tt
        else
          githubRequest token "POST"
            (pulls_url r +:+ "/" +:+ Js.to_text pullRequestNumber +:+ "/requested_reviewers")
            (Some (VObj [("reviewers", users); ("team_reviewers", teams)])) ;;
          mret tt
  end.

Definition supported_merge_methods : list string := ["merge"; "squash"; "rebase"].

(** [['merge', 'squash', 'rebase'].includes(method)] *)
Definition is_supported (method : string) : bool :=
  existsb (String.eqb method) supported_merge_methods.

Definition maybeMergePullRequest (repository : option repo)
    (pullRequestNumber mergeStrategy : value) (token : string) : M unit :=
  match repository with
  | None => mret tt
  | Some r =>
      if (negb (Js.truthy pullRequestNumber) || negb (Str.nonempty token)
          || negb (Js.truthy mergeStrategy))%bool then mret tt
      else
        match mergeStrategy with
        | VStr strategy =>
            let method := Str.toLowerCase strategy in
            if negb (is_supported method) then
              toWarning ("Unsupported merge strategy " +:+ Str.dquote +:+ strategy
                           +:+ Str.dquote +:+ ". Skipping merge step.")
            else
              githubRequest token "PUT"
                (pulls_url r +:+ "/" +:+ Js.to_text pullRequestNumber +:+ "/merge")
                (Some (VObj [("merge_method", VStr method)])) ;;
              toNotice ("Pull request #" +:+ Js.to_text pullRequestNumber
                          +:+ " merged using " +:+ method +:+ " strategy.")
        | _ => throw (TypeError "mergeStrategy.toLowerCase is not a function")
        end
  end.

(** *** Repository plan application (lines 648-701) *)

Definition pull_request_url (r : repo) (number : value) : string :=
  "https://github.com/" +:+ owner r +:+ "/" +:+ name r +:+ "/pull/" +:+ Js.to_text number.

Definition maybeApplyRepositoryPlan (plan : value) (token mergeStrategy : string)
    : M pr_result :=
  if (negb (Js.truthy plan) || negb (Js.is_object plan))%bool then mret no_pull_request
  else
    repository ← parseRepository
                   (Js.or (Js.get_opt (Js.get plan "repository") "name")
                      (VStr (env h "GITHUB_REPOSITORY")));
    (match repository with
     | None => toWarning "Unable to determine repository for PR operations."
     | Some _ => mret tt
     end) ;;
    let commit := Js.or (Js.get plan "commit") (VObj []) in
    let branchName :=
      Js.or (Js.get commit "branch") (Js.or (Js.get plan "branch") (Js.get plan "branchName")) in
    if negb (Js.truthy branchName) then
      toNotice "Agent response did not include branch information; skipping repository operations." ;;
      mret no_pull_request
    else if negb (Str.nonempty token) then
      toWarning "No GitHub token provided; cannot push commits or manage pull requests." ;;
      mret no_pull_request
    else
      ensureGitUserConfigured (Js.get commit "author") ;;
      prepareBranch branchName (Js.or (Js.get commit "base") (Js.get plan "baseBranch")) ;;
      applyFileOperations plan ;;
      committed ← stageAndCommit
                    (Js.or (Js.get commit "message")
                       (Js.or (Js.get plan "commitMessage") (VStr "PixelFrame agent updates")));
      if negb committed then
        toNotice "No changes detected after applying agent plan." ;;
        mret no_pull_request
      else
        pushBranch branchName
          (Js.is_true (Js.get commit "force") || Js.is_true (Js.get plan "force"))%bool ;;
        let prSpec := Js.or (Js.get plan "pullRequest") (VObj []) in
        number ← createOrUpdatePullRequest repository branchName
                   (Js.or (Js.get commit "base") (Js.get plan "baseBranch")) prSpec token;
        let url :=
          match repository with
          | Some r => if Js.truthy number then VStr (pull_request_url r number) else VNull
          | None => VNull
          end in
        (if (Js.truthy number && Js.truthy (Js.get prSpec "reviewers"))%bool then
           requestReviewsIfNeeded repository number (Js.get prSpec "reviewers") token
         else mret tt) ;;
        (if (Js.is_true (Js.get prSpec "merge") || Js.is_true (Js.get plan "merge"))%bool then
           maybeMergePullRequest repository number
             (Js.or (VStr mergeStrategy) (Js.get prSpec "mergeStrategy")) token
         else mret tt) ;;
        mret (mkResult number url).

(** Lines 649-693 on their own: everything [maybeApplyRepositoryPlan] does
    before the merge step.  [None] stands for the early returns, [Some] for
    the repository and the pull request number known when the merge step is
    reached.  [maybeApplyRepositoryPlan_stages] below shows that the function
    is this stage followed by lines 686-689 and 695-700. *)
Definition pullRequestStage (plan : value) (token : string)
  : M (option (option repo * value)) :=
  if (negb (Js.truthy plan) || negb (Js.is_object plan))%bool then mret None
  else
    repository ← parseRepository
                   (Js.or (Js.get_opt (Js.get plan "repository") "name")
                      (VStr (env h "GITHUB_REPOSITORY")));
    (match repository with
     | None => toWarning "Unable to determine repository for PR operations."
     | Some _ => mret tt
     end) ;;
    let commit := Js.or (Js.get plan "commit") (VObj []) in
    let branchName :=
      Js.or (Js.get commit "branch") (Js.or (Js.get plan "branch") (Js.get plan "branchName")) in
    if negb (Js.truthy branchName) then
      toNotice "Agent response did not include branch information; skipping repository operations." ;;
      mret None
    else if negb (Str.nonempty token) then
      toWarning "No GitHub token provided; cannot push commits or manage pull requests." ;;
      mret None
    else
      ensureGitUserConfigured (Js.get commit "author") ;;
      prepareBranch branchName (Js.or (Js.get commit "base") (Js.get plan "baseBranch")) ;;
      applyFileOperations plan ;;
      committed ← stageAndCommit
                    (Js.or (Js.get commit "message")
                       (Js.or (Js.get plan "commitMessage") (VStr "PixelFrame agent updates")));
      if negb committed then
        toNotice "No changes detected after applying agent plan." ;;
        mret None
      else
        pushBranch branchName
          (Js.is_true (Js.get commit "force") || Js.is_true (Js.get plan "force"))%bool ;;
        let prSpec := Js.or (Js.get plan "pullRequest") (VObj []) in
        number ← createOrUpdatePullRequest repository branchName
                   (Js.or (Js.get commit "base") (Js.get plan "baseBranch")) prSpec token;
        (if (Js.truthy number && Js.truthy (Js.get prSpec "reviewers"))%bool then
           requestReviewsIfNeeded repository number (Js.get prSpec "reviewers") token
         else mret tt) ;;
        mret (Some (repository, number)).

(** *** Main entry point (lines 707-776) *)

Definition load_payload (payloadPath : path) : M value :=
  match read_payload h payloadPath with
  | Unreadable why => throw (Error why)
  | Malformed why =>
      throw (Error ("Failed to parse JSON from " +:+ Path.render payloadPath +:+ ": " +:+ why))
  | Payload v => mret v
  end.

(** The [try] block of [run]. *)
Definition run_body : M unit :=
  payloadFile ← getInput "payload-file" true;
  tokenInput ← getInput "token" false;
  let token := if Str.nonempty tokenInput then tokenInput else env h "GITHUB_TOKEN" in
  mergeStrategy ← getInput "merge-strategy" false;
  pixelframeBaseUrl ← getInput "pixelframe-base-url" false;
  payload ← load_payload (Path.resolve (cwd h) payloadFile);
  agentUrl ← resolveAgentUrl payload pixelframeBaseUrl;
  if negb (Js.truthy agentUrl) then
    throw (Error "Unable to resolve PixelFrame agent endpoint. Provide `pixelframe-base-url` input or `agentUrl` inside the payload.")
  else
    let apiKey := env h "PIXELFRAME_API_KEY" in
    (if Str.nonempty apiKey then mret tt
     else toWarning "PIXELFRAME_API_KEY is not set; attempting to call agent without authentication.") ;;
    logPipelineStart ;;
    let metadata :=
      VObj [ ("pipeline", VStr "multi-agent-v2");
             ("mergeStrategy", Js.or (VStr mergeStrategy) VUndef);
             ("actionVersion", VStr ACTION_VERSION) ] in
    agentResponse ← callAgent agentUrl apiKey payload buildContextSnapshot metadata;
    (if (Js.truthy agentResponse && Js.is_object agentResponse)%bool then
       (if Js.truthy (Js.get agentResponse "runId") then
          setOutput "run-id" (VStr (Js.to_text (Js.get agentResponse "runId")))
        else mret tt) ;;
       (if Js.truthy (Js.get agentResponse "status") then
          setOutput "status" (Js.get agentResponse "status")
        else mret tt)
     else mret tt) ;;
    result ← maybeApplyRepositoryPlan
               (Js.or (Js.get_opt agentResponse "plan") agentResponse) token mergeStrategy;
    (if Js.truthy (prNumber result) then
       setOutput "pr-number" (VStr (Js.to_text (prNumber result)))
     else mret tt) ;;
    (if Js.truthy (prUrl result) then setOutput "pr-url" (prUrl result) else mret tt) ;;
    logPipelineComplete (prNumber result) (prUrl result).

Definition run : M unit :=
  try_catch run_body (fun error => setFailed (exn_message error)).


End Action.

(** *** What the console prints *)

(** The workflow command with which the console text of a level starts. *)
Definition command (l : level) : string :=
  match l with
  | Debug => "::debug::"
  | Notice => "::notice::"
  | Warning => "::warning::"
  | Failure => "::error::"
  end.

(** The text a call hands to the console, which prints it and a line feed:
    an annotation (lines 63, 76, 82, 87 and 91) or, when no output file is
    named, the line of an output (line 66).  Messages and values are printed
    as they are. *)
Definition console_text (h : host) (e : event) : option string :=
  match e with
  | Annotation l message => Some (command l +:+ message)
  | OutputLine destination name v =>
      if Str.nonempty destination then None
      else Some ("::set-output " +:+ output_line h name v)
  | _ => None
  end.

(** A line feed or a carriage return. *)
Definition is_break (c : ascii) : bool :=
  (Ascii.eqb c "010"%char || Ascii.eqb c "013"%char)%bool.

(** The lines of a text: it is cut at every line feed and carriage return. *)
Fixpoint lines (s : string) : list string :=
  match s with
  | EmptyString => [EmptyString]
  | String c r =>
      if is_break c then EmptyString :: lines r
      else match lines r with
           | l :: t => String c l :: t
           | [] => [String c EmptyString]
           end
  end.

(** The lines that the calls of a trace print on the console. *)
Definition console_lines (h : host) (tr : list event) : list string :=
  concat (map lines (omap (console_text h) tr)).

(* ===================================================================== *)
(** ** The build script *)
(* ===================================================================== *)

(** The build script of the repository (the second source file, lines 1-14)
    creates [dist] below [process.cwd()] and copies [src/index.js] to
    [dist/index.js].  It is embedded as a function of the file-system tree
    that returns the line printed on success, or the error, with the tree
    it leaves. *)

Module Build.



Definition destinationDir (cwd : string) : path := Path.resolve cwd "dist".

Definition destination (cwd : string) : path :=
  Path.resolve (Path.render (destinationDir cwd)) "index.js".


End Build.

(* ===================================================================== *)
(** ** A sample host and sample worlds *)
(* ===================================================================== *)

Module Sample.

Definition lookup_env (vars : list (string * string)) (k : string) : string :=
  default "" (table_get k vars).

(** A runner checked out at [/work/repo] with a token, a repository and a
    payload file [payload.json] holding [payload]. *)
Definition host_with (vars : list (string * string)) (payload : value) : host :=
  mkHost
    (lookup_env vars)
    "/work/repo"
    (fun rel base => Some (base +:+ rel))
    (fun u => Some "https://agent.example")
    (fun p => if decide (p = ["work"; "repo"; "payload.json"]) then Payload payload
              else Unreadable "ENOENT: no such file or directory")
    (fun v => match v with
              | VNull => "null"
              | VBool true => "true"
              | VBool false => "false"
              | VNum n => Str.of_Z n
              | _ => "{...}"
              end).

Definition vars : list (string * string) :=
  [ ("INPUT_PAYLOAD-FILE", "payload.json");
    ("INPUT_TOKEN", "ghs_token");
    ("GITHUB_REPOSITORY", "acme/widgets");
    ("PIXELFRAME_API_KEY", "key") ].

Definition host0 : host := host_with vars (VObj [("agentUrl", VStr "https://x/agent/run")]).

Definition world (rs : list fetch_outcome) (xs : list spawn_outcome) : state :=
  mkState [] rs xs ∅ ∅.

Definition ok_json (v : value) : fetch_outcome :=
  Responds (mkResponse 200 "OK" "{...}" (Parsed v)).

Definition clean : spawn_outcome := Closed (Some 0).
Definition dirty : spawn_outcome := Closed (Some 1).

(** The scenario of the specification: the agent starts job [abc], the third
    poll returns a plan for branch [b1] that asks for a merge, git finds
    changes to commit, and GitHub creates pull request 7; the merge strategy
    input is [fast-forward]. *)
Definition plan_b1 : value :=
  VObj [ ("branch", VStr "b1");
         ("files", VArr [VObj [("path", VStr "a.txt"); ("contents", VStr "hi")]]);
         ("merge", VBool true) ].


Definition scenario : state :=
  world
    [ ok_json (VObj [("status", VStr "processing"); ("runId", VStr "abc")]);
      ok_json (VObj [("status", VStr "processing")]);
      ok_json (VObj [("status", VStr "processing")]);
      ok_json (VObj [("status", VStr "completed"); ("plan", plan_b1)]);
      ok_json (VObj [("number", VNum 7)]) ]
    [clean; clean; clean; clean; clean; clean; clean; dirty; clean; clean].



(** A 2xx response without a body. *)
Definition no_content : response := mkResponse 204 "No Content" "" (Unparsable "").

(** A 404 whose body is the HTML page of a proxy, not JSON. *)
Definition not_found_page : response :=
  mkResponse 404 "Not Found" "<html>Not Found</html>" (Unparsable "Unexpected token <").

(** A 404 whose body is JSON. *)
Definition not_found_json : response :=
  mkResponse 404 "Not Found" "{...}" (Parsed (VObj [("error", VStr "no such job")])).

Definition completed : value := VObj [("status", VStr "completed")].


(** A status response that reports [processing]. *)
Definition processing : response :=
  mkResponse 200 "OK" "{...}" (Parsed (VObj [("status", VStr "processing")])).

End Sample.

(* ===================================================================== *)
(** ** The vocabulary of the properties *)
(* ===================================================================== *)

(** The events a computation adds to the trace of the state it starts in. *)
Definition effects {A} (m : M A) (st : state) : list event :=
  drop (length (trace st)) (trace (m st).2).

(** [emits P m]: [m] only ever appends events, and all of them satisfy [P]. *)
Definition emits {A} (P : event -> Prop) (m : M A) : Prop :=
  forall st, exists tr, trace (m st).2 = trace st ++ tr /\ Forall P tr.

(** [succeeds m]: [m] never throws. *)
Definition succeeds {A} (m : M A) : Prop :=
  forall st, exists a st', m st = (Ok a, st').

(** The path a write or a removal acts on. *)
Definition touched (e : event) : option path :=
  match e with
  | WriteFile p _ => Some p
  | Rm p => Some p
  | _ => None
  end.

Definition path_text (v : value) : option string :=
  match v with VStr s => Some s | _ => None end.

(** The path strings a plan asks to write or to remove (lines 432, 443-451). *)
Definition requested_paths (plan : value) : list string :=
  omap (fun c => path_text (change_path c))
    (normalizeFileChanges
       (Js.or (Js.get plan "files") (Js.or (Js.get plan "updates") (VArr []))))
  ++ omap (fun item =>
             match item with
             | VStr s => Some s
             | _ => if Js.truthy item then path_text (Js.get item "path") else None
             end)
       (if Js.is_array (Js.get plan "deletions") then Js.array_items (Js.get plan "deletions")
        else []).

(** The Plan Applier never writes or removes outside the working tree. *)
Definition stays_in_tree (h : host) (plan : value) : Prop :=
  forall st e t,
    In e (effects (applyFileOperations h plan) st) ->
    touched e = Some t ->
    Path.inside (Path.root (cwd h)) t.

(** A plan that writes through [..] and removes an absolute path. *)
Definition escaping_plan : value :=
  VObj [ ("files", VArr [VObj [("path", VStr "../outside.txt"); ("contents", VStr "x")]]);
         ("deletions", VArr [VStr "/etc/passwd"]) ].

(** A plan whose paths all stay below the working tree. *)
Definition contained_plan : value :=
  VObj [ ("files", VArr [VObj [("path", VStr "src/../docs/a.txt"); ("contents", VStr "x")]]);
         ("deletions", VArr [VStr "old.txt"; VObj [("path", VStr "./tmp/")]]) ].

(** A console line that is not the failure report of [setFailed]. *)
Definition is_log (e : event) : bool :=
  match e with
  | Annotation Failure _ => false
  | Annotation _ _ => true
  | _ => false
  end.

Definition is_request (e : event) : bool :=
  match e with HttpRequest _ _ _ _ => true | _ => false end.

(** The events that matter to the pacing of the poller. *)
Definition is_timing (e : event) : bool :=
  match e with Sleep _ | HttpRequest _ _ _ _ => true | _ => false end.

(** [logs_only m]: [m] never throws, writes annotations only, and leaves the
    outside world as it was (it may update [lastLoggedStatus]). *)
Definition logs_only {A} (m : M A) : Prop :=
  forall st, exists a st' tr,
    m st = (Ok a, st') /\
    trace st' = trace st ++ tr /\
    responses st' = responses st /\
    exits st' = exits st /\
    fs st' = fs st /\
    Forall (fun e => is_log e = true) tr.






(** A successful status response that parses and reports [processing]. *)
Definition reports_processing (r : response) : Prop :=
  response_ok r = true /\
  exists data, JSON_parse r = Parsed data /\ Js.get data "status" = VStr "processing".


Definition timeout_error (runId : value) : exn :=
  Error ("Job " +:+ Js.to_text runId +:+ " timed out after 10 minutes").

(** The number of HTTP requests in a trace. *)
Definition requests (tr : list event) : nat := length (List.filter is_request tr).

(** The status request of a polling run. *)
Definition status_request (statusUrl apiKey : string) : event :=
  HttpRequest "GET" statusUrl (("User-Agent", USER_AGENT) :: bearer apiKey) None.

(** [k] rounds of one full interval of sleep followed by one status request. *)
Definition paced_rounds (k : nat) (request : event) : list event :=
  concat (replicate k [Sleep pollInterval; request]).


(** What [getInput] returns for an input when it does not throw: the trimmed
    variable, empty when the input is not supplied. *)
Definition input (h : host) (name : string) : string :=
  Str.trim (env h (formatInputKey name)).

(** The endpoint a payload carries: the first truthy value among its alias
    fields, when the payload is an object. *)
Definition embedded_endpoint (payload : value) : option value :=
  if (Js.truthy payload && Js.is_object payload)%bool then
    List.find Js.truthy (map (Js.get payload) endpoint_aliases)
  else None.

Definition unresolved_endpoint_message : string :=
  "Unable to resolve PixelFrame agent endpoint. Provide `pixelframe-base-url` input or `agentUrl` inside the payload.".

(** The events of a run that completes without publishing anything and
    without touching the repository: console lines and HTTP requests. *)
Definition is_log_or_request (e : event) : bool := (is_log e || is_request e)%bool.

(** The staging check that finds nothing staged. *)
Definition clean_diff : event :=
  Spawn "git" ["diff"; "--cached"; "--quiet"] (Closed (Some 0)).

(** Events that publish work: a commit, a push, or any HTTP request. *)
Definition publishes (e : event) : bool :=
  match e with
  | HttpRequest _ _ _ _ => true
  | Spawn _ (a :: _) _ => (String.eqb a "commit" || String.eqb a "push")%bool
  | _ => false
  end.

(** [prefers_no_diff m]: whenever the clean staging check occurs among the
    events of [m], the result is "no pull request" and nothing was published. *)
Definition prefers_no_diff (m : M pr_result) : Prop :=
  forall st, exists tr,
    trace (m st).2 = trace st ++ tr /\
    (In clean_diff tr ->
     (m st).1 = Ok no_pull_request /\ Forall (fun e => publishes e = false) tr).


(** [prSpec.merge === true || plan.merge === true] (line 695). *)
Definition merge_requested (plan : value) : bool :=
  (Js.is_true (Js.get (Js.or (Js.get plan "pullRequest") (VObj [])) "merge")
   || Js.is_true (Js.get plan "merge"))%bool.

(** [mergeStrategy || prSpec.mergeStrategy] (line 697). *)
Definition effective_strategy (plan : value) (mergeStrategy : string) : value :=
  Js.or (VStr mergeStrategy)
    (Js.get (Js.or (Js.get plan "pullRequest") (VObj [])) "mergeStrategy").


(** [post Q m]: whatever [m] returns satisfies [Q]. *)
Definition post {A} (Q : A -> Prop) (m : M A) : Prop :=
  forall st a st', m st = (Ok a, st') -> Q a.

(* ===================================================================== *)
(** ** Further vocabulary *)
(* ===================================================================== *)

(** *** Characters of a string *)

(** No character of [s] satisfies [p]. *)
Fixpoint no_char (p : ascii -> bool) (s : string) : bool :=
  match s with
  | EmptyString => true
  | String c r => (negb (p c) && no_char p r)%bool
  end.

(** The path separator. *)
Definition is_slash (c : ascii) : bool := Ascii.eqb c "/"%char.

(** A character with all the bytes its first byte announces. *)
Definition whole (x : string) : Prop :=
  exists a r, x = String a r /\ String.length x = Str.size a.

(** A list of characters as [Str.chars] cuts them: all are whole, but the
    last may be cut short. *)
Fixpoint chunked (l : list string) : Prop :=
  match l with
  | [] => True
  | x :: r => match r with [] => Str.chars x = [x] | _ => whole x /\ chunked r end
  end.

(** The characters [Str.trim] keeps. *)
Definition kept (l : list string) : list string :=
  rev (Str.drop_white (rev (Str.drop_white l))).

(** *** Status responses *)

(** A successful status response that ends the polling with [result]: it
    reports [completed] and is returned whole, or it reports [failed] and its
    [result] field, when truthy, is returned in its place (lines 309-319). *)
Definition reports_end (r : response) (result : value) : Prop :=
  response_ok r = true /\
  exists data,
    JSON_parse r = Parsed data /\
    ((Js.get data "status" = VStr "completed" /\ result = data) \/
     (Js.get data "status" = VStr "failed" /\ result = Js.or (Js.get data "result") data)).

(** The error the poller raises for a status response that is not 2xx
    (lines 273-281). *)
Definition status_error (runId : value) (r : response) : exn :=
  if response_status r =? 404 then Error ("Job " +:+ Js.to_text runId +:+ " not found (404)")
  else if response_status r =? 410 then Error ("Job " +:+ Js.to_text runId +:+ " expired (410)")
  else Error ("Status check failed (" +:+ Str.of_Z (response_status r) +:+ "): "
                +:+ Str.slice0 200 (response_text r)).

(** The state in which the polling loop starts: the two opening notices are
    written and [lastLoggedStatus] is empty (lines 244-248). *)
Definition polling_start (runId : value) (st : state) : state :=
  mkState
    ((trace st
        ++ [Annotation Notice ("Job " +:+ Js.to_text runId
                                 +:+ " started, polling for completion (max 10 minutes)...")])
       ++ [Annotation Notice ""])
    (responses st) (exits st) (fs st) ∅.

(** A status response after which the poller sleeps and asks again: its
    body does not parse (whatever its status code), or it is 2xx and parses to
    a value other than [null] whose status is neither [completed] nor
    [failed] (lines 266-271 and 321-327). *)
Definition keeps_polling (r : response) : Prop :=
  (exists why, JSON_parse r = Unparsable why) \/
  (response_ok r = true /\
   exists data,
     JSON_parse r = Parsed data /\
     Js.is_nullish data = false /\
     Js.is_str "completed" (Js.get data "status") = false /\
     Js.is_str "failed" (Js.get data "status") = false).

(** A status response that parses and makes the poller raise [e]: it is not
    2xx, or it is 2xx and its body is the JSON [null] (lines 273-286). *)
Definition rejected_with (runId : value) (r : response) (e : exn) : Prop :=
  exists data,
    JSON_parse r = Parsed data /\
    ((response_ok r = false /\ e = status_error runId r) \/
     (response_ok r = true /\ data = VNull /\
      e = TypeError "Cannot read properties of null (reading 'pipeline')")).

(** A status response that reports a failed job with a partial result. *)
Definition failed_job : response :=
  mkResponse 200 "OK" "{...}"
    (Parsed (VObj [("status", VStr "failed"); ("error", VStr "boom");
                   ("result", VObj [("partial", VBool true)])])).

(** A status response with a status the poller does not know. *)
Definition unknown_status : response :=
  mkResponse 200 "OK" "{...}" (Parsed (VObj [("status", VStr "queued")])).

(** A 500 whose body is JSON. *)
Definition server_error : response :=
  mkResponse 500 "Internal Server Error" "{...}" (Parsed (VObj [("error", VStr "boom")])).

(** *** Answers to the invocation *)

(** What [callAgent] makes of the body of the agent's answer (lines 356-366):
    nothing for an empty body, the parsed value, or the raw text wrapped in
    an object when the body is not JSON. *)
Definition agent_answer (r : response) : value :=
  if Str.nonempty (response_text r) then
    match JSON_parse r with
    | Parsed d => d
    | Unparsable _ => VObj [("raw", VStr (response_text r))]
    end
  else VUndef.

(** The answer announces a job to poll (line 376). *)
Definition starts_job (answer : value) : bool :=
  (Js.truthy answer && Js.is_str "processing" (Js.get answer "status")
   && Js.truthy (Js.get answer "runId"))%bool.

(** The error of an invocation that is not answered 2xx (lines 368-373). *)
Definition invocation_error (r : response) : exn :=
  Error ("PixelFrame API request failed ("
           +:+ Str.of_Z (response_status r) +:+ " " +:+ response_statusText r +:+ "): "
           +:+ (if Str.nonempty (response_text r) then Str.slice0 500 (response_text r)
                else "No response body")).

(** The invocation request (lines 334-354). *)
Definition invocation_request (agentUrl : value) (apiKey : string)
    (payload context metadata : value) : event :=
  HttpRequest "POST" (Js.to_text agentUrl)
    ([("Content-Type", "application/json"); ("User-Agent", USER_AGENT)] ++ bearer apiKey)
    (Some (VObj [("payload", payload); ("context", context); ("metadata", metadata)])).

(** A 502 whose body is the HTML page of a proxy. *)
Definition bad_gateway : response :=
  mkResponse 502 "Bad Gateway" "<html>upstream down</html>" (Unparsable "Unexpected token <").

(** A 2xx answer whose body is not JSON. *)
Definition plain_text : response :=
  mkResponse 200 "OK" "done" (Unparsable "Unexpected token d").

(** A 2xx answer that announces the job [abc]. *)
Definition job_started : response :=
  mkResponse 202 "Accepted" "{...}"
    (Parsed (VObj [("status", VStr "processing"); ("runId", VStr "abc")])).

(** *** File changes and deletions *)

(** The change [normalizeFileChanges] makes of an entry it keeps
    (lines 397-404). *)
Definition normalized (entry : value) : file_change :=
  mkChange
    (Js.get entry "path")
    (Js.nullish (Js.get entry "contents") (Js.nullish (Js.get entry "content") (VStr "")))
    (Js.or (Js.get entry "encoding") (Js.or (Js.get entry "contentEncoding") (VStr "utf-8")))
    (Js.or (Js.get entry "mode") (VStr "text")).

(** The entries [normalizeFileChanges] keeps (line 394). *)
Definition usable_entry (entry : value) : bool :=
  (Js.truthy entry && Js.is_object entry && Js.truthy (Js.get entry "path"))%bool.

(** What [writeFileChange] hands to [fs.writeFile] for a change
    (lines 413-423). *)
Definition written_content (change : file_change) : file_content :=
  let data :=
    if Js.is_str "base64" (change_encoding change)
    then Base64 (change_contents change) else Plain (change_contents change) in
  if Js.is_str "binary" (change_mode change) then Bytes data else Utf8 data.

(** The path a deletion item names, when the applier acts on it
    (lines 445-451). *)
Definition deletion_path (item : value) : option string :=
  match item with
  | VStr s => Some s
  | _ => if Js.truthy item then path_text (Js.get item "path") else None
  end.

(** The deletions of a plan (line 443). *)
Definition deletions_of (plan : value) : list value :=
  if Js.is_array (Js.get plan "deletions") then Js.array_items (Js.get plan "deletions")
  else [].

(** A plan that writes [a.txt] and deletes it again. *)
Definition write_then_delete : value :=
  VObj [ ("files", VArr [VObj [("path", VStr "a.txt"); ("contents", VStr "x")]]);
         ("deletions", VArr [VObj [("path", VStr "./a.txt")]]) ].

(** A working tree at [/work/repo] holding one file. *)
Definition checked_out : state :=
  mkState [] [] []
    (<[ ["work"; "repo"; "README.md"] := File (Utf8 (Plain (VStr "hello"))) ]>
       (<[ ["work"; "repo"] := Dir ]> (<[ ["work"] := Dir ]> ∅)))
    ∅.

(** *** Commands and GitHub requests *)

(** The state after a child process was spawned and ended with [o]. *)
Definition spawned (command : string) (args : list string) (o : spawn_outcome)
    (rest : list spawn_outcome) (st : state) : state :=
  mkState (trace st ++ [Spawn command args o]) (responses st) rest (fs st) (lastLoggedStatus st).

(** What [githubRequest] makes of the body of an answer (lines 537-546). *)
Definition github_answer (r : response) : value :=
  if Str.nonempty (response_text r) then
    match JSON_parse r with
    | Parsed d => d
    | Unparsable _ => VObj [("raw", VStr (response_text r))]
    end
  else VNull.

(** The error of a GitHub request that is not answered 2xx (lines 548-551). *)
Definition github_error (r : response) : exn :=
  Error ("GitHub API request failed ("
           +:+ Str.of_Z (response_status r) +:+ " " +:+ response_statusText r +:+ "): "
           +:+ (if Str.nonempty (response_text r) then Str.slice0 400 (response_text r)
                else "No response body")).

(** The request [githubRequest] sends (lines 522-535). *)
Definition github_call (token method url : string) (body : option value) : event :=
  HttpRequest method url
    ([ ("Authorization", "Bearer " +:+ token);
       ("User-Agent", USER_AGENT);
       ("Accept", "application/vnd.github+json") ]
     ++ (match body with Some _ => [("Content-Type", "application/json")] | None => [] end))
    body.

(** The pull request number a plan carries, if any (line 565). *)
Definition known_number (prSpec : value) : value :=
  Js.or (Js.get prSpec "number") (Js.get prSpec "prNumber").

(** Title, body and draft flag sent for a pull request (lines 562-564). *)
Definition pull_request_fields (branchName prSpec : value) : list (string * value) :=
  [ ("title", Js.or (Js.get prSpec "title")
                (VStr ("Updates from PixelFrame agent (" +:+ Js.to_text branchName +:+ ")")));
    ("body", Js.or (Js.get prSpec "body") (VStr ""));
    ("draft", VBool (Js.is_true (Js.get prSpec "draft"))) ].

(** The number read off GitHub's answer to a creation (line 596). *)
Definition created_number (answer : value) : value :=
  if (Js.truthy answer && Js.truthy (Js.get answer "number"))%bool
  then Js.get answer "number" else VNull.

(** The users and the teams [requestReviewsIfNeeded] asks (lines 604-605). *)
Definition review_users (reviewers : value) : value :=
  if Js.is_array (Js.get_opt reviewers "users") then Js.get reviewers "users"
  else Js.or reviewers (VArr []).

(** The teams: an array under [teams], or none. *)
Definition review_teams (reviewers : value) : value :=
  if Js.is_array (Js.get_opt reviewers "teams") then Js.get reviewers "teams" else VArr [].

(** Nobody is asked for a review (line 607). *)
Definition nobody (reviewers : value) : bool :=
  (Js.strict_eq (Js.get (review_users reviewers) "length") (VNum 0)
   && Js.strict_eq (Js.get (review_teams reviewers) "length") (VNum 0))%bool.

(** The git identity [ensureGitUserConfigured] sets (lines 479-480). *)
Definition identity_commands (h : host) (commitConfig : value) : list (list string) :=
  let config := match commitConfig with VUndef => VObj [] | c => c end in
  [ ["config"; "user.name";
     Js.to_text (Js.or (Js.get config "name")
                   (Js.or (VStr (env h "GIT_COMMITTER_NAME")) (VStr "pixelframe-agent")))];
    ["config"; "user.email";
     Js.to_text (Js.or (Js.get config "email")
                   (Js.or (VStr (env h "GIT_COMMITTER_EMAIL")) (VStr "pixelframe@git.local")))] ].

(** The base ref [prepareBranch] works from (line 489). *)
Definition base_ref (h : host) (baseBranch : value) : string :=
  Js.to_text
    (Js.or baseBranch
       (Js.or (VStr (env h "GITHUB_BASE_REF"))
          (Js.or (VStr (env h "GITHUB_REF_NAME")) (VStr "main")))).

(** The arguments of the four git commands of [prepareBranch], in order
    (lines 487-493). *)
Definition branch_commands (branchName : value) (baseRef : string) : list (list string) :=
  [ ["fetch"; "--prune"; "--tags"];
    ["checkout"; baseRef];
    ["pull"; "--ff-only"; "origin"; baseRef];
    ["checkout"; "-B"; Js.to_text branchName; baseRef] ].

Definition exited_cleanly (o : spawn_outcome) : bool :=
  match o with Closed (Some 0) => true | _ => false end.

(** The events of git commands run one after the other, each only when the
    one before it exited 0. *)
Fixpoint run_until_failure (commands : list (list string)) (outcomes : list spawn_outcome)
    : list event :=
  match commands, outcomes with
  | c :: cs, o :: os =>
      Spawn "git" c o :: (if exited_cleanly o then run_until_failure cs os else [])
  | _, _ => []
  end.

(** The git commands [commands] awaited one after the other. *)
Fixpoint run_all (commands : list (list string)) : M unit :=
  match commands with
  | [] => mret tt
  | c :: cs => runCommand "git" c ;; run_all cs
  end.

(** *** The order of the repository steps *)

(** The events that change the working tree. *)
Definition is_file_operation (e : event) : bool :=
  match e with Mkdir _ | WriteFile _ _ | Rm _ => true | _ => false end.

(** A [git push], whatever its outcome. *)
Definition is_push (e : event) : bool :=
  match e with Spawn _ (a :: _) _ => String.eqb a "push" | _ => false end.

(** [git checkout -B <branch> <base>] exited cleanly (line 493). *)
Definition branch_checked_out (e : event) : Prop :=
  exists branch base, e = Spawn "git" ["checkout"; "-B"; branch; base] (Closed (Some 0)).

(** [git commit -m <message>] exited cleanly (line 504). *)
Definition commit_made (e : event) : Prop :=
  exists message, e = Spawn "git" ["commit"; "-m"; message] (Closed (Some 0)).

(** [git push ...] exited cleanly (line 514). *)
Definition branch_pushed (e : event) : Prop :=
  exists args, e = Spawn "git" ("push" :: args) (Closed (Some 0)).

(** [held_back P opener m]: the events of [m] are events that satisfy [P],
    followed by further events only when the last of the former is an
    [opener] event. *)
Definition held_back {A} (P : event -> Prop) (opener : event -> Prop) (m : M A) : Prop :=
  forall st, exists before after,
    trace (m st).2 = trace st ++ before ++ after /\
    Forall P before /\
    (after = [] \/ exists earlier g, before = earlier ++ [g] /\ opener g).

(** The branch a plan names (lines 658-659). *)
Definition plan_branch (plan : value) : value :=
  Js.or (Js.get (Js.or (Js.get plan "commit") (VObj [])) "branch")
    (Js.or (Js.get plan "branch") (Js.get plan "branchName")).

(** *** Reports to the workflow *)

(** The two events by which [setFailed] reports a failed run (lines 75-78). *)
Definition is_failure_report (e : event) : bool :=
  match e with Annotation Failure _ | ExitCode _ => true | _ => false end.

(** The calls by which a run reports to the workflow: an output, or the
    failure report. *)
Definition is_report (e : event) : bool :=
  match e with
  | OutputLine _ _ _ | Annotation Failure _ | ExitCode _ => true
  | _ => false
  end.

(** The name of the output that a call of [appendOutputLine] is for. *)
Definition output_name (e : event) : option string :=
  match e with OutputLine _ n _ => Some n | _ => None end.

(** The names of the outputs of a trace, call by call. *)
Definition output_names (tr : list event) : list string := omap output_name tr.

(** [publishes_within allowed m]: the calls of [appendOutputLine] that [m]
    makes are, in this order and each at most once, for names among
    [allowed], and they go where [GITHUB_OUTPUT] says. *)
Definition publishes_within {A} (h : host) (allowed : list string) (m : M A) : Prop :=
  forall st, exists tr,
    trace (m st).2 = trace st ++ tr /\
    sublist (output_names tr) allowed /\
    Forall (fun e => forall d n v, e = OutputLine d n v -> d = env h "GITHUB_OUTPUT") tr.

(** A call of [console.log] by [toDebug] (line 82). *)
Definition is_debug_line (e : event) : bool :=
  match e with Annotation Debug _ => true | _ => false end.

(** No text that a trace prints holds a line feed or a carriage return. *)
Definition prints_single_lines (h : host) (tr : list event) : Prop :=
  Forall (fun text => no_char is_break text = true) (omap (console_text h) tr).

(** *** Path segments *)



(* ===================================================================== *)
(** ** Reasoning about [M] *)
(* ===================================================================== *)

Lemma bind_ok {A B} (m : M A) (k : A -> M B) st x st1 :
  m st = (Ok x, st1) -> (m ≫= k) st = k x st1.
Proof. intros E. unfold mbind, M_bind. now rewrite E. Qed.

Lemma bind_throw {A B} (m : M A) (k : A -> M B) st e st1 :
  m st = (Throw e, st1) -> (m ≫= k) st = (Throw e, st1).
Proof. intros E. unfold mbind, M_bind. now rewrite E. Qed.

Lemma effects_of_trace {A} (m : M A) st tr :
  trace (m st).2 = trace st ++ tr -> effects m st = tr.
Proof. intros E. unfold effects. rewrite E. apply drop_app_length. Qed.

Lemma emits_effects {A} P (m : M A) st : emits P m -> Forall P (effects m st).
Proof. intros E. destruct (E st) as (tr & Htr & HP). now rewrite (effects_of_trace _ _ _ Htr). Qed.

Lemma emits_ret {A} P (a : A) : emits P (mret a).
Proof. intros st. exists []. split; [now rewrite app_nil_r|constructor]. Qed.

Lemma emits_throw {A} P e : emits P (@throw A e).
Proof. intros st. exists []. split; [now rewrite app_nil_r|constructor]. Qed.

Lemma emits_throw_bind {A B} P e (k : A -> M B) : emits P (throw e ≫= k).
Proof. intros st. exists []. split; [now rewrite app_nil_r|constructor]. Qed.

Lemma emits_ret_bind {A B} P (a : A) (k : A -> M B) : emits P (k a) -> emits P (mret a ≫= k).
Proof. intros E st. exact (E st). Qed.

Lemma emits_emit P e : P e -> emits P (emit e).
Proof. intros He st. exists [e]. split; [reflexivity|]. now repeat constructor. Qed.

Lemma emits_bind {A B} P (m : M A) (k : A -> M B) :
  emits P m -> (forall a, emits P (k a)) -> emits P (m ≫= k).
Proof.
  intros Em Ek st. destruct (Em st) as (tr1 & H1 & P1).
  unfold mbind, M_bind. destruct (m st) as [[a|e] st1] eqn:E; simpl in *.
  - destruct (Ek a st1) as (tr2 & H2 & P2). exists (tr1 ++ tr2). split.
    + now rewrite H2, H1, app_assoc.
    + now apply Forall_app.
  - exists tr1. now split.
Qed.

Lemma emits_try_catch {A} P (m : M A) handler :
  emits P m -> (forall e, emits P (handler e)) -> emits P (try_catch m handler).
Proof.
  intros Em Eh st. destruct (Em st) as (tr1 & H1 & P1).
  unfold try_catch. destruct (m st) as [[a|e] st1] eqn:E; simpl in *.
  - exists tr1. now split.
  - destruct (Eh e st1) as (tr2 & H2 & P2). exists (tr1 ++ tr2). split.
    + now rewrite H2, H1, app_assoc.
    + now apply Forall_app.
Qed.

Lemma emits_for_of {A} P (xs : list A) body :
  (forall x, emits P (body x)) -> emits P (for_of xs body).
Proof.
  intros Hb. induction xs as [|x r IH]; simpl.
  - apply emits_ret.
  - apply emits_bind; [apply Hb|intros _; exact IH].
Qed.

Lemma emits_fs_step P e op : P e -> emits P (fs_step e op).
Proof.
  intros He st. exists [e]. split; [|now repeat constructor].
  unfold fs_step. now destruct (op (fs st)).
Qed.

Lemma emits_fetch P method url headers body :
  P (HttpRequest method url headers body) -> emits P (fetch method url headers body).
Proof.
  intros He st. exists [HttpRequest method url headers body].
  split; [|now repeat constructor].
  unfold fetch. now destruct (responses st) as [|[r|why] rest].
Qed.

Lemma emits_get_lastLoggedStatus P k : emits P (get_lastLoggedStatus k).
Proof. intros st. exists []. split; [now rewrite app_nil_r|constructor]. Qed.

Lemma emits_remember_status P k v : emits P (remember_status k v).
Proof. intros st. exists []. split; [simpl; now rewrite app_nil_r|constructor]. Qed.

Lemma emits_set_lastLoggedStatus P m : emits P (set_lastLoggedStatus m).
Proof. intros st. exists []. split; [simpl; now rewrite app_nil_r|constructor]. Qed.

Lemma emits_runCommand P command args :
  (forall o, P (Spawn command args o)) -> emits P (runCommand command args).
Proof.
  intros He st. unfold runCommand.
  destruct (exits st) as [|o rest].
  - eexists [_]. split; [reflexivity|]. repeat constructor. apply He.
  - exists [Spawn command args o]. split; [|repeat constructor; apply He].
    now destruct o as [why|[[|p|p]|]].
Qed.

(** One step of symbolic evaluation of [emits] goals. *)
Ltac emits_step :=
  match goal with
  | |- emits _ (mret _) => apply emits_ret
  | |- emits _ (throw _) => apply emits_throw
  | |- emits _ (emit _) => apply emits_emit
  | |- emits _ (mret _ ≫= _) => apply emits_ret_bind
  | |- emits _ (throw _ ≫= _) => apply emits_throw_bind
  | |- emits _ (_ ≫= _) => apply emits_bind; [|intros ?]
  | |- emits _ (try_catch _ _) => apply emits_try_catch; [|intros ?]
  | |- emits _ (for_of _ _) => apply emits_for_of; intros ?
  | |- emits _ (fs_step _ _) => apply emits_fs_step
  | |- emits _ (fetch _ _ _ _) => apply emits_fetch
  | |- emits _ (runCommand _ _) => apply emits_runCommand; intros ?
  | |- emits _ (get_lastLoggedStatus _) => apply emits_get_lastLoggedStatus
  | |- emits _ (remember_status _ _) => apply emits_remember_status
  | |- emits _ (set_lastLoggedStatus _) => apply emits_set_lastLoggedStatus
  | |- emits _ (let _ := _ in _) => cbv zeta
  | |- emits _ (if ?c then _ else _) => destruct c
  | |- emits _ (match ?x with _ => _ end) => destruct x
  end.

(* ===================================================================== *)
(** ** Path resolution *)
(* ===================================================================== *)

Lemma split_slash_nonempty s : Str.split_slash s <> [].
Proof.
  destruct s as [|c r]; simpl; [discriminate|].
  destruct (Ascii.eqb c "/"); [discriminate|].
  now destruct (Str.split_slash r).
Qed.

Lemma split_slash_app a b :
  Str.split_slash (a +:+ String "/" b) = Str.split_slash a ++ Str.split_slash b.
Proof.
  induction a as [|c a IH]; simpl; [reflexivity|].
  destruct (Ascii.eqb c "/").
  - now rewrite IH.
  - rewrite IH. pose proof (split_slash_nonempty a) as Hne.
    now destruct (Str.split_slash a).
Qed.

Lemma normalize_app stack a b :
  Path.normalize stack (a ++ b) = Path.normalize (rev (Path.normalize stack a)) b.
Proof.
  revert stack. induction a as [|s a IH]; intros stack; simpl.
  - now rewrite rev_involutive.
  - destruct (String.eqb s "" || String.eqb s ".")%bool; [apply IH|].
    destruct (String.eqb s ".."); apply IH.
Qed.

Lemma stays_below_inside segs : forall extra base,
  Path.stays_below (length extra) segs = true ->
  Path.inside base (Path.normalize (extra ++ rev base) segs).
Proof.
  unfold Path.inside.
  induction segs as [|s segs IH]; intros extra base Hb; simpl in *.
  - rewrite rev_app_distr, rev_involutive. now apply prefix_app_r.
  - destruct (String.eqb s "" || String.eqb s ".")%bool; [now apply IH|].
    destruct (String.eqb s "..").
    + destruct extra as [|e extra]; [discriminate|]. simpl in *. now apply IH.
    + apply (IH (s :: extra) base). exact Hb.
Qed.

Lemma root_segments cwd :
  Path.root cwd = Path.normalize [] (Str.split_slash cwd).
Proof.
  unfold Path.root, Path.resolve. simpl.
  change (cwd +:+ "/") with (cwd +:+ String "/" EmptyString).
  rewrite split_slash_app, normalize_app. simpl. apply rev_involutive.
Qed.

(** A relative path that never climbs above its starting directory resolves
    inside the working tree root. *)
Lemma resolve_contained cwd p :
  Path.contained p = true -> Path.inside (Path.root cwd) (Path.resolve cwd p).
Proof.
  unfold Path.contained. intros Hc. apply andb_true_iff in Hc as [Hrel Hb].
  unfold Path.resolve. destruct (Str.nonempty p) eqn:Hp.
  - destruct (Str.starts_with_slash p); [discriminate|].
    change (cwd +:+ "/" +:+ p +:+ "/") with (cwd +:+ String "/" (p +:+ String "/" EmptyString)).
    rewrite !split_slash_app, !normalize_app, <- root_segments.
    simpl Str.split_slash. simpl Path.normalize at 1.
    rewrite rev_involutive.
    apply (stays_below_inside (Str.split_slash p) [] (Path.root cwd)). exact Hb.
  - unfold Path.inside. reflexivity.
Qed.

(* ===================================================================== *)
(** ** The Plan Applier *)
(* ===================================================================== *)

Lemma emits_for_of_in {A} P (xs : list A) body :
  (forall x, In x xs -> emits P (body x)) -> emits P (for_of xs body).
Proof.
  induction xs as [|x r IH]; intros Hb; simpl.
  - apply emits_ret.
  - apply emits_bind; [apply Hb; now left|intros _; apply IH].
    intros y Hy. apply Hb. now right.
Qed.

Lemma emits_toDebug h P message :
  (forall m, P (Annotation Debug m)) -> emits P (toDebug h message).
Proof. intros HP. unfold toDebug. repeat emits_step. apply HP. Qed.

Lemma In_omap_intro {A B} (f : A -> option B) (l : list A) x y :
  In x l -> f x = Some y -> In y (omap f l).
Proof.
  intros Hin Hf. apply list_elem_of_In. apply list_elem_of_omap.
  exists x. split; [now apply list_elem_of_In|assumption].
Qed.

(** Every write and every removal of the Plan Applier acts on
    [path.resolve(cwd, p)] for a path [p] the plan asks for. *)
Lemma applyFileOperations_targets h plan :
  emits (fun e => forall t, touched e = Some t ->
                   exists s, In s (requested_paths plan) /\ t = Path.resolve (cwd h) s)
    (applyFileOperations h plan).
Proof.
  unfold applyFileOperations.
  apply emits_bind; [|intros _].
  { unfold toNotice. repeat emits_step. discriminate. }
  apply emits_bind; [|intros _].
  - apply emits_for_of_in. intros change Hin.
    apply emits_bind; [|intros _; apply emits_toDebug; discriminate].
    unfold writeFileChange, resolve_in_cwd.
    destruct (change_path change) as [| | | |s| |] eqn:Hp; try apply emits_throw_bind.
    assert (Hs : In s (requested_paths plan)).
    { unfold requested_paths. apply in_or_app. left.
      eapply In_omap_intro; [exact Hin|]. now rewrite Hp. }
    repeat emits_step; try discriminate;
      intros t [= <-]; exists s; now split.
  - apply emits_for_of_in. intros item Hin.
    assert (Hreq : forall s,
               match item with
               | VStr s' => Some s'
               | _ => if Js.truthy item then path_text (Js.get item "path") else None
               end = Some s -> In s (requested_paths plan)).
    { intros s Hs. unfold requested_paths. apply in_or_app. right.
      eapply In_omap_intro; [exact Hin|exact Hs]. }
    assert (Hrm : forall s, In s (requested_paths plan) ->
               emits (fun e => forall t, touched e = Some t ->
                         exists s, In s (requested_paths plan) /\ t = Path.resolve (cwd h) s)
                 (removeFile h s ;; toDebug h ("Removed file " +:+ s))).
    { intros s Hs. apply emits_bind; [|intros _; apply emits_toDebug; discriminate].
      unfold removeFile. apply emits_fs_step. intros t [= <-]. exists s. now split. }
    destruct item as [| |b|n|s|items|fields]; try apply emits_ret.
    all: try (destruct (Js.truthy _); apply emits_ret).
    all: try (apply Hrm, Hreq; reflexivity).
    change (Js.truthy (VObj fields)) with true in *. cbv iota in *.
    destruct (Js.get (VObj fields) "path") as [| | | |s| |] eqn:Hg; try apply emits_ret.
    apply Hrm, Hreq. reflexivity.
Qed.

Lemma succeeds_ret {A} (a : A) : succeeds (mret a).
Proof. intros st. now exists a, st. Qed.

Lemma succeeds_bind {A B} (m : M A) (k : A -> M B) :
  succeeds m -> (forall a, succeeds (k a)) -> succeeds (m ≫= k).
Proof.
  intros Hm Hk st. destruct (Hm st) as (a & st1 & E).
  rewrite (bind_ok _ _ _ _ _ E). apply Hk.
Qed.

Lemma succeeds_for_of {A} (xs : list A) body :
  (forall x, succeeds (body x)) -> succeeds (for_of xs body).
Proof.
  intros Hb. induction xs as [|x r IH]; simpl.
  - apply succeeds_ret.
  - apply succeeds_bind; [apply Hb|intros _; exact IH].
Qed.

Lemma succeeds_toDebug h message : succeeds (toDebug h message).
Proof.
  unfold toDebug. destruct (String.eqb _ _); [|apply succeeds_ret].
  intros st. now eexists _, _.
Qed.

Lemma rm_shrinks (f f' : gmap path node) (p : path) :
  Fs.rm true true f p = Ok f' -> f' ⊆ f.
Proof.
  unfold Fs.rm. destruct (Fs.lookup f p) as [[|c]|].
  - intros [= <-]. apply map_filter_subseteq.
  - intros [= <-]. apply delete_subseteq.
  - destruct (Fs.below_file f p); [discriminate|]. now intros [= <-].
Qed.





(** The body of the deletion loop (lines 445-451). *)
Lemma deletion_step h item :
  match item with
  | VStr s => removeFile h s ;; toDebug h ("Removed file " +:+ s)
  | _ =>
      if Js.truthy item then
        match Js.get item "path" with
        | VStr s => removeFile h s ;; toDebug h ("Removed file " +:+ s)
        | _ => mret tt
        end
      else mret tt
  end
  = match deletion_path item with
    | Some s => removeFile h s ;; toDebug h ("Removed file " +:+ s)
    | None => mret tt
    end.
Proof.
  unfold deletion_path, path_text.
  destruct item; try reflexivity; destruct (Js.truthy _); try reflexivity;
    destruct (Js.get _ "path"); reflexivity.
Qed.



(** C1 (as stated, refuted).  The Plan Applier of a runner checked out at
    [/work/repo], given a plan that writes [../outside.txt] and removes
    [/etc/passwd], writes and removes outside the working tree: the claim that
    every target stays inside the root does not hold of the code. *)
Lemma plan_applier_escapes : ~ stays_in_tree Sample.host0 escaping_plan.
Proof.
  intros H.
  specialize (H (Sample.world [] [])
                (WriteFile ["work"; "outside.txt"] (Utf8 (Plain (VStr "x"))))
                ["work"; "outside.txt"]).
  assert (Hin : In (WriteFile ["work"; "outside.txt"] (Utf8 (Plain (VStr "x"))))
                  (effects (applyFileOperations Sample.host0 escaping_plan)
                     (Sample.world [] []))).
  { vm_compute. right. right. left. reflexivity. }
  specialize (H Hin eq_refl). destruct H as [k Hk].
  vm_compute in Hk. discriminate Hk.
Qed.

(** C1 (amended).  Every write and every removal of the Plan Applier acts on
    [path.resolve(cwd, p)] for a path [p] of the plan, and when every path of
    the plan is relative and never climbs above its starting directory, every
    target lies inside the working tree root. *)
Theorem contained_plan_stays_in_tree (h : host) (plan : value) :
  (forall s, In s (requested_paths plan) -> Path.contained s = true) ->
  stays_in_tree h plan.
Proof.
  intros Hsafe st e t Hin Ht.
  pose proof (emits_effects _ _ st (applyFileOperations_targets h plan)) as Hall.
  rewrite Forall_forall in Hall.
  destruct (Hall e (proj2 (list_elem_of_In _ _) Hin) t Ht) as (s & Hs & ->).
  apply resolve_contained. now apply Hsafe.
Qed.

Lemma contained_plan_stays_in_tree_witness : stays_in_tree Sample.host0 contained_plan.
Proof.
  apply (contained_plan_stays_in_tree Sample.host0 contained_plan).
  intros s Hs. vm_compute in Hs.
  destruct Hs as [<-|[<-|[<-|[]]]]; reflexivity.
Defined.



(* ===================================================================== *)
(** ** The Job Poller *)
(* ===================================================================== *)

Lemma logs_only_ret {A} (a : A) : logs_only (mret a).
Proof.
  intros st. exists a, st, []. rewrite app_nil_r. repeat split; constructor.
Qed.

Lemma logs_only_emit l message : l <> Failure -> logs_only (emit (Annotation l message)).
Proof.
  intros Hl st. eexists tt, _, [_]. repeat split. repeat constructor.
  now destruct l.
Qed.

Lemma logs_only_bind {A B} (m : M A) (k : A -> M B) :
  logs_only m -> (forall a, logs_only (k a)) -> logs_only (m ≫= k).
Proof.
  intros Hm Hk st.
  destruct (Hm st) as (a & st1 & tr1 & E1 & T1 & R1 & X1 & F1 & A1).
  destruct (Hk a st1) as (b & st2 & tr2 & E2 & T2 & R2 & X2 & F2 & A2).
  exists b, st2, (tr1 ++ tr2). rewrite (bind_ok _ _ _ _ _ E1).
  repeat split; try congruence.
  - now rewrite T2, T1, app_assoc.
  - now apply Forall_app.
Qed.

Lemma logs_only_get_lastLoggedStatus k : logs_only (get_lastLoggedStatus k).
Proof.
  intros st. eexists _, st, []. rewrite app_nil_r. repeat split; constructor.
Qed.

Lemma logs_only_remember_status k v : logs_only (remember_status k v).
Proof.
  intros st. eexists tt, _, []. repeat split; simpl; [now rewrite app_nil_r|constructor].
Qed.

Ltac logs_only_step :=
  match goal with
  | |- logs_only (mret _) => apply logs_only_ret
  | |- logs_only (emit (Annotation _ _)) => apply logs_only_emit; discriminate
  | |- logs_only (_ ≫= _) => apply logs_only_bind; [|intros ?]
  | |- logs_only (get_lastLoggedStatus _) => apply logs_only_get_lastLoggedStatus
  | |- logs_only (remember_status _ _) => apply logs_only_remember_status
  | |- logs_only (let _ := _ in _) => cbv zeta
  | |- logs_only (if ?c then _ else _) => destruct c
  | |- logs_only (match ?x with _ => _ end) => destruct x
  end.

Lemma logs_only_toDebug h message : logs_only (toDebug h message).
Proof. unfold toDebug. repeat logs_only_step. Qed.

Lemma logs_only_toNotice message : logs_only (toNotice message).
Proof. unfold toNotice. repeat logs_only_step. Qed.

Lemma logs_only_toWarning message : logs_only (toWarning message).
Proof. unfold toWarning. repeat logs_only_step. Qed.

Lemma logs_only_logAgentStatus agentKey status d : logs_only (logAgentStatus agentKey status d).
Proof. unfold logAgentStatus, toNotice, toWarning. repeat logs_only_step. Qed.

Lemma logs_only_logAgentChange agentKey agent d : logs_only (logAgentChange agentKey agent d).
Proof.
  unfold logAgentChange.
  repeat first [apply logs_only_logAgentStatus | logs_only_step].
Qed.

Lemma bind_logs_only {A B} (m : M A) (k : A -> M B) st :
  logs_only m ->
  exists a st1 tr1,
    (m ≫= k) st = k a st1 /\
    trace st1 = trace st ++ tr1 /\
    responses st1 = responses st /\
    exits st1 = exits st /\
    fs st1 = fs st /\
    Forall (fun e => is_log e = true) tr1.
Proof.
  intros Hm. destruct (Hm st) as (a & st1 & tr1 & E1 & rest).
  exists a, st1, tr1. split; [apply bind_ok, E1|exact rest].
Qed.

Lemma requests_app tr1 tr2 : requests (tr1 ++ tr2) = (requests tr1 + requests tr2)%nat.
Proof. unfold requests. now rewrite List.filter_app, length_app. Qed.

Lemma requests_annotations tr :
  Forall (fun e => is_log e = true) tr -> requests tr = 0%nat.
Proof.
  unfold requests. induction 1 as [|e tr He _ IH]; [reflexivity|].
  simpl. destruct e; try discriminate. exact IH.
Qed.

Lemma requests_cons e tr :
  requests (e :: tr) = ((if is_request e then 1 else 0) + requests tr)%nat.
Proof. unfold requests. simpl. now destruct (is_request e). Qed.

(** Chains the equations collected on the way to relate the last trace to the
    first one. *)
Ltac chain_traces :=
  repeat match goal with
         | H : trace ?s = _ |- context [trace ?s] => rewrite H; clear H
         end;
  simpl trace; rewrite <- ?app_assoc; simpl; try reflexivity.

Ltac count_requests :=
  repeat first [rewrite requests_app | rewrite requests_cons];
  repeat match goal with
         | H : Forall (fun e => is_log e = true) ?t |- _ =>
             rewrite (requests_annotations t H); clear H
         end;
  try reflexivity.

Lemma fetch_responds method url headers body st r rest :
  responses st = Responds r :: rest ->
  exists st1,
    fetch method url headers body st = (Ok r, st1) /\
    trace st1 = trace st ++ [HttpRequest method url headers body] /\
    responses st1 = rest /\
    exits st1 = exits st /\
    fs st1 = fs st /\
    lastLoggedStatus st1 = lastLoggedStatus st.
Proof.
  intros E. unfold fetch. rewrite E. eexists. repeat split.
Qed.

(** Decides the comparisons of a status with a literal. *)
Ltac eval_is_str :=
  repeat match goal with
         | |- context [Js.is_str ?a (VStr ?b)] =>
             let v := eval vm_compute in (Js.is_str a (VStr b)) in
             change (Js.is_str a (VStr b)) with v
         end;
  cbv iota.

(** Runs the computation at the head of the goal when it only logs. *)
Ltac run_logs H :=
  match goal with
  | |- context [(?m ≫= ?k) ?st] =>
      let a := fresh "a" in
      let st' := fresh "st" in
      let tr := fresh "tr" in
      let E := fresh "E" in
      destruct (bind_logs_only m k st H) as (a & st' & tr & E & ?T & ?R & ?X & ?F & ?A);
      rewrite E; clear E; cbv beta
  end.

(** One attempt on a response that reports [processing]: the body reaches
    [continue] after exactly one request. *)
Lemma pollAttempt_processing h attempt statusUrl apiKey runId st r rest :
  responses st = Responds r :: rest ->
  reports_processing r ->
  exists st' tr,
    pollAttempt h attempt statusUrl apiKey runId st = (Ok None, st') /\
    trace st' = trace st ++ tr /\
    responses st' = rest /\
    requests tr = 1%nat.
Proof.
  intros Hrs (Hok & data & Hparse & Hstatus).
  unfold pollAttempt.
  rewrite (bind_ok _ _ st tt (add_event (Sleep pollInterval) st) eq_refl).
  run_logs (logs_only_toDebug h
              ("Polling attempt " +:+ Str.of_Z (Z.of_nat attempt + 1) +:+ "/"
                 +:+ Str.of_Z (Z.of_nat maxAttempts) +:+ " - " +:+ statusUrl)).
  destruct (fetch_responds "GET" statusUrl (("User-Agent", USER_AGENT) :: bearer apiKey) None
              st0 r rest) as (st3 & E3 & T3 & R3 & _).
  { rewrite R. exact Hrs. }
  rewrite (bind_ok _ _ _ _ _ E3), Hparse, Hok. cbv iota. cbn [negb]. cbv iota.
  assert (Hnn : Js.is_nullish data = false) by (destruct data; try reflexivity; discriminate).
  rewrite Hnn.
  match goal with
  | |- context [(?m ≫= _) st3] =>
      assert (Hlog : logs_only m)
  end.
  { destruct (Js.truthy _); [|apply logs_only_ret].
    apply logs_only_bind; [|intros _]; apply logs_only_logAgentChange. }
  run_logs Hlog.
  rewrite Hstatus. eval_is_str.
  match goal with
  | |- context [(toDebug h ?msg ≫= _) _] => run_logs (logs_only_toDebug h msg)
  end.
  eexists _, _. split; [reflexivity|]. split; [|split].
  - chain_traces.
  - congruence.
  - count_requests.
Qed.

Lemma pollLoop_processing h statusUrl apiKey runId : forall rs attempt st rest,
  responses st = map Responds rs ++ rest ->
  Forall reports_processing rs ->
  exists st' tr,
    pollLoop h (length rs) attempt statusUrl apiKey runId st = (Throw (timeout_error runId), st') /\
    trace st' = trace st ++ tr /\
    responses st' = rest /\
    requests tr = length rs.
Proof.
  induction rs as [|r rs IH]; intros attempt st rest Hrs Hall.
  - exists st, []. simpl in *. rewrite app_nil_r. now repeat split.
  - apply Forall_cons in Hall as [Hr Hall]. simpl in Hrs.
    destruct (pollAttempt_processing h attempt statusUrl apiKey runId st r
                (map Responds rs ++ rest) Hrs Hr) as (st1 & tr1 & E1 & T1 & R1 & N1).
    destruct (IH (S attempt) st1 rest R1 Hall) as (st2 & tr2 & E2 & T2 & R2 & N2).
    exists st2, (tr1 ++ tr2). simpl pollLoop.
    rewrite (bind_ok _ _ _ _ _ E1). split; [exact E2|]. split.
    + now rewrite T2, T1, app_assoc.
    + split; [exact R2|]. rewrite requests_app, N1, N2. reflexivity.
Qed.

(** C3.  When the next 120 responses all parse and report [processing], the
    poller makes exactly 120 requests, consumes exactly those responses, and
    then fails with the timeout error that names the job. *)
Theorem always_processing_times_out (h : host) (baseUrl apiKey statusUrl : string)
    (runId : value) (st : state) (rs : list response) (rest : list fetch_outcome) :
  url_resolve h ("/agent/status/" +:+ Js.to_text runId) baseUrl = Some statusUrl ->
  responses st = map Responds rs ++ rest ->
  length rs = maxAttempts ->
  Forall reports_processing rs ->
  exists st' tr,
    pollAgentStatus h baseUrl apiKey runId st
      = (Throw (Error ("Job " +:+ Js.to_text runId +:+ " timed out after 10 minutes")), st') /\
    trace st' = trace st ++ tr /\
    responses st' = rest /\
    requests tr = 120%nat.
Proof.
  intros Hurl Hrs Hlen Hall. unfold pollAgentStatus. rewrite Hurl.
  match goal with
  | |- context [(toNotice ?msg ≫= _) _] => run_logs (logs_only_toNotice msg)
  end.
  match goal with
  | |- context [(toNotice ?msg ≫= _) _] => run_logs (logs_only_toNotice msg)
  end.
  rewrite (bind_ok (set_lastLoggedStatus ∅) _ st1 tt _ eq_refl).
  destruct (pollLoop_processing h statusUrl apiKey runId rs 0%nat
              (mkState (trace st1) (responses st1) (exits st1) (fs st1) ∅) rest)
    as (st4 & tr4 & E4 & T4 & R4 & N4); [simpl; congruence|assumption|].
  rewrite <- Hlen, E4. eexists _, _.
  split; [reflexivity|]. split; [|split].
  - simpl in T4. chain_traces.
  - exact R4.
  - count_requests. rewrite N4, Hlen. reflexivity.
Qed.

Lemma always_processing_times_out_witness :
  exists st' tr,
    pollAgentStatus Sample.host0 "https://agent.example" "key" (VStr "abc")
      (Sample.world (map Responds (replicate 120 Sample.processing)) [])
      = (Throw (Error "Job abc timed out after 10 minutes"), st') /\
    trace st' = [] ++ tr /\
    responses st' = [] /\
    requests tr = 120%nat.
Proof.
  apply (always_processing_times_out Sample.host0 "https://agent.example" "key"
           "https://agent.example/agent/status/abc" (VStr "abc")
           (Sample.world (map Responds (replicate 120 Sample.processing)) [])
           (replicate 120 Sample.processing) []).
  - reflexivity.
  - unfold Sample.world. cbn [responses]. symmetry. apply app_nil_r.
  - reflexivity.
  - apply Forall_replicate. split; [reflexivity|].
    eexists. split; reflexivity.
Defined.

Lemma logs_only_emits {A} (m : M A) :
  logs_only m -> emits (fun e => is_log e = true) m.
Proof.
  intros Hm st. destruct (Hm st) as (a & st' & tr & E & T & _ & _ & _ & An).
  exists tr. rewrite E. now split.
Qed.

Lemma timing_annotations tr :
  Forall (fun e => is_log e = true) tr -> List.filter is_timing tr = [].
Proof.
  induction 1 as [|e tr He _ IH]; [reflexivity|].
  simpl. destruct e; try discriminate. exact IH.
Qed.

Lemma fetch_trace method url headers body st :
  trace (fetch method url headers body st).2
  = trace st ++ [HttpRequest method url headers body].
Proof. unfold fetch. now destruct (responses st) as [|[r|why] rest]. Qed.

(** Proves that a computation built from the logging helpers only writes
    annotations. *)
Ltac emits_annotations h :=
  repeat first
    [ apply logs_only_emits, logs_only_logAgentChange
    | apply logs_only_emits, (logs_only_toDebug h)
    | apply logs_only_emits, logs_only_toNotice
    | apply logs_only_emits, logs_only_toWarning
    | emits_step ].

Ltac filter_timing :=
  repeat first [rewrite List.filter_app | progress cbn [List.filter is_timing]];
  repeat match goal with
         | H : Forall (fun e => is_log e = true) ?t |- _ =>
             rewrite (timing_annotations t H); clear H
         end;
  rewrite ?app_nil_r; try reflexivity.

(** Every attempt sleeps one full interval and then issues one request. *)
Lemma pollAttempt_paced h attempt statusUrl apiKey runId st :
  exists tr,
    trace (pollAttempt h attempt statusUrl apiKey runId st).2 = trace st ++ tr /\
    List.filter is_timing tr = [Sleep pollInterval; status_request statusUrl apiKey].
Proof.
  unfold pollAttempt.
  rewrite (bind_ok _ _ st tt (add_event (Sleep pollInterval) st) eq_refl).
  match goal with
  | |- context [(toDebug h ?msg ≫= _) _] => run_logs (logs_only_toDebug h msg)
  end.
  pose proof (fetch_trace "GET" statusUrl (("User-Agent", USER_AGENT) :: bearer apiKey) None st0)
    as T3.
  destruct (fetch "GET" statusUrl (("User-Agent", USER_AGENT) :: bearer apiKey) None st0)
    as [[response|e] st3] eqn:E3; simpl in T3.
  - rewrite (bind_ok _ _ _ _ _ E3).
    match goal with
    | |- context [trace (?m st3).2] =>
        assert (Hm : emits (fun e => is_log e = true) m) by emits_annotations h;
        destruct (Hm st3) as (tr4 & T4 & A4)
    end.
    rewrite T4. eexists. split; [chain_traces|]. filter_timing.
  - rewrite (bind_throw _ _ _ _ _ E3). simpl. eexists. split; [chain_traces|]. filter_timing.
Qed.

Lemma pollLoop_paced h statusUrl apiKey runId : forall remaining attempt st,
  exists k tr,
    (k <= remaining)%nat /\
    trace (pollLoop h remaining attempt statusUrl apiKey runId st).2 = trace st ++ tr /\
    List.filter is_timing tr = paced_rounds k (status_request statusUrl apiKey).
Proof.
  induction remaining as [|remaining IH]; intros attempt st.
  - exists 0%nat, []. simpl. rewrite app_nil_r. repeat split. lia.
  - destruct (pollAttempt_paced h attempt statusUrl apiKey runId st) as (tr1 & T1 & F1).
    simpl pollLoop.
    destruct (pollAttempt h attempt statusUrl apiKey runId st) as [[[v|]|e] st1] eqn:E1;
      simpl in T1.
    + rewrite (bind_ok _ _ _ _ _ E1). exists 1%nat, tr1. simpl.
      repeat split; [lia|assumption|]. rewrite F1. reflexivity.
    + rewrite (bind_ok _ _ _ _ _ E1).
      destruct (IH (S attempt) st1) as (k & tr2 & Hk & T2 & F2).
      exists (S k), (tr1 ++ tr2). repeat split; [lia| |].
      * now rewrite T2, T1, app_assoc.
      * rewrite List.filter_app, F1, F2. reflexivity.
    + rewrite (bind_throw _ _ _ _ _ E1). exists 1%nat, tr1. simpl.
      repeat split; [lia|assumption|]. rewrite F1. reflexivity.
Qed.

(** C10.  In every polling run the sleeps and the status requests alternate,
    starting with a sleep: the pacing events are [k <= 120] rounds of one
    5000 ms sleep followed by one request, so the first request and every
    later one, the last included, comes right after a full interval. *)
Theorem sleep_precedes_every_request (h : host) (baseUrl apiKey : string) (runId : value)
    (st : state) :
  exists k request,
    (k <= maxAttempts)%nat /\
    is_request request = true /\
    List.filter is_timing (effects (pollAgentStatus h baseUrl apiKey runId) st)
    = paced_rounds k request.
Proof.
  unfold pollAgentStatus.
  destruct (url_resolve h _ baseUrl) as [statusUrl|].
  - match goal with
    | |- context [effects ?m st] =>
        assert (H : exists k tr, (k <= maxAttempts)%nat /\ trace (m st).2 = trace st ++ tr /\
                      List.filter is_timing tr = paced_rounds k (status_request statusUrl apiKey))
    end.
    { match goal with
      | |- context [(toNotice ?msg ≫= _) _] => run_logs (logs_only_toNotice msg)
      end.
      match goal with
      | |- context [(toNotice ?msg ≫= _) _] => run_logs (logs_only_toNotice msg)
      end.
      rewrite (bind_ok (set_lastLoggedStatus ∅) _ st1 tt _ eq_refl).
      destruct (pollLoop_paced h statusUrl apiKey runId maxAttempts 0%nat
                  (mkState (trace st1) (responses st1) (exits st1) (fs st1) ∅))
        as (k & tr2 & Hk & T2 & F2).
      exists k. eexists. split; [exact Hk|]. split.
      - rewrite T2. simpl trace. chain_traces.
      - filter_timing. exact F2. }
    destruct H as (k & tr & Hk & T & F).
    exists k, (status_request statusUrl apiKey). repeat split; [exact Hk|].
    now rewrite (effects_of_trace _ _ _ T).
  - exists 0%nat, (status_request "" ""). repeat split; [lia|].
    unfold effects, throw. simpl. now rewrite drop_all.
Qed.

(** A terminal code on a body that parses: the attempt throws at once. *)
Lemma pollAttempt_terminal_code h attempt statusUrl apiKey runId st r rest data :
  responses st = Responds r :: rest ->
  JSON_parse r = Parsed data ->
  response_status r = 404 \/ response_status r = 410 ->
  exists st',
    pollAttempt h attempt statusUrl apiKey runId st
    = (Throw (Error ("Job " +:+ Js.to_text runId +:+
                       (if response_status r =? 404 then " not found (404)"
                        else " expired (410)"))), st') /\
    responses st' = rest.
Proof.
  intros Hrs Hparse Hcode. unfold pollAttempt.
  rewrite (bind_ok _ _ st tt (add_event (Sleep pollInterval) st) eq_refl).
  match goal with
  | |- context [(toDebug h ?msg ≫= _) _] => run_logs (logs_only_toDebug h msg)
  end.
  destruct (fetch_responds "GET" statusUrl (("User-Agent", USER_AGENT) :: bearer apiKey) None
              st0 r rest) as (st3 & E3 & T3 & R3 & _).
  { rewrite R. exact Hrs. }
  rewrite (bind_ok _ _ _ _ _ E3), Hparse. cbv iota.
  assert (Hok : response_ok r = false).
  { unfold response_ok. destruct Hcode as [-> | ->]; reflexivity. }
  rewrite Hok. cbn [negb]. cbv iota.
  exists st3. split; [|exact R3].
  destruct Hcode as [-> | ->]; reflexivity.
Qed.

(** A body that does not parse: the attempt logs a warning and reaches
    [continue], whatever the status code. *)
Lemma pollAttempt_unparsable h attempt statusUrl apiKey runId st r rest why :
  responses st = Responds r :: rest ->
  JSON_parse r = Unparsable why ->
  exists st',
    pollAttempt h attempt statusUrl apiKey runId st = (Ok None, st') /\
    responses st' = rest.
Proof.
  intros Hrs Hparse. unfold pollAttempt.
  rewrite (bind_ok _ _ st tt (add_event (Sleep pollInterval) st) eq_refl).
  match goal with
  | |- context [(toDebug h ?msg ≫= _) _] => run_logs (logs_only_toDebug h msg)
  end.
  destruct (fetch_responds "GET" statusUrl (("User-Agent", USER_AGENT) :: bearer apiKey) None
              st0 r rest) as (st3 & E3 & T3 & R3 & _).
  { rewrite R. exact Hrs. }
  rewrite (bind_ok _ _ _ _ _ E3), Hparse. cbv iota.
  eexists. split; [reflexivity|exact R3].
Qed.

(** C2 (what the code does at the failing input).  A 404 whose body is JSON
    ends the polling at once with the "not found" error; a 404 whose body is
    not JSON is skipped with a warning: the poller sleeps and asks again, so a
    job that later answers is returned after two requests, and a job that
    keeps answering 404 pages ends after 120 requests with the timeout error,
    never with "not found". *)
Theorem unparsable_not_found_is_retried :
  (exists st',
      pollAgentStatus Sample.host0 "https://agent.example" "key" (VStr "abc")
        (Sample.world [Responds Sample.not_found_json; Sample.ok_json Sample.completed] [])
      = (Throw (Error "Job abc not found (404)"), st') /\
      requests (trace st') = 1%nat) /\
  (exists st',
      pollAgentStatus Sample.host0 "https://agent.example" "key" (VStr "abc")
        (Sample.world [Responds Sample.not_found_page; Sample.ok_json Sample.completed] [])
      = (Ok Sample.completed, st') /\
      requests (trace st') = 2%nat) /\
  (exists st',
      pollAgentStatus Sample.host0 "https://agent.example" "key" (VStr "abc")
        (Sample.world (replicate 120 (Responds Sample.not_found_page)) [])
      = (Throw (Error "Job abc timed out after 10 minutes"), st') /\
      requests (trace st') = 120%nat).
Proof.
  repeat split; eexists; split; vm_compute; reflexivity.
Qed.

(** *** Edge-triggered status notifications *)




















(* ===================================================================== *)
(** ** Endpoint resolution and the entry point *)
(* ===================================================================== *)

Lemma trim_empty_input v : Str.nonempty v = false -> Str.trim v = "".
Proof. destruct v; [reflexivity|discriminate]. Qed.

Lemma getInput_optional h name st : getInput h name false st = (Ok (input h name), st).
Proof.
  unfold getInput, input.
  destruct (Str.nonempty (env h (formatInputKey name))) eqn:Hv; cbn [negb orb].
  - destruct (Str.nonempty (Str.trim (env h (formatInputKey name)))) eqn:Ht; cbn [negb].
    + reflexivity.
    + now destruct (Str.trim (env h (formatInputKey name))).
  - now rewrite (trim_empty_input _ Hv).
Qed.

Lemma getInput_required h name st :
  Str.nonempty (input h name) = true -> getInput h name true st = (Ok (input h name), st).
Proof.
  unfold getInput, input. intros Ht. rewrite Ht.
  destruct (Str.nonempty (env h (formatInputKey name))) eqn:Hv; [reflexivity|].
  rewrite (trim_empty_input _ Hv) in Ht. discriminate.
Qed.

Lemma find_is_first_kept {A} (f : A -> bool) (l : list A) :
  List.find f l = match List.filter f l with c :: _ => Some c | [] => None end.
Proof.
  induction l as [|x l IH]; [reflexivity|]. cbn. now destruct (f x).
Qed.

Lemma resolveAgentUrl_embedded h payload inputBaseUrl st c :
  embedded_endpoint payload = Some c ->
  resolveAgentUrl h payload inputBaseUrl st = (Ok c, st).
Proof.
  unfold embedded_endpoint, resolveAgentUrl.
  destruct (Js.truthy payload && Js.is_object payload)%bool; [|discriminate].
  rewrite find_is_first_kept.
  destruct (List.filter Js.truthy (map (Js.get payload) endpoint_aliases)); [discriminate|].
  now intros [= ->].
Qed.

Lemma resolveAgentUrl_nothing h payload st :
  embedded_endpoint payload = None ->
  env h "PIXELFRAME_BASE_URL" = "" ->
  resolveAgentUrl h payload "" st = (Ok VNull, st).
Proof.
  unfold embedded_endpoint, resolveAgentUrl. intros Hnone Hbase.
  assert (Hc : (if (Js.truthy payload && Js.is_object payload)%bool
                then List.filter Js.truthy (map (Js.get payload) endpoint_aliases)
                else []) = []).
  { destruct (Js.truthy payload && Js.is_object payload)%bool; [|reflexivity].
    rewrite find_is_first_kept in Hnone.
    now destruct (List.filter Js.truthy (map (Js.get payload) endpoint_aliases)). }
  rewrite Hc. cbn [Str.nonempty]. rewrite Hbase. reflexivity.
Qed.

Lemma embedded_endpoint_found payload alias :
  (Js.truthy payload && Js.is_object payload)%bool = true ->
  In alias endpoint_aliases ->
  Js.truthy (Js.get payload alias) = true ->
  exists c alias',
    embedded_endpoint payload = Some c /\
    In alias' endpoint_aliases /\ c = Js.get payload alias' /\ Js.truthy c = true.
Proof.
  intros Hobj Hin Ht. unfold embedded_endpoint. rewrite Hobj.
  destruct (List.find Js.truthy (map (Js.get payload) endpoint_aliases)) as [c|] eqn:Hf.
  - apply List.find_some in Hf as [Hc Htc].
    apply List.in_map_iff in Hc as (alias' & <- & Hin').
    now exists (Js.get payload alias'), alias'.
  - exfalso.
    pose proof (List.find_none _ _ Hf (Js.get payload alias) (List.in_map _ _ _ Hin)) as Hno.
    congruence.
Qed.

(** C7.  An endpoint embedded in the payload under any of the accepted alias
    fields is what resolution returns, whatever base URL the caller or the
    environment supplies; the value returned is the first truthy alias field.
    A payload without one, with no base URL from the input or the
    environment, resolves to [null], and the run then reports the failure and
    exits non-zero without a single HTTP request. *)
Theorem embedded_endpoint_wins (h : host) (payload : value) :
  (forall alias,
      (Js.truthy payload && Js.is_object payload)%bool = true ->
      In alias endpoint_aliases ->
      Js.truthy (Js.get payload alias) = true ->
      exists c alias',
        In alias' endpoint_aliases /\ c = Js.get payload alias' /\ Js.truthy c = true /\
        embedded_endpoint payload = Some c /\
        forall inputBaseUrl st, resolveAgentUrl h payload inputBaseUrl st = (Ok c, st)) /\
  (embedded_endpoint payload = None ->
   env h "PIXELFRAME_BASE_URL" = "" ->
   (forall st, resolveAgentUrl h payload "" st = (Ok VNull, st)) /\
   (Str.nonempty (input h "payload-file") = true ->
    read_payload h (Path.resolve (cwd h) (input h "payload-file")) = Payload payload ->
    input h "pixelframe-base-url" = "" ->
    forall st,
      run h st
      = (Ok tt, mkState (trace st ++ [Annotation Failure unresolved_endpoint_message; ExitCode 1])
                  (responses st) (exits st) (fs st) (lastLoggedStatus st)))).
Proof.
  split.
  - intros alias Hobj Hin Ht.
    destruct (embedded_endpoint_found payload alias Hobj Hin Ht) as (c & alias' & E & Hin' & Hc & Htc).
    exists c, alias'. repeat split; try assumption.
    intros inputBaseUrl st. now apply resolveAgentUrl_embedded.
  - intros Hnone Hbase. split.
    + intros st. now apply resolveAgentUrl_nothing.
    + intros Hfile Hread Hinput st. unfold run, try_catch, run_body.
      rewrite (bind_ok _ _ _ _ _ (getInput_required h "payload-file" st Hfile)).
      rewrite (bind_ok _ _ _ _ _ (getInput_optional h "token" st)).
      rewrite (bind_ok _ _ _ _ _ (getInput_optional h "merge-strategy" st)).
      rewrite (bind_ok _ _ _ _ _ (getInput_optional h "pixelframe-base-url" st)).
      unfold load_payload. rewrite Hread, Hinput.
      rewrite (bind_ok (mret payload) _ st payload st eq_refl).
      rewrite (bind_ok _ _ _ _ _ (resolveAgentUrl_nothing h payload st Hnone Hbase)).
      cbn. unfold setFailed, emit, add_event, mbind, M_bind. cbn.
      now rewrite <- app_assoc.
Qed.

Lemma logs_only_logPipelineStart : logs_only logPipelineStart.
Proof.
  unfold logPipelineStart.
  repeat first [apply logs_only_logAgentStatus | apply logs_only_toNotice | logs_only_step].
Qed.

Lemma logs_only_logPipelineComplete number url : logs_only (logPipelineComplete number url).
Proof.
  unfold logPipelineComplete.
  repeat first [apply logs_only_toNotice | logs_only_step].
Qed.

Lemma log_is_log_or_request tr :
  Forall (fun e => is_log e = true) tr -> Forall (fun e => is_log_or_request e = true) tr.
Proof.
  intros Hlog. eapply Forall_impl; [exact Hlog|].
  intros e He. unfold is_log_or_request. now rewrite He.
Qed.

(** The invoker on a successful response without a body: nothing is parsed,
    nothing is polled, and [undefined] is returned after the one request. *)
Lemma callAgent_empty_body h agentUrl apiKey payload context metadata st r rest :
  responses st = Responds r :: rest ->
  response_ok r = true ->
  response_text r = "" ->
  exists st' tr,
    callAgent h agentUrl apiKey payload context metadata st = (Ok VUndef, st') /\
    trace st' = trace st ++ tr /\
    responses st' = rest /\
    exits st' = exits st /\
    fs st' = fs st /\
    Forall (fun e => is_log_or_request e = true) tr /\
    requests tr = 1%nat.
Proof.
  intros Hrs Hok Htext. unfold callAgent. cbv zeta.
  match goal with
  | |- context [(toDebug h ?msg ≫= _) _] => run_logs (logs_only_toDebug h msg)
  end.
  match goal with
  | |- context [(fetch ?m ?u ?hd ?b ≫= _) _] =>
      destruct (fetch_responds m u hd b st0 r rest) as (st3 & E3 & T3 & R3 & X3 & F3 & _);
      [rewrite R; exact Hrs|]
  end.
  rewrite (bind_ok _ _ _ _ _ E3), Htext. cbn [Str.nonempty].
  rewrite (bind_ok (mret VUndef) _ st3 VUndef st3 eq_refl), Hok.
  cbn [negb Js.truthy andb].
  eexists _, _. split; [reflexivity|]. split; [chain_traces|].
  split; [assumption|]. split; [congruence|]. split; [congruence|]. split.
  - apply Forall_app. split; [now apply log_is_log_or_request|]. now repeat constructor.
  - count_requests.
Qed.

(** C9.  When the agent answers the invocation with a 2xx response and an
    empty body, the invoker returns [undefined], and the run then completes:
    it writes console lines and the one HTTP request only, so none of the
    four outputs is published, no failure is reported, no command is spawned
    and no file is touched. *)
Theorem empty_agent_response_completes (h : host) (st : state) (payload agentUrl : value)
    (r : response) (rest : list fetch_outcome) :
  Str.nonempty (input h "payload-file") = true ->
  read_payload h (Path.resolve (cwd h) (input h "payload-file")) = Payload payload ->
  resolveAgentUrl h payload (input h "pixelframe-base-url") st = (Ok agentUrl, st) ->
  Js.truthy agentUrl = true ->
  responses st = Responds r :: rest ->
  response_ok r = true ->
  response_text r = "" ->
  (forall apiKey context metadata,
      (callAgent h agentUrl apiKey payload context metadata st).1 = Ok VUndef) /\
  exists st' tr,
    run h st = (Ok tt, st') /\
    trace st' = trace st ++ tr /\
    responses st' = rest /\
    exits st' = exits st /\
    fs st' = fs st /\
    Forall (fun e => is_log_or_request e = true) tr /\
    requests tr = 1%nat.
Proof.
  intros Hfile Hread Hurl Htruthy Hrs Hok Htext. split.
  { intros apiKey context metadata.
    destruct (callAgent_empty_body h agentUrl apiKey payload context metadata st r rest
                Hrs Hok Htext) as (st' & tr & E & _).
    now rewrite E. }
  unfold run, try_catch, run_body.
  rewrite (bind_ok _ _ _ _ _ (getInput_required h "payload-file" st Hfile)).
  rewrite (bind_ok _ _ _ _ _ (getInput_optional h "token" st)).
  rewrite (bind_ok _ _ _ _ _ (getInput_optional h "merge-strategy" st)).
  rewrite (bind_ok _ _ _ _ _ (getInput_optional h "pixelframe-base-url" st)).
  unfold load_payload. rewrite Hread.
  rewrite (bind_ok (mret payload) _ st payload st eq_refl).
  rewrite (bind_ok _ _ _ _ _ Hurl), Htruthy. cbn [negb]. cbv zeta.
  match goal with
  | |- context [(?m ≫= _) st] =>
      assert (Hwarn : logs_only m)
        by (repeat first [apply logs_only_toWarning | logs_only_step]);
      run_logs Hwarn
  end.
  run_logs logs_only_logPipelineStart.
  match goal with
  | |- context [(callAgent h agentUrl ?k payload ?c ?m ≫= _) ?s] =>
      destruct (callAgent_empty_body h agentUrl k payload c m s r rest)
        as (st3 & tr3 & E3 & T3 & R3 & X3 & F3 & A3 & N3); [congruence|assumption|assumption|]
  end.
  rewrite (bind_ok _ _ _ _ _ E3). cbn [Js.truthy andb Js.get_opt Js.or].
  rewrite (bind_ok (mret tt) _ st3 tt st3 eq_refl).
  unfold maybeApplyRepositoryPlan at 1. cbn [Js.truthy negb orb].
  rewrite (bind_ok (mret no_pull_request) _ st3 no_pull_request st3 eq_refl).
  cbn [prNumber prUrl no_pull_request Js.truthy].
  rewrite (bind_ok (mret tt) _ st3 tt st3 eq_refl).
  rewrite (bind_ok (mret tt) _ st3 tt st3 eq_refl).
  destruct (logs_only_logPipelineComplete VNull VNull st3)
    as ([] & st4 & tr4 & E4 & T4 & R4 & X4 & F4 & A4).
  rewrite E4.
  exists st4, (tr ++ tr0 ++ tr3 ++ tr4).
  split; [reflexivity|]. split; [|split; [congruence|split; [congruence|split; [congruence|split]]]].
  - rewrite T4, T3, T0, T. now rewrite <- !app_assoc.
  - repeat (apply Forall_app; split); try assumption; now apply log_is_log_or_request.
  - rewrite !requests_app, N3, !requests_annotations by assumption. reflexivity.
Qed.

(* ===================================================================== *)
(** ** The Repository Driver and the Pull Request Manager *)
(* ===================================================================== *)

Lemma bind_assoc {A B C} (m : M A) (f : A -> M B) (g : B -> M C) st :
  ((m ≫= f) ≫= g) st = (m ≫= (fun x => f x ≫= g)) st.
Proof. unfold mbind, M_bind. now destruct (m st) as [[a|e] st1]. Qed.

Lemma bind_ext {A B} (m : M A) (k1 k2 : A -> M B) st :
  (forall a st', k1 a st' = k2 a st') -> (m ≫= k1) st = (m ≫= k2) st.
Proof. intros Hk. unfold mbind, M_bind. destruct (m st) as [[a|e] st1]; [apply Hk|reflexivity]. Qed.

(** [maybeApplyRepositoryPlan] is the pull request stage followed by the
    merge step and the [return] of lines 695-700. *)
Lemma maybeApplyRepositoryPlan_stages h plan token mergeStrategy st :
  maybeApplyRepositoryPlan h plan token mergeStrategy st
  = (reached ← pullRequestStage h plan token;
     match reached with
     | None => mret no_pull_request
     | Some (repository, number) =>
         (if merge_requested plan then
            maybeMergePullRequest repository number (effective_strategy plan mergeStrategy) token
          else mret tt) ;;
         mret (mkResult number
                 (match repository with
                  | Some r => if Js.truthy number then VStr (pull_request_url r number) else VNull
                  | None => VNull
                  end))
     end) st.
Proof.
  unfold maybeApplyRepositoryPlan, pullRequestStage, merge_requested, effective_strategy.
  destruct (negb (Js.truthy plan) || negb (Js.is_object plan))%bool; [reflexivity|].
  rewrite bind_assoc. apply bind_ext. intros repository st1.
  rewrite bind_assoc. apply bind_ext. intros _ st2. cbv zeta.
  destruct (negb (Js.truthy _)).
  { rewrite bind_assoc. apply bind_ext. reflexivity. }
  destruct (negb (Str.nonempty token)).
  { rewrite bind_assoc. apply bind_ext. reflexivity. }
  rewrite bind_assoc. apply bind_ext. intros _ st3.
  rewrite bind_assoc. apply bind_ext. intros _ st4.
  rewrite bind_assoc. apply bind_ext. intros _ st5.
  rewrite bind_assoc. apply bind_ext. intros committed st6.
  destruct (negb committed).
  { rewrite bind_assoc. apply bind_ext. reflexivity. }
  rewrite bind_assoc. apply bind_ext. intros _ st7.
  rewrite bind_assoc. apply bind_ext. intros number st8.
  rewrite bind_assoc. apply bind_ext. intros _ st9.
  reflexivity.
Qed.


(** *** No staged changes, no publication *)

Lemma runCommand_cases command args st :
  (exists st1,
      runCommand command args st = (Ok tt, st1) /\
      trace st1 = trace st ++ [Spawn command args (Closed (Some 0))]) \/
  (exists e st1 o,
      runCommand command args st = (Throw e, st1) /\
      trace st1 = trace st ++ [Spawn command args o] /\
      o <> Closed (Some 0)).
Proof.
  unfold runCommand. destruct (exits st) as [|o rest].
  - right. eexists _, _, _. repeat split. discriminate.
  - destruct o as [why|[[|p|p]|]];
      [right|left|right|right|right];
      try (eexists; split; reflexivity);
      eexists _, _, _; repeat split; discriminate.
Qed.

(** The events of the steps before staging: neither the clean staging check
    nor anything that publishes. *)
Ltac before_staging := cbv beta; split; [discriminate|reflexivity].

Lemma emits_applyFileOperations h P plan :
  (forall l m, P (Annotation l m)) ->
  (forall p, P (Mkdir p)) -> (forall p c, P (WriteFile p c)) -> (forall p, P (Rm p)) ->
  emits P (applyFileOperations h plan).
Proof.
  intros Ha Hm Hw Hr.
  unfold applyFileOperations, writeFileChange, removeFile, resolve_in_cwd, toNotice, toDebug.
  repeat emits_step; auto.
Qed.

Lemma emits_githubRequest P token method url body :
  (forall l m, P (Annotation l m)) ->
  (forall m u hd b, P (HttpRequest m u hd b)) ->
  emits P (githubRequest token method url body).
Proof.
  intros Ha Hr. unfold githubRequest, toWarning. repeat emits_step; auto.
Qed.

Lemma emits_maybeMergePullRequest P repository number strategy token :
  (forall l m, P (Annotation l m)) ->
  (forall m u hd b, P (HttpRequest m u hd b)) ->
  emits P (maybeMergePullRequest repository number strategy token).
Proof.
  intros Ha Hr. unfold maybeMergePullRequest, toWarning, toNotice.
  repeat first [apply emits_githubRequest; assumption | emits_step]; auto.
Qed.


Lemma prefers_ret : prefers_no_diff (mret no_pull_request).
Proof. intros st. exists []. rewrite app_nil_r. split; [reflexivity|]. intros []. Qed.

Lemma prefers_bind {A} (m : M A) (k : A -> M pr_result) :
  emits (fun e => e <> clean_diff /\ publishes e = false) m ->
  (forall a, prefers_no_diff (k a)) ->
  prefers_no_diff (m ≫= k).
Proof.
  intros Hm Hk st. destruct (Hm st) as (tr1 & T1 & H1).
  unfold mbind, M_bind. destruct (m st) as [[a|e] st1] eqn:E; cbn [snd] in T1.
  - destruct (Hk a st1) as (tr2 & T2 & H2). exists (tr1 ++ tr2).
    split; [now rewrite T2, T1, app_assoc|].
    intros Hin. apply in_app_or in Hin as [Hin|Hin].
    + exfalso. rewrite List.Forall_forall in H1. now apply (H1 _ Hin).
    + destruct (H2 Hin) as [Hres Hquiet]. split; [exact Hres|].
      apply Forall_app. split; [|exact Hquiet].
      eapply Forall_impl; [exact H1|]. now intros e0 [_ He0].
  - exists tr1. split; [exact T1|]. intros Hin. exfalso.
    rewrite List.Forall_forall in H1. now apply (H1 _ Hin).
Qed.

Lemma prefers_stageAndCommit message (k : bool -> M pr_result) :
  k false = (toNotice "No changes detected after applying agent plan." ;; mret no_pull_request) ->
  emits (fun e => e <> clean_diff) (k true) ->
  prefers_no_diff (stageAndCommit message ≫= k).
Proof.
  intros Hf Ht st. unfold stageAndCommit. rewrite bind_assoc.
  destruct (runCommand_cases "git" ["add"; "--all"] st)
    as [(st1 & E1 & T1)|(e & st1 & o & E1 & T1 & Ho)].
  2:{ rewrite (bind_throw _ _ _ _ _ E1). eexists. split; [exact T1|].
      intros [Heq|[]]. discriminate Heq. }
  rewrite (bind_ok _ _ _ _ _ E1).
  destruct (runCommand_cases "git" ["diff"; "--cached"; "--quiet"] st1)
    as [(st2 & E2 & T2)|(e & st2 & o & E2 & T2 & Ho)].
  - assert (Htc : forall handler,
               try_catch
                 (runCommand "git" ["diff"; "--cached"; "--quiet"] ;;
                  toNotice "No staged changes detected; skipping commit." ;; mret false)
                 handler st1
               = (Ok false,
                  add_event (Annotation Notice "No staged changes detected; skipping commit.") st2)).
    { intros handler. unfold try_catch. now rewrite (bind_ok _ _ _ _ _ E2). }
    rewrite (bind_ok _ _ _ _ _ (Htc _)), Hf.
    eexists. split.
    + unfold toNotice, emit, mbind, M_bind, mret, M_ret, add_event. cbn [snd trace].
      rewrite T2, T1, <- !app_assoc. reflexivity.
    + intros _. split; [reflexivity|]. repeat constructor.
  - assert (Hk : forall committed, emits (fun e => e <> clean_diff) (k committed)).
    { intros [|]; [exact Ht|]. rewrite Hf. unfold toNotice. repeat emits_step. discriminate. }
    assert (Hrest : emits (fun e => e <> clean_diff)
                      ((runCommand "git" ["commit"; "-m"; Js.to_text message] ;; mret true) ≫= k)).
    { repeat emits_step; try apply Hk. discriminate. }
    destruct (Hrest st2) as (tr3 & T3 & H3).
    assert (Htc : forall (body' : M bool) handler,
               body' st1 = (Throw e, st2) ->
               (try_catch body' handler ≫= k) st1 = (handler e ≫= k) st2).
    { intros body' handler Hb. unfold mbind, M_bind, try_catch. now rewrite Hb. }
    rewrite (Htc _ _ (bind_throw _ _ _ _ _ E2)).
    exists ([Spawn "git" ["add"; "--all"] (Closed (Some 0))]
              ++ [Spawn "git" ["diff"; "--cached"; "--quiet"] o] ++ tr3).
    split; [rewrite T3, T2, T1, <- !app_assoc; reflexivity|].
    intros [Heq|[Heq|Hin]]; exfalso.
    + discriminate Heq.
    + apply Ho. unfold clean_diff in Heq. congruence.
    + rewrite List.Forall_forall in H3. now apply (H3 _ Hin).
Qed.

Lemma prefers_maybeApplyRepositoryPlan h plan token mergeStrategy :
  prefers_no_diff (maybeApplyRepositoryPlan h plan token mergeStrategy).
Proof.
  unfold maybeApplyRepositoryPlan.
  destruct (negb (Js.truthy plan) || negb (Js.is_object plan))%bool; [apply prefers_ret|].
  apply prefers_bind; [unfold parseRepository; repeat emits_step|intros repository].
  apply prefers_bind; [unfold toWarning; repeat emits_step; before_staging|intros _].
  cbv zeta.
  destruct (negb (Js.truthy _)).
  { apply prefers_bind; [unfold toNotice; repeat emits_step; before_staging|intros _].
    apply prefers_ret. }
  destruct (negb (Str.nonempty token)).
  { apply prefers_bind; [unfold toWarning; repeat emits_step; before_staging|intros _].
    apply prefers_ret. }
  apply prefers_bind;
    [unfold ensureGitUserConfigured; repeat emits_step; before_staging|intros _].
  apply prefers_bind; [unfold prepareBranch; repeat emits_step; before_staging|intros _].
  apply prefers_bind; [apply emits_applyFileOperations; intros; before_staging|intros _].
  apply prefers_stageAndCommit; [reflexivity|].
  cbn [negb].
  unfold pushBranch, createOrUpdatePullRequest, requestReviewsIfNeeded, toNotice, toWarning.
  repeat first
    [ apply emits_githubRequest; intros; discriminate
    | apply emits_maybeMergePullRequest; intros; discriminate
    | emits_step ];
    cbv beta;
    repeat match goal with |- context [if ?c then _ else _] => destruct c end;
    discriminate.
Qed.

(** C5.  When the staging check [git diff --cached --quiet] exits cleanly
    (nothing is staged), applying the plan reports no pull request, number
    and URL both [null], and among all its events there is no commit, no push
    and no HTTP request. *)
Theorem nothing_staged_nothing_published (h : host) (plan : value)
    (token mergeStrategy : string) (st : state) :
  In clean_diff (effects (maybeApplyRepositoryPlan h plan token mergeStrategy) st) ->
  (maybeApplyRepositoryPlan h plan token mergeStrategy st).1 = Ok (mkResult VNull VNull) /\
  Forall (fun e => publishes e = false)
    (effects (maybeApplyRepositoryPlan h plan token mergeStrategy) st).
Proof.
  intros Hin.
  destruct (prefers_maybeApplyRepositoryPlan h plan token mergeStrategy st) as (tr & T & Htr).
  rewrite (effects_of_trace _ _ _ T) in *. now apply Htr.
Qed.

(** *** An unsupported merge strategy *)

Lemma post_ret {A} (Q : A -> Prop) a : Q a -> post Q (mret a).
Proof. intros Ha st b st' [= <- _]. exact Ha. Qed.

Lemma post_bind_with {A B} (Q1 : A -> Prop) (Q : B -> Prop) (m : M A) (k : A -> M B) :
  post Q1 m -> (forall a, Q1 a -> post Q (k a)) -> post Q (m ≫= k).
Proof.
  intros Hm Hk st b st'. unfold mbind, M_bind.
  destruct (m st) as [[a|e] st1] eqn:E; [|discriminate].
  intros Hb. exact (Hk a (Hm _ _ _ E) _ _ _ Hb).
Qed.

Lemma post_bind {A B} (Q : B -> Prop) (m : M A) (k : A -> M B) :
  (forall a, post Q (k a)) -> post Q (m ≫= k).
Proof.
  intros Hk. apply (post_bind_with (fun _ => True)); [now intros ? ? ? _|].
  intros a _. apply Hk.
Qed.

(** A pull request number can only be known for a known repository. *)
Lemma post_createOrUpdatePullRequest repository branchName baseBranch prSpec token :
  post (fun number => Js.truthy number = true -> exists r, repository = Some r)
    (createOrUpdatePullRequest repository branchName baseBranch prSpec token).
Proof.
  unfold createOrUpdatePullRequest. destruct repository as [r|].
  - intros st number st' _ _. now exists r.
  - apply post_ret. discriminate.
Qed.

Lemma pullRequestStage_known h plan token :
  post (fun reached =>
          match reached with
          | Some (repository, number) =>
              Js.truthy number = true ->
              (exists r, repository = Some r) /\ Str.nonempty token = true
          | None => True
          end)
    (pullRequestStage h plan token).
Proof.
  unfold pullRequestStage.
  destruct (negb (Js.truthy plan) || negb (Js.is_object plan))%bool; [now apply post_ret|].
  apply post_bind. intros repository. apply post_bind. intros _. cbv zeta.
  destruct (negb (Js.truthy _)); [apply post_bind; intros _; now apply post_ret|].
  destruct (Str.nonempty token) eqn:Htoken; cbn [negb];
    [|apply post_bind; intros _; now apply post_ret].
  do 3 (apply post_bind; intros _). apply post_bind. intros committed.
  destruct (negb committed); [apply post_bind; intros _; now apply post_ret|].
  apply post_bind. intros _.
  eapply post_bind_with; [apply post_createOrUpdatePullRequest|].
  intros number Hnumber. apply post_bind. intros _. apply post_ret.
  intros Htruthy. split; [now apply Hnumber|reflexivity].
Qed.


Lemma appendFile_inv (f f' : gmap path node) (p : path) (text : string) :
  Fs.appendFile f p text = Ok f' -> exists c, f' = <[p := File c]> f.
Proof.
  unfold Fs.appendFile.
  destruct (Fs.lookup f p) as [[|c]|]; try discriminate;
    destruct (Fs.lookup f (Path.dirname p)) as [[|d]|]; try discriminate;
    intros [= <-]; eauto.
Qed.

(** [appendOutputLine] never raises: the call is recorded, an append that
    fails adds one warning, and no file but the output file changes. *)
Lemma appendOutputLine_spec h name v st :
  exists st' tr,
    appendOutputLine h name v st = (Ok tt, st') /\
    trace st' = trace st ++ OutputLine (env h "GITHUB_OUTPUT") name v :: tr /\
    Forall (fun e => is_log e = true) tr /\
    responses st' = responses st /\
    exits st' = exits st /\
    (forall p, p <> Path.resolve (cwd h) (env h "GITHUB_OUTPUT") ->
               fs st' !! p = fs st !! p) /\
    (env h "GITHUB_OUTPUT" = "" -> tr = [] /\ fs st' = fs st).
Proof.
  unfold appendOutputLine. cbv zeta.
  destruct (Str.nonempty (env h "GITHUB_OUTPUT")) eqn:Hd.
  - assert (Hne : env h "GITHUB_OUTPUT" <> "") by (intros E0; rewrite E0 in Hd; discriminate).
    unfold try_catch, fs_step.
    destruct (Fs.appendFile (fs st) (Path.resolve (cwd h) (env h "GITHUB_OUTPUT"))
                (output_line h name v +:+ Str.LF)) as [f|e] eqn:E.
    + eexists _, []. split; [reflexivity|].
      split; [reflexivity|]. split; [constructor|]. split; [reflexivity|].
      split; [reflexivity|]. split; [|intros E0; contradiction].
      intros p Hp. apply appendFile_inv in E as [c ->]. cbn [fs set_fs].
      now apply lookup_insert_ne.
    + eexists _, [_]. split; [reflexivity|]. cbn [trace add_event].
      split; [now rewrite <- app_assoc|]. split; [now repeat constructor|].
      split; [reflexivity|]. split; [reflexivity|]. split; [reflexivity|].
      intros E0; contradiction.
  - eexists _, []. split; [reflexivity|]. now repeat split.
Qed.



(* ===================================================================== *)
(** ** The theorems at concrete inputs *)
(* ===================================================================== *)


Lemma embedded_endpoint_wins_witness :
  resolveAgentUrl Sample.host0
    (VObj [("endpoint", VStr "https://late"); ("url", VStr "https://early")])
    "https://base.example" (Sample.world [] [])
  = (Ok (VStr "https://early"), Sample.world [] []) /\
  run (Sample.host_with Sample.vars (VObj [("task", VStr "t")])) (Sample.world [] [])
  = (Ok tt, mkState [Annotation Failure unresolved_endpoint_message; ExitCode 1] [] [] ∅ ∅).
Proof.
  split.
  - destruct (proj1 (embedded_endpoint_wins Sample.host0
                       (VObj [("endpoint", VStr "https://late"); ("url", VStr "https://early")]))
                "endpoint" eq_refl ltac:(vm_compute; tauto) eq_refl)
      as (c & alias' & _ & _ & _ & E & R).
    vm_compute in E. injection E as <-. apply R.
  - apply (proj2 (proj2 (embedded_endpoint_wins
                           (Sample.host_with Sample.vars (VObj [("task", VStr "t")]))
                           (VObj [("task", VStr "t")])) eq_refl eq_refl));
      reflexivity.
Defined.

Lemma empty_agent_response_completes_witness :
  (forall apiKey context metadata,
      (callAgent Sample.host0 (VStr "https://x/agent/run") apiKey
         (VObj [("agentUrl", VStr "https://x/agent/run")]) context metadata
         (Sample.world [Responds Sample.no_content] [])).1 = Ok VUndef) /\
  exists st' tr,
    run Sample.host0 (Sample.world [Responds Sample.no_content] []) = (Ok tt, st') /\
    trace st' = [] ++ tr /\
    responses st' = [] /\
    exits st' = [] /\
    fs st' = ∅ /\
    Forall (fun e => is_log_or_request e = true) tr /\
    requests tr = 1%nat.
Proof.
  apply (empty_agent_response_completes Sample.host0
           (Sample.world [Responds Sample.no_content] [])
           (VObj [("agentUrl", VStr "https://x/agent/run")]) (VStr "https://x/agent/run")
           Sample.no_content []);
    reflexivity.
Defined.

Lemma nothing_staged_nothing_published_witness :
  (maybeApplyRepositoryPlan Sample.host0 Sample.plan_b1 "ghs_token" ""
     (Sample.world [] (replicate 8 Sample.clean))).1 = Ok (mkResult VNull VNull) /\
  Forall (fun e => publishes e = false)
    (effects (maybeApplyRepositoryPlan Sample.host0 Sample.plan_b1 "ghs_token" "")
       (Sample.world [] (replicate 8 Sample.clean))).
Proof.
  apply (nothing_staged_nothing_published Sample.host0 Sample.plan_b1 "ghs_token" ""
           (Sample.world [] (replicate 8 Sample.clean))).
  vm_compute. repeat (try (left; reflexivity); right).
Defined.


(* ===================================================================== *)
(** ** Further properties of the code *)
(* ===================================================================== *)

(** *** Characters, code units and inputs *)

(** [Str.chars] cuts a string into characters without losing a byte, and
    it cuts what [Str.trim] and [Str.slice0] return the way they put it
    together. *)

Lemma append_cons c s t : String c s +:+ t = String c (s +:+ t).
Proof. reflexivity. Qed.

Lemma append_start t : "" +:+ t = t.
Proof. reflexivity. Qed.

Lemma append_empty s : s +:+ "" = s.
Proof. induction s as [|c s IH]; [reflexivity|]. now rewrite append_cons, IH. Qed.

Lemma size_cases a : Str.size a = 1%nat \/ Str.size a = 2%nat \/ Str.size a = 3%nat \/ Str.size a = 4%nat.
Proof. unfold Str.size. repeat destruct (_ <? _)%N; auto. Qed.

Lemma chars_whole x t : whole x -> Str.chars (x +:+ t) = x :: Str.chars t.
Proof.
  intros (a & r & -> & Hlen). cbn [String.length] in Hlen.
  destruct (size_cases a) as [E|[E|[E|E]]]; rewrite E in Hlen;
    repeat (destruct r as [|? r]; try discriminate Hlen);
    rewrite ?append_cons, append_start; cbn [Str.chars]; now rewrite E.
Qed.

Lemma chars_alone x : whole x -> Str.chars x = [x].
Proof. intros H. rewrite <- (append_empty x) at 1. now rewrite chars_whole. Qed.

Lemma chunked_cons x l : whole x -> chunked l -> chunked (x :: l).
Proof. intros Hx Hl. destruct l; cbn; [now apply chars_alone|now split]. Qed.

Lemma chars_unfold s :
  s = "" \/
  (exists x s', s = x +:+ s' /\ Str.chars s = x :: Str.chars s' /\ whole x
                /\ (String.length s' < String.length s)%nat) \/
  Str.chars s = [s].
Proof.
  destruct s as [|a r]; [now left|]. right.
  destruct (size_cases a) as [E|[E|[E|E]]]; cbn [Str.chars]; rewrite E.
  - left. exists (String a ""), r. repeat split; cbn; eauto. exists a, "". now rewrite E.
  - destruct r as [|b r]; [now right|]. left.
    exists (String a (String b "")), r. repeat split; cbn; try lia.
    exists a, (String b ""). now rewrite E.
  - destruct r as [|b [|c r]]; [now right|now right|]. left.
    exists (String a (String b (String c ""))), r. repeat split; cbn; try lia.
    exists a, (String b (String c "")). now rewrite E.
  - destruct r as [|b [|c [|d r]]]; [now right|now right|now right|]. left.
    exists (String a (String b (String c (String d "")))), r. repeat split; cbn; try lia.
    exists a, (String b (String c (String d ""))). now rewrite E.
Qed.

Lemma chars_sound_bounded n : forall s, (String.length s <= n)%nat ->
  chunked (Str.chars s) /\ Str.glue (Str.chars s) = s.
Proof.
  induction n as [|n IH]; intros s Hn.
  - destruct s; [now split|cbn in Hn; lia].
  - destruct (chars_unfold s) as [->|[(x & s' & -> & E & Hx & Hlt)|E]].
    + now split.
    + rewrite E. destruct (IH s') as [Hc Hg]; [lia|]. split.
      * now apply chunked_cons.
      * cbn. now rewrite Hg.
    + rewrite E. split; [exact E|]. cbn. apply append_empty.
Qed.

Lemma chunked_chars s : chunked (Str.chars s).
Proof. exact (proj1 (chars_sound_bounded _ s (le_n _))). Qed.

Lemma glue_chars s : Str.glue (Str.chars s) = s.
Proof. exact (proj2 (chars_sound_bounded _ s (le_n _))). Qed.

Lemma chars_glue l : chunked l -> Str.chars (Str.glue l) = l.
Proof.
  induction l as [|x [|y r] IH]; [reflexivity| |].
  - cbn. intros E. now rewrite append_empty.
  - intros [Hx Hr]. change (Str.glue (x :: y :: r)) with (x +:+ Str.glue (y :: r)).
    rewrite chars_whole by assumption. now rewrite IH.
Qed.

Lemma chunked_suffix l1 l2 : chunked (l1 ++ l2) -> chunked l2.
Proof.
  induction l1 as [|x l1 IH]; [auto|]. cbn [app chunked].
  destruct (l1 ++ l2) eqn:E.
  - intros _. apply app_eq_nil in E as [_ ->]. exact I.
  - intros [_ H]. now apply IH.
Qed.

Lemma chunked_prefix l1 l2 : chunked (l1 ++ l2) -> chunked l1.
Proof.
  induction l1 as [|x l1 IH]; [intros; exact I|]. cbn [app chunked].
  destruct (l1 ++ l2) eqn:E.
  - apply app_eq_nil in E as [-> _]. auto.
  - intros [Hx H]. apply chunked_cons; auto.
Qed.

Lemma drop_white_suffix l : exists k, l = k ++ Str.drop_white l.
Proof.
  induction l as [|x l [k IH]]; [now exists []|]. cbn.
  destruct (Str.is_white x); [|now exists []].
  exists (x :: k). cbn. now rewrite <- IH.
Qed.

Lemma drop_white_head l x r : Str.drop_white l = x :: r -> Str.is_white x = false.
Proof.
  induction l as [|y l IH]; [discriminate|]. cbn.
  destruct (Str.is_white y) eqn:E; [exact IH|]. now intros [= <- _].
Qed.

Lemma drop_white_idempotent l : Str.drop_white (Str.drop_white l) = Str.drop_white l.
Proof.
  destruct (Str.drop_white l) as [|x r] eqn:E; [reflexivity|].
  cbn. now rewrite (drop_white_head _ _ _ E).
Qed.

Lemma kept_prefix l : exists k, Str.drop_white l = kept l ++ k.
Proof.
  unfold kept. destruct (drop_white_suffix (rev (Str.drop_white l))) as [k E].
  exists (rev k). rewrite <- rev_app_distr, <- E. now rewrite rev_involutive.
Qed.

Lemma kept_idempotent l : kept (kept l) = kept l.
Proof.
  destruct (kept_prefix l) as [k E].
  assert (H : Str.drop_white (kept l) = kept l).
  { destruct (kept l) as [|x m] eqn:Em; [reflexivity|].
    cbn. now rewrite (drop_white_head _ _ _ E). }
  unfold kept at 1. rewrite H. unfold kept.
  now rewrite rev_involutive, drop_white_idempotent.
Qed.

Lemma chunked_kept l : chunked l -> chunked (kept l).
Proof.
  intros H. destruct (drop_white_suffix l) as [k1 E1]. destruct (kept_prefix l) as [k2 E2].
  rewrite E1, E2 in H. now apply chunked_suffix, chunked_prefix in H.
Qed.

Lemma trim_idempotent s : Str.trim (Str.trim s) = Str.trim s.
Proof.
  unfold Str.trim. fold (kept (Str.chars s)).
  rewrite chars_glue by apply chunked_kept, chunked_chars.
  fold (kept (kept (Str.chars s))). now rewrite kept_idempotent.
Qed.

Lemma code_bounded c : (Str.code c < 256)%N.
Proof. apply N_ascii_bounded. Qed.

Lemma units_high_surrogate x : Str.units (Str.high_surrogate x) = 1%nat.
Proof.
  unfold Str.units, Str.high_surrogate. cbv zeta. cbn [Str.point].
  match goal with |- context [ascii_of_N ?n] => generalize (ascii_of_N n); intros b end.
  match goal with |- context [ascii_of_N ?n] => generalize (ascii_of_N n); intros c end.
  change (Str.code "237") with 237%N.
  destruct (_ && _ && _)%bool; [|reflexivity].
  destruct (_ <=? _)%N eqn:E; [|reflexivity]. apply N.leb_le in E.
  pose proof (code_bounded b). pose proof (code_bounded c). lia.
Qed.

Lemma units_cases x : Str.units x = 1%nat \/ Str.units x = 2%nat.
Proof. unfold Str.units. destruct (_ <=? _)%N; auto. Qed.

Lemma chunked_take_units l : forall n, chunked l -> chunked (Str.take_units n l).
Proof.
  induction l as [|x r IH]; intros [|n] H; try exact I.
  cbn [Str.take_units].
  assert (Hrest : forall k, chunked (x :: Str.take_units k r)).
  { intros k. destruct r as [|y r]; [destruct k; exact H|].
    destruct H as [Hx Hr]. apply chunked_cons; auto. }
  destruct (units_cases x) as [E|E]; rewrite E; [apply Hrest|].
  destruct n; [reflexivity|apply Hrest].
Qed.

Lemma take_units_bound l : forall n, (list_sum (map Str.units (Str.take_units n l)) <= n)%nat.
Proof.
  induction l as [|x r IH]; intros [|n]; cbn [Str.take_units]; try (simpl; lia).
  pose proof (IH n) as IHn.
  destruct (units_cases x) as [E|E]; rewrite E.
  - simpl. rewrite E. lia.
  - destruct n as [|n'].
    + simpl. rewrite units_high_surrogate. lia.
    + simpl. rewrite E. specialize (IH n'). lia.
Qed.

(** [s.slice(0, n)] has at most [n] code units. *)
Lemma slice0_length n s : (Str.length (Str.slice0 n s) <= n)%nat.
Proof.
  unfold Str.length, Str.slice0.
  rewrite chars_glue by apply chunked_take_units, chunked_chars.
  apply take_units_bound.
Qed.

Lemma take_units_all l : forall n,
  (list_sum (map Str.units l) <= n)%nat -> Str.take_units n l = l.
Proof.
  induction l as [|x r IH]; intros [|n] H; try reflexivity.
  - simpl in H. destruct (units_cases x) as [E|E]; rewrite E in H; lia.
  - simpl in H. cbn [Str.take_units].
    destruct (units_cases x) as [E|E]; rewrite E in *.
    + rewrite IH by lia. reflexivity.
    + destruct n as [|n']; [lia|]. rewrite IH by lia. reflexivity.
Qed.

(** A string of at most [n] code units is its own slice. *)
Lemma slice0_short n s : (Str.length s <= n)%nat -> Str.slice0 n s = s.
Proof.
  unfold Str.length, Str.slice0. intros H. rewrite take_units_all by exact H.
  apply glue_chars.
Qed.

(** No-break space and ideographic space are trimmed like the ASCII ones. *)
Example trim_unicode_space :
  Str.trim (String "194" (String "160" (" a b " +:+ String "227" (String "128" (String "128" "")))))
  = "a b".
Proof. reflexivity. Qed.

(** Six hundred times [é] are 1200 bytes and 600 code units; the first 500
    code units are 500 times [é]. *)
Example slice0_counts_code_units :
  Str.slice0 500 (Str.glue (replicate 600 "é")) = Str.glue (replicate 500 "é").
Proof. vm_compute. reflexivity. Qed.

(** Cutting after the first code unit of U+1F504 leaves the surrogate
    U+D83D. *)
Example slice0_splits_pair :
  Str.slice0 2 "a🔄" = "a" +:+ String "237" (String "160" (String "189" "")).
Proof. reflexivity. Qed.

(** What an error message quotes of a body. *)
Lemma quoted_body n (body : string) :
  (16 <= n)%nat ->
  exists snippet,
    (if Str.nonempty body then Str.slice0 n body else "No response body") = snippet /\
    (Str.length snippet <= n)%nat /\
    (body = "" -> snippet = "No response body") /\
    (body <> "" -> (Str.length body <= n)%nat -> snippet = body).
Proof.
  intros Hn. eexists. split; [reflexivity|]. destruct body as [|c body].
  - cbn [Str.nonempty]. split; [exact Hn|]. split; [reflexivity|].
    intros H. now contradiction H.
  - cbn [Str.nonempty]. split; [apply slice0_length|]. split; [discriminate|].
    intros _. apply slice0_short.
Qed.

(** X1.  getInput returns the trimmed value of the input's variable and leaves
    the state alone; trimming it again changes nothing. When the variable is
    unset, empty or only white space (as String.prototype.trim knows it, the
    no-break space and the other Unicode spaces included), a required input
    raises 'Input required and not supplied: <name>' and an optional one
    yields the empty string, so a required input is never returned empty. *)
Theorem getInput_trimmed (h : host) (name : string) (required : bool) (st : state) :
  (Str.trim (env h (formatInputKey name)) = "" ->
   getInput h name required st
   = if required then (Throw (Error ("Input required and not supplied: " +:+ name)), st)
     else (Ok "", st)) /\
  (forall v st',
      getInput h name required st = (Ok v, st') ->
      st' = st /\ v = Str.trim (env h (formatInputKey name)) /\ Str.trim v = v /\
      (required = true -> Str.nonempty v = true)).
Proof.
  unfold getInput. cbv zeta. split.
  - intros E. rewrite E.
    replace (negb (Str.nonempty (env h (formatInputKey name))) || negb (Str.nonempty ""))%bool
      with true by (now rewrite orb_true_r).
    now destruct required.
  - intros v st'.
    destruct (Str.nonempty (env h (formatInputKey name))) eqn:Hv; cbn [negb orb].
    + destruct (Str.nonempty (Str.trim _)) eqn:Ht; cbn [negb].
      * intros [= <- <-]. repeat split; auto using trim_idempotent.
      * destruct required; [discriminate|]. intros [= <- <-].
        destruct (Str.trim _); [|discriminate]. repeat split; auto; discriminate.
    + destruct required; [discriminate|]. intros [= <- <-].
      rewrite (trim_empty_input _ Hv). repeat split; auto; discriminate.
Qed.

Lemma getInput_trimmed_witness :
  Sample.world [] [] = Sample.world [] [] /\
  "payload.json" = Str.trim (env Sample.host0 (formatInputKey "payload-file")) /\
  Str.trim "payload.json" = "payload.json" /\
  (true = true -> Str.nonempty "payload.json" = true).
Proof.
  apply (proj2 (getInput_trimmed Sample.host0 "payload-file" true (Sample.world [] []))
           "payload.json" (Sample.world [] [])).
  reflexivity.
Defined.

Lemma upper_char_normal c :
  let u := Str.upper_char (if Ascii.eqb c " "%char then "_"%char else c) in
  Ascii.eqb u " "%char = false /\ Str.is_lower u = false /\
  Str.upper_char (if Ascii.eqb u " "%char then "_"%char else u) = u.
Proof.
  destruct c as [[] [] [] [] [] [] [] []]; vm_compute; auto.
Qed.

Lemma upper_snake_chars name :
  no_char (fun c => (Ascii.eqb c " "%char || Str.is_lower c)%bool)
    (Str.toUpperCase (Str.spaces_to_underscores name)) = true.
Proof.
  unfold Str.toUpperCase, Str.spaces_to_underscores.
  induction name as [|c r IH]; [reflexivity|].
  cbn [Str.map_chars no_char].
  destruct (upper_char_normal c) as (H1 & H2 & _). cbv zeta in H1, H2.
  rewrite H1, H2. exact IH.
Qed.

(** X2.  The environment key of an input starts with INPUT_, contains no space
    and no lower-case ASCII letter, and is unchanged when the name is first
    upper-cased with its spaces turned into underscores: names that differ
    only in case or in space versus underscore read the same variable. *)
Theorem formatInputKey_normal (name : string) :
  Str.starts_with "INPUT_" (formatInputKey name) = true /\
  no_char (fun c => (Ascii.eqb c " "%char || Str.is_lower c)%bool) (formatInputKey name) = true /\
  formatInputKey (Str.toUpperCase (Str.spaces_to_underscores name)) = formatInputKey name.
Proof.
  unfold formatInputKey. split; [reflexivity|]. split.
  - change ("INPUT_" +:+ ?x) with (String "I" (String "N" (String "P" (String "U" (String "T" (String "_" x)))))).
    cbn [no_char]. rewrite upper_snake_chars. reflexivity.
  - f_equal. unfold Str.toUpperCase, Str.spaces_to_underscores.
    induction name as [|c r IH]; [reflexivity|].
    cbn [Str.map_chars]. rewrite IH. f_equal.
    now destruct (upper_char_normal c) as (_ & _ & H3).
Qed.

Lemma split_slash_plain s : no_char is_slash s = true -> Str.split_slash s = [s].
Proof.
  induction s as [|c r IH]; [reflexivity|].
  simpl. unfold is_slash at 1. destruct (Ascii.eqb c "/"); [discriminate|].
  intros H. now rewrite (IH H).
Qed.

Lemma split_slash_segments s : Forall (fun x => no_char is_slash x = true) (Str.split_slash s).
Proof.
  induction s as [|c r IH]; [repeat constructor|].
  simpl. destruct (Ascii.eqb c "/") eqn:Hc.
  - constructor; [reflexivity|exact IH].
  - destruct (Str.split_slash r) as [|x t]; [repeat constructor; simpl; unfold is_slash; now rewrite Hc|].
    inversion IH; subst. constructor; [|assumption].
    simpl. unfold is_slash at 1. now rewrite Hc.
Qed.

Lemma join_split_slash s : Str.join "/" (Str.split_slash s) = s.
Proof.
  induction s as [|c r IH]; [reflexivity|].
  simpl. destruct (Ascii.eqb c "/") eqn:Hc.
  - apply Ascii.eqb_eq in Hc. subst c.
    destruct (Str.split_slash r) as [|x t] eqn:E; [now destruct (split_slash_nonempty r)|].
    change (Str.join "/" ("" :: x :: t)) with (String "/" (Str.join "/" (x :: t))).
    now rewrite IH.
  - destruct (Str.split_slash r) as [|x t] eqn:E; [now destruct (split_slash_nonempty r)|].
    rewrite <- IH. destruct t; reflexivity.
Qed.

(** X3.  For a non-empty owner and a non-empty name without slashes,
    parseRepository turns 'owner/name' into {owner, name}, and does the same
    for 'owner/name/<anything>': segments after the second are ignored. *)
Theorem parseRepository_round_trip (o n : string) (st : state) :
  Str.nonempty o = true -> Str.nonempty n = true ->
  no_char is_slash o = true -> no_char is_slash n = true ->
  parseRepository (VStr (o +:+ "/" +:+ n)) st = (Ok (Some (mkRepo o n)), st) /\
  forall more,
    parseRepository (VStr (o +:+ "/" +:+ n +:+ "/" +:+ more)) st = (Ok (Some (mkRepo o n)), st).
Proof.
  intros Ho Hn So Sn.
  assert (Hfull : forall tail, Js.truthy (VStr (o +:+ tail)) = true).
  { intros tail. destruct o; [discriminate|reflexivity]. }
  split; [|intros more]; unfold parseRepository; rewrite Hfull; cbn [negb].
  - change (o +:+ "/" +:+ n) with (o +:+ String "/" n).
    rewrite split_slash_app, (split_slash_plain o So), (split_slash_plain n Sn).
    simpl. now rewrite Ho, Hn.
  - change (o +:+ "/" +:+ n +:+ "/" +:+ more) with (o +:+ String "/" (n +:+ String "/" more)).
    rewrite !split_slash_app, (split_slash_plain o So), (split_slash_plain n Sn).
    simpl. now rewrite Ho, Hn.
Qed.

Lemma parseRepository_round_trip_witness :
  parseRepository (VStr ("acme" +:+ "/" +:+ "widgets")) (Sample.world [] [])
  = (Ok (Some (mkRepo "acme" "widgets")), Sample.world [] []) /\
  forall more,
    parseRepository (VStr ("acme" +:+ "/" +:+ "widgets" +:+ "/" +:+ more)) (Sample.world [] [])
    = (Ok (Some (mkRepo "acme" "widgets")), Sample.world [] []).
Proof.
  apply (parseRepository_round_trip "acme" "widgets" (Sample.world [] [])); reflexivity.
Defined.

(** X4.  Whenever parseRepository returns a repository, its argument was a
    string whose first two slash-separated segments are the owner and the name
    returned; both are non-empty and contain no slash, and the state is
    unchanged. *)
Theorem parseRepository_sound (v : value) (r : repo) (st st' : state) :
  parseRepository v st = (Ok (Some r), st') ->
  st' = st /\
  Str.nonempty (owner r) = true /\ Str.nonempty (name r) = true /\
  no_char is_slash (owner r) = true /\ no_char is_slash (name r) = true /\
  exists s more, v = VStr s /\ s = Str.join "/" (owner r :: name r :: more).
Proof.
  unfold parseRepository. destruct (Js.truthy v); cbn [negb]; [|discriminate].
  destruct v as [| | | |s| |]; try discriminate.
  pose proof (split_slash_segments s) as Hseg. pose proof (join_split_slash s) as Hjoin.
  destruct (Str.split_slash s) as [|o [|n more]]; try discriminate.
  destruct (Str.nonempty o) eqn:Ho; [|discriminate].
  destruct (Str.nonempty n) eqn:Hn; [|discriminate].
  cbn [negb orb]. intros [= <- <-]. cbn [owner name].
  apply Forall_cons in Hseg as [So Hrest]. apply Forall_cons in Hrest as [Sn _].
  repeat split; auto. exists s, more. now rewrite Hjoin.
Qed.

Lemma parseRepository_sound_witness :
  Sample.world [] [] = Sample.world [] [] /\
  Str.nonempty "acme" = true /\ Str.nonempty "widgets" = true /\
  no_char is_slash "acme" = true /\ no_char is_slash "widgets" = true /\
  exists s more, VStr "acme/widgets/x" = VStr s /\ s = Str.join "/" ("acme" :: "widgets" :: more).
Proof.
  apply (parseRepository_sound (VStr "acme/widgets/x") (mkRepo "acme" "widgets")
           (Sample.world [] []) (Sample.world [] [])).
  reflexivity.
Defined.

(** *** The Job Poller: how a polling run ends *)

Lemma pollAgentStatus_start h baseUrl apiKey runId statusUrl st :
  url_resolve h ("/agent/status/" +:+ Js.to_text runId) baseUrl = Some statusUrl ->
  pollAgentStatus h baseUrl apiKey runId st
  = pollLoop h maxAttempts 0 statusUrl apiKey runId (polling_start runId st).
Proof. intros E. unfold pollAgentStatus. rewrite E. reflexivity. Qed.

Lemma pollAttempt_fetched h attempt statusUrl apiKey runId st r rest :
  responses st = Responds r :: rest ->
  exists st1 tr,
    pollAttempt h attempt statusUrl apiKey runId st
    = (match JSON_parse r with
       | Unparsable why =>
           toWarning ("Status response is not valid JSON: " +:+ why) ;; mret None
       | Parsed data =>
           if negb (response_ok r) then throw (status_error runId r)
           else if Js.is_nullish data then
             throw (TypeError "Cannot read properties of null (reading 'pipeline')")
           else
             (if Js.truthy (Js.get data "pipeline") then
                let coder := Js.get (Js.get data "pipeline") "coder" in
                let reviewer := Js.get (Js.get data "pipeline") "reviewer" in
                logAgentChange "coder" coder
                  (mkDetails (Js.get coder "message") (Js.get coder "files_count") VUndef) ;;
                logAgentChange "reviewer" reviewer
                  (mkDetails (Js.get reviewer "message") VUndef (Js.get reviewer "issues_count"))
              else mret tt) ;;
             if Js.is_str "completed" (Js.get data "status") then
               toNotice "" ;;
               toNotice ("Job " +:+ Js.to_text runId +:+ " completed after "
                           +:+ Str.of_Z ((Z.of_nat attempt + 1) * pollInterval / 1000) +:+ "s") ;;
               mret (Some data)
             else if Js.is_str "failed" (Js.get data "status") then
               toWarning ("Job " +:+ Js.to_text runId +:+ " failed: "
                            +:+ Js.to_text (Js.or (Js.get data "error") (VStr "Unknown error"))) ;;
               mret (Some (Js.or (Js.get data "result") data))
             else if Js.is_str "processing" (Js.get data "status") then
               toDebug h ("Still processing... ("
                          +:+ Js.to_text (Js.or (Js.get data "elapsed_seconds")
                                            (VNum ((Z.of_nat attempt + 1) * 5)))
                          +:+ "s elapsed)") ;;
               mret None
             else
               toWarning ("Unknown status: " +:+ Js.to_text (Js.get data "status")) ;;
               mret None
       end) st1 /\
    trace st1 = trace st ++ tr /\
    responses st1 = rest /\
    exits st1 = exits st /\
    fs st1 = fs st /\
    requests tr = 1%nat /\
    Forall (fun e => is_log e = true \/ e = Sleep pollInterval \/ e = status_request statusUrl apiKey) tr.
Proof.
  intros Hrs. unfold pollAttempt.
  rewrite (bind_ok _ _ st tt (add_event (Sleep pollInterval) st) eq_refl).
  run_logs (logs_only_toDebug h
              ("Polling attempt " +:+ Str.of_Z (Z.of_nat attempt + 1) +:+ "/"
                 +:+ Str.of_Z (Z.of_nat maxAttempts) +:+ " - " +:+ statusUrl)).
  destruct (fetch_responds "GET" statusUrl (("User-Agent", USER_AGENT) :: bearer apiKey) None
              st0 r rest) as (st3 & E3 & T3 & R3 & X3 & F3 & _).
  { rewrite R. exact Hrs. }
  rewrite (bind_ok _ _ _ _ _ E3).
  exists st3, ([Sleep pollInterval] ++ tr ++ [status_request statusUrl apiKey]).
  split.
  { unfold status_error. destruct (JSON_parse r); [reflexivity|].
    destruct (negb (response_ok r)); [|reflexivity].
    destruct (response_status r =? 404); [reflexivity|].
    destruct (response_status r =? 410); reflexivity. }
  split; [chain_traces|]. split; [exact R3|].
  split; [now rewrite X3, X|]. split; [now rewrite F3, F|]. split.
  - count_requests.
  - constructor; [now right; left|]. apply Forall_app.
    split; [|constructor; [now right; right|constructor]].
    eapply Forall_impl; [exact A|]. intros e He. now left.
Qed.

Lemma logs_only_pipeline data :
  logs_only
    (if Js.truthy (Js.get data "pipeline") then
       let coder := Js.get (Js.get data "pipeline") "coder" in
       let reviewer := Js.get (Js.get data "pipeline") "reviewer" in
       logAgentChange "coder" coder
         (mkDetails (Js.get coder "message") (Js.get coder "files_count") VUndef) ;;
       logAgentChange "reviewer" reviewer
         (mkDetails (Js.get reviewer "message") VUndef (Js.get reviewer "issues_count"))
     else mret tt).
Proof.
  destruct (Js.truthy _); [|apply logs_only_ret].
  apply logs_only_bind; [|intros _]; apply logs_only_logAgentChange.
Qed.

Lemma pollAttempt_end h attempt statusUrl apiKey runId st r rest result :
  responses st = Responds r :: rest ->
  reports_end r result ->
  exists st' tr,
    pollAttempt h attempt statusUrl apiKey runId st = (Ok (Some result), st') /\
    trace st' = trace st ++ tr /\
    responses st' = rest /\
    exits st' = exits st /\
    fs st' = fs st /\
    requests tr = 1%nat.
Proof.
  intros Hrs (Hok & data & Hparse & Hend).
  destruct (pollAttempt_fetched h attempt statusUrl apiKey runId st r rest Hrs)
    as (st1 & tr1 & E & T1 & R1 & X1 & F1 & N1 & _).
  rewrite E, Hparse, Hok. cbn [negb]. cbv iota.
  assert (Hnn : Js.is_nullish data = false).
  { destruct Hend as [[Hs _]|[Hs _]]; destruct data; try reflexivity; discriminate. }
  rewrite Hnn. run_logs (logs_only_pipeline data).
  destruct Hend as [[Hs ->]|[Hs ->]]; rewrite Hs; eval_is_str.
  - match goal with
    | |- context [(toNotice ?msg ≫= _) _] => run_logs (logs_only_toNotice msg)
    end.
    match goal with
    | |- context [(toNotice ?msg ≫= _) _] => run_logs (logs_only_toNotice msg)
    end.
    eexists _, _. split; [reflexivity|]. repeat split; try congruence.
    + chain_traces.
    + count_requests. now rewrite N1.
  - match goal with
    | |- context [(toWarning ?msg ≫= _) _] => run_logs (logs_only_toWarning msg)
    end.
    eexists _, _. split; [reflexivity|]. repeat split; try congruence.
    + chain_traces.
    + count_requests. now rewrite N1.
Qed.

Lemma pollAttempt_continues h attempt statusUrl apiKey runId st r rest :
  responses st = Responds r :: rest ->
  keeps_polling r ->
  exists st' tr,
    pollAttempt h attempt statusUrl apiKey runId st = (Ok None, st') /\
    trace st' = trace st ++ tr /\
    responses st' = rest /\
    exits st' = exits st /\
    fs st' = fs st /\
    requests tr = 1%nat.
Proof.
  intros Hrs Hkeeps.
  destruct (pollAttempt_fetched h attempt statusUrl apiKey runId st r rest Hrs)
    as (st1 & tr1 & E & T1 & R1 & X1 & F1 & N1 & _).
  rewrite E. destruct Hkeeps as [[why Hparse]|(Hok & data & Hparse & Hnn & Hc & Hf)];
    rewrite Hparse.
  - match goal with
    | |- context [(toWarning ?msg ≫= _) _] => run_logs (logs_only_toWarning msg)
    end.
    eexists _, _. split; [reflexivity|]. repeat split; try congruence.
    + chain_traces.
    + count_requests. now rewrite N1.
  - rewrite Hok, Hnn. cbn [negb]. cbv iota.
    run_logs (logs_only_pipeline data). rewrite Hc, Hf.
    destruct (Js.is_str "processing" _).
    + match goal with
      | |- context [(toDebug h ?msg ≫= _) _] => run_logs (logs_only_toDebug h msg)
      end.
      eexists _, _. split; [reflexivity|]. repeat split; try congruence.
      * chain_traces.
      * count_requests. now rewrite N1.
    + match goal with
      | |- context [(toWarning ?msg ≫= _) _] => run_logs (logs_only_toWarning msg)
      end.
      eexists _, _. split; [reflexivity|]. repeat split; try congruence.
      * chain_traces.
      * count_requests. now rewrite N1.
Qed.

Lemma pollLoop_continues h statusUrl apiKey runId : forall rs remaining attempt st rest,
  responses st = map Responds rs ++ rest ->
  Forall keeps_polling rs ->
  (length rs <= remaining)%nat ->
  exists st' tr,
    pollLoop h remaining attempt statusUrl apiKey runId st
    = pollLoop h (remaining - length rs) (attempt + length rs) statusUrl apiKey runId st' /\
    trace st' = trace st ++ tr /\
    responses st' = rest /\
    exits st' = exits st /\
    fs st' = fs st /\
    requests tr = length rs.
Proof.
  induction rs as [|r rs IH]; intros remaining attempt st rest Hrs Hall Hlen.
  - exists st, []. simpl in *. rewrite app_nil_r, Nat.sub_0_r, Nat.add_0_r. now repeat split.
  - apply Forall_cons in Hall as [Hr Hall]. simpl in Hrs, Hlen.
    destruct remaining as [|remaining]; [lia|].
    destruct (pollAttempt_continues h attempt statusUrl apiKey runId st r
                (map Responds rs ++ rest) Hrs Hr) as (st1 & tr1 & E1 & T1 & R1 & X1 & F1 & N1).
    destruct (IH remaining (S attempt) st1 rest R1 Hall ltac:(lia))
      as (st2 & tr2 & E2 & T2 & R2 & X2 & F2 & N2).
    exists st2, (tr1 ++ tr2). cbn [pollLoop length].
    rewrite (bind_ok _ _ _ _ _ E1). cbv iota.
    replace (attempt + S (length rs))%nat with (S attempt + length rs)%nat by lia.
    split; [exact E2|]. split; [now rewrite T2, T1, app_assoc|].
    split; [exact R2|]. split; [congruence|]. split; [congruence|].
    rewrite requests_app, N1, N2. reflexivity.
Qed.

Lemma pollAttempt_rejected h attempt statusUrl apiKey runId st r rest e :
  responses st = Responds r :: rest ->
  rejected_with runId r e ->
  exists st' tr,
    pollAttempt h attempt statusUrl apiKey runId st = (Throw e, st') /\
    trace st' = trace st ++ tr /\
    responses st' = rest /\
    exits st' = exits st /\
    fs st' = fs st /\
    requests tr = 1%nat.
Proof.
  intros Hrs (data & Hparse & Hwhy).
  destruct (pollAttempt_fetched h attempt statusUrl apiKey runId st r rest Hrs)
    as (st1 & tr1 & E & T1 & R1 & X1 & F1 & N1 & _).
  rewrite E, Hparse.
  destruct Hwhy as [(Hok & ->)|(Hok & -> & ->)]; rewrite Hok; cbn [negb]; cbv iota;
    exists st1, tr1; now repeat split.
Qed.

Lemma pollAgentStatus_reaches h baseUrl apiKey statusUrl runId st rs rest :
  url_resolve h ("/agent/status/" +:+ Js.to_text runId) baseUrl = Some statusUrl ->
  responses st = map Responds rs ++ rest ->
  (length rs < maxAttempts)%nat ->
  Forall keeps_polling rs ->
  exists st1 tr1 remaining,
    pollAgentStatus h baseUrl apiKey runId st
    = pollLoop h (S remaining) (length rs) statusUrl apiKey runId st1 /\
    trace st1 = trace st ++ tr1 /\
    responses st1 = rest /\
    exits st1 = exits st /\
    fs st1 = fs st /\
    requests tr1 = length rs.
Proof.
  intros Hurl Hrs Hlen Hall.
  rewrite (pollAgentStatus_start _ _ _ _ _ _ Hurl).
  destruct (pollLoop_continues h statusUrl apiKey runId rs maxAttempts 0
              (polling_start runId st) rest Hrs Hall ltac:(lia))
    as (st1 & tr1 & E1 & T1 & R1 & X1 & F1 & N1).
  rewrite E1. destruct (maxAttempts - length rs)%nat as [|m] eqn:Hm; [lia|].
  eexists st1, _, m. split; [reflexivity|]. split; [|split; [exact R1|]].
  - rewrite T1. unfold polling_start. cbn [trace]. rewrite <- !app_assoc. reflexivity.
  - split; [exact X1|]. split; [exact F1|]. count_requests. now rewrite N1.
Qed.

(** X5.  After fewer than 120 responses that keep it polling (a body that is
    not JSON, or a 2xx body with a status other than completed and failed),
    the poller returns at the first 2xx response that reports completed (the
    response itself) or failed (its result field when truthy, else the
    response), without raising; it has then made one request per response
    consumed and has run no command and touched no file. *)
Theorem poller_returns_terminal_response (h : host) (baseUrl apiKey statusUrl : string)
    (runId result : value) (st : state) (rs : list response) (r : response)
    (rest : list fetch_outcome) :
  url_resolve h ("/agent/status/" +:+ Js.to_text runId) baseUrl = Some statusUrl ->
  responses st = map Responds rs ++ Responds r :: rest ->
  (length rs < maxAttempts)%nat ->
  Forall keeps_polling rs ->
  reports_end r result ->
  exists st' tr,
    pollAgentStatus h baseUrl apiKey runId st = (Ok result, st') /\
    trace st' = trace st ++ tr /\
    responses st' = rest /\
    exits st' = exits st /\
    fs st' = fs st /\
    requests tr = S (length rs).
Proof.
  intros Hurl Hrs Hlen Hall Hend.
  destruct (pollAgentStatus_reaches h baseUrl apiKey statusUrl runId st rs _ Hurl Hrs Hlen Hall)
    as (st1 & tr1 & m & E1 & T1 & R1 & X1 & F1 & N1).
  destruct (pollAttempt_end h (length rs) statusUrl apiKey runId st1 r rest result R1 Hend)
    as (st2 & tr2 & E2 & T2 & R2 & X2 & F2 & N2).
  rewrite E1. cbn [pollLoop]. rewrite (bind_ok _ _ _ _ _ E2). cbv iota.
  exists st2, (tr1 ++ tr2). split; [reflexivity|].
  split; [now rewrite T2, T1, app_assoc|]. split; [exact R2|].
  split; [congruence|]. split; [congruence|].
  rewrite requests_app, N1, N2. lia.
Qed.

(** X6.  After fewer than 120 responses that keep it polling, a response that
    parses and is not 2xx makes the poller raise: 'not found (404)', 'expired
    (410)', or 'Status check failed (<status>): <snippet>', where the snippet
    is the first 200 UTF-16 code units of the body, the whole body when it
    has no more; a 2xx response whose body is the JSON null makes it raise a
    TypeError. No further request is made. *)
Theorem poller_raises_on_rejected_response (h : host) (baseUrl apiKey statusUrl : string)
    (runId : value) (e : exn) (st : state) (rs : list response) (r : response)
    (rest : list fetch_outcome) :
  url_resolve h ("/agent/status/" +:+ Js.to_text runId) baseUrl = Some statusUrl ->
  responses st = map Responds rs ++ Responds r :: rest ->
  (length rs < maxAttempts)%nat ->
  Forall keeps_polling rs ->
  rejected_with runId r e ->
  exists st' tr,
    pollAgentStatus h baseUrl apiKey runId st = (Throw e, st') /\
    trace st' = trace st ++ tr /\
    responses st' = rest /\
    exits st' = exits st /\
    fs st' = fs st /\
    requests tr = S (length rs) /\
    (response_ok r = false ->
     (response_status r = 404 ->
      e = Error ("Job " +:+ Js.to_text runId +:+ " not found (404)")) /\
     (response_status r = 410 ->
      e = Error ("Job " +:+ Js.to_text runId +:+ " expired (410)")) /\
     (response_status r <> 404 -> response_status r <> 410 ->
      exists snippet,
        e = Error ("Status check failed (" +:+ Str.of_Z (response_status r) +:+ "): "
                     +:+ snippet) /\
        (Str.length snippet <= 200)%nat /\
        ((Str.length (response_text r) <= 200)%nat -> snippet = response_text r))).
Proof.
  intros Hurl Hrs Hlen Hall Hrej.
  destruct (pollAgentStatus_reaches h baseUrl apiKey statusUrl runId st rs _ Hurl Hrs Hlen Hall)
    as (st1 & tr1 & m & E1 & T1 & R1 & X1 & F1 & N1).
  destruct (pollAttempt_rejected h (length rs) statusUrl apiKey runId st1 r rest e R1 Hrej)
    as (st2 & tr2 & E2 & T2 & R2 & X2 & F2 & N2).
  rewrite E1. cbn [pollLoop]. rewrite (bind_throw _ _ _ _ _ E2).
  exists st2, (tr1 ++ tr2). split; [reflexivity|].
  split; [now rewrite T2, T1, app_assoc|]. split; [exact R2|].
  split; [congruence|]. split; [congruence|].
  split; [rewrite requests_app, N1, N2; lia|].
  intros Hok. destruct Hrej as (data & _ & [[_ ->]|[Hok' _]]); [|congruence].
  unfold status_error. split; [|split].
  - intros ->. reflexivity.
  - intros ->. reflexivity.
  - intros H404 H410. apply Z.eqb_neq in H404, H410. rewrite H404, H410.
    eexists. split; [reflexivity|]. split; [apply slice0_length|apply slice0_short].
Qed.

(** X7.  If each of 120 consecutive responses keeps the poller polling (not
    JSON whatever its status code, or 2xx with a status that is neither
    completed nor failed, unknown statuses included), the poller makes exactly
    120 requests and raises 'Job <id> timed out after 10 minutes'. *)
Theorem poller_gives_up_without_terminal_response (h : host)
    (baseUrl apiKey statusUrl : string) (runId : value) (st : state) (rs : list response)
    (rest : list fetch_outcome) :
  url_resolve h ("/agent/status/" +:+ Js.to_text runId) baseUrl = Some statusUrl ->
  responses st = map Responds rs ++ rest ->
  length rs = maxAttempts ->
  Forall keeps_polling rs ->
  exists st' tr,
    pollAgentStatus h baseUrl apiKey runId st = (Throw (timeout_error runId), st') /\
    trace st' = trace st ++ tr /\
    responses st' = rest /\
    exits st' = exits st /\
    fs st' = fs st /\
    requests tr = maxAttempts.
Proof.
  intros Hurl Hrs Hlen Hall.
  rewrite (pollAgentStatus_start _ _ _ _ _ _ Hurl).
  destruct (pollLoop_continues h statusUrl apiKey runId rs (length rs) 0
              (polling_start runId st) rest Hrs Hall ltac:(lia))
    as (st1 & tr1 & E1 & T1 & R1 & X1 & F1 & N1).
  rewrite <- Hlen, E1, Nat.sub_diag. cbn [pollLoop].
  eexists st1, _. split; [reflexivity|]. split; [|split; [exact R1|]].
  - rewrite T1. unfold polling_start. cbn [trace]. rewrite <- !app_assoc. reflexivity.
  - split; [exact X1|]. split; [exact F1|]. count_requests. now rewrite N1.
Qed.

(** The polling loop starts from the same state whatever was remembered. *)
Lemma poller_start_forgets runId st remembered :
  polling_start runId (mkState (trace st) (responses st) (exits st) (fs st) remembered)
  = polling_start runId st.
Proof. reflexivity. Qed.

(** X8.  The outcome and the console output of a polling run do not depend on
    the agent statuses remembered from an earlier run: lastLoggedStatus is
    reset before the first attempt. *)
Theorem poller_forgets_earlier_statuses (h : host) (baseUrl apiKey : string) (runId : value)
    (st : state) (remembered : gmap string value) :
  (pollAgentStatus h baseUrl apiKey runId
     (mkState (trace st) (responses st) (exits st) (fs st) remembered)).1
  = (pollAgentStatus h baseUrl apiKey runId st).1 /\
  trace (pollAgentStatus h baseUrl apiKey runId
           (mkState (trace st) (responses st) (exits st) (fs st) remembered)).2
  = trace (pollAgentStatus h baseUrl apiKey runId st).2 /\
  (url_resolve h ("/agent/status/" +:+ Js.to_text runId) baseUrl <> None ->
   pollAgentStatus h baseUrl apiKey runId
     (mkState (trace st) (responses st) (exits st) (fs st) remembered)
   = pollAgentStatus h baseUrl apiKey runId st).
Proof.
  destruct (url_resolve h ("/agent/status/" +:+ Js.to_text runId) baseUrl) as [statusUrl|] eqn:E.
  - rewrite !(pollAgentStatus_start _ _ _ _ _ _ E), poller_start_forgets. auto.
  - unfold pollAgentStatus. rewrite E. cbn. repeat split; auto. intros H. now destruct H.
Qed.

Lemma paced_rounds_members k request e :
  In e (paced_rounds k request) -> e = Sleep pollInterval \/ e = request.
Proof.
  unfold paced_rounds. induction k as [|k IH]; simpl; [contradiction|].
  intros [<-|[<-|H]]; auto.
Qed.

(** X9.  Every HTTP request of a polling run is a GET of the status URL
    (/agent/status/<runId> resolved against the base URL) without a body, with
    the User-Agent header and, exactly when the API key is non-empty,
    'Authorization: Bearer <key>'; when the URL does not resolve, nothing is
    sent. *)
Theorem poller_sends_only_status_requests (h : host) (baseUrl apiKey : string)
    (runId : value) (st : state) :
  Forall (fun e =>
            is_request e = true ->
            exists statusUrl,
              url_resolve h ("/agent/status/" +:+ Js.to_text runId) baseUrl = Some statusUrl /\
              e = HttpRequest "GET" statusUrl
                    (("User-Agent", "pixelframe-agent-action/2.1.0")
                       :: (if Str.nonempty apiKey then [("Authorization", "Bearer " +:+ apiKey)]
                           else []))
                    None)
    (effects (pollAgentStatus h baseUrl apiKey runId) st).
Proof.
  destruct (url_resolve h ("/agent/status/" +:+ Js.to_text runId) baseUrl) as [statusUrl|] eqn:E.
  - destruct (pollLoop_paced h statusUrl apiKey runId maxAttempts 0 (polling_start runId st))
      as (k & tr & _ & T & Hpaced).
    rewrite (effects_of_trace _ st
               ([Annotation Notice ("Job " +:+ Js.to_text runId
                                      +:+ " started, polling for completion (max 10 minutes)...");
                 Annotation Notice ""] ++ tr)).
    + constructor; [discriminate|]. constructor; [discriminate|].
      apply List.Forall_forall. intros e Hin Hreq. exists statusUrl. split; [reflexivity|].
      assert (Ht : In e (List.filter is_timing tr)).
      { apply List.filter_In. split; [exact Hin|]. now destruct e. }
      rewrite Hpaced in Ht. apply paced_rounds_members in Ht as [->| ->]; [discriminate|].
      reflexivity.
    + rewrite (pollAgentStatus_start _ _ _ _ _ _ E), T. unfold polling_start. cbn [trace].
      rewrite <- !app_assoc. reflexivity.
  - rewrite (effects_of_trace _ st []); [constructor|].
    unfold pollAgentStatus. rewrite E. cbn. now rewrite app_nil_r.
Qed.

Lemma poller_returns_terminal_response_witness :
  exists st' tr,
    pollAgentStatus Sample.host0 "https://agent.example" "key" (VStr "abc")
      (Sample.world (map Responds [Sample.not_found_page; unknown_status]
                       ++ [Responds failed_job]) [])
    = (Ok (VObj [("partial", VBool true)]), st') /\
    trace st' = [] ++ tr /\
    responses st' = [] /\
    exits st' = [] /\
    fs st' = ∅ /\
    requests tr = 3%nat.
Proof.
  apply (poller_returns_terminal_response Sample.host0 "https://agent.example" "key"
           "https://agent.example/agent/status/abc" (VStr "abc")
           (VObj [("partial", VBool true)]) (Sample.world _ [])
           [Sample.not_found_page; unknown_status] failed_job []).
  - reflexivity.
  - reflexivity.
  - vm_compute. lia.
  - constructor; [left; eexists; reflexivity|].
    constructor; [|constructor].
    right. split; [reflexivity|]. eexists. repeat split; reflexivity.
  - split; [reflexivity|]. eexists. split; [reflexivity|]. right. split; reflexivity.
Defined.

Lemma poller_raises_on_rejected_response_witness :
  exists st' tr,
    pollAgentStatus Sample.host0 "https://agent.example" "key" (VStr "abc")
      (Sample.world (map Responds [Sample.processing] ++ [Responds server_error]) [])
    = (Throw (Error "Status check failed (500): {...}"), st') /\
    trace st' = [] ++ tr /\
    responses st' = [] /\
    exits st' = [] /\
    fs st' = ∅ /\
    requests tr = 2%nat.
Proof.
  destruct (poller_raises_on_rejected_response Sample.host0 "https://agent.example" "key"
              "https://agent.example/agent/status/abc" (VStr "abc")
              (Error "Status check failed (500): {...}")
              (Sample.world (map Responds [Sample.processing] ++ [Responds server_error]) [])
              [Sample.processing] server_error [])
    as (st' & tr & E & T & R & X & F & N & _); [..|now exists st', tr].
  - reflexivity.
  - reflexivity.
  - vm_compute. lia.
  - constructor; [|constructor].
    right. split; [reflexivity|]. eexists. repeat split; reflexivity.
  - eexists. split; [reflexivity|]. left. split; reflexivity.
Defined.

Lemma poller_gives_up_without_terminal_response_witness :
  exists st' tr,
    pollAgentStatus Sample.host0 "https://agent.example" "key" (VStr "abc")
      (Sample.world (map Responds (replicate 60 unknown_status ++ replicate 60 Sample.not_found_page)
                       ++ []) [])
    = (Throw (timeout_error (VStr "abc")), st') /\
    trace st' = [] ++ tr /\
    responses st' = [] /\
    exits st' = [] /\
    fs st' = ∅ /\
    requests tr = maxAttempts.
Proof.
  apply (poller_gives_up_without_terminal_response Sample.host0 "https://agent.example" "key"
           "https://agent.example/agent/status/abc" (VStr "abc") (Sample.world _ [])
           (replicate 60 unknown_status ++ replicate 60 Sample.not_found_page) []).
  - reflexivity.
  - reflexivity.
  - reflexivity.
  - apply Forall_app. split; apply Forall_replicate.
    + right. split; [reflexivity|]. eexists. repeat split; reflexivity.
    + left. eexists. reflexivity.
Defined.

Lemma fetch_fails method url headers body st why rest :
  responses st = FetchFailed why :: rest ->
  exists st1,
    fetch method url headers body st = (Throw (TypeError why), st1) /\
    trace st1 = trace st ++ [HttpRequest method url headers body] /\
    responses st1 = rest /\
    exits st1 = exits st /\
    fs st1 = fs st.
Proof.
  intros E. unfold fetch. cbv zeta. rewrite E. eexists. now repeat split.
Qed.

Lemma pollAttempt_network_failure h attempt statusUrl apiKey runId st why rest :
  responses st = FetchFailed why :: rest ->
  exists st' tr,
    pollAttempt h attempt statusUrl apiKey runId st = (Throw (TypeError why), st') /\
    trace st' = trace st ++ tr /\
    responses st' = rest /\
    exits st' = exits st /\
    fs st' = fs st /\
    requests tr = 1%nat.
Proof.
  intros Hrs. unfold pollAttempt.
  rewrite (bind_ok _ _ st tt (add_event (Sleep pollInterval) st) eq_refl).
  run_logs (logs_only_toDebug h
              ("Polling attempt " +:+ Str.of_Z (Z.of_nat attempt + 1) +:+ "/"
                 +:+ Str.of_Z (Z.of_nat maxAttempts) +:+ " - " +:+ statusUrl)).
  destruct (fetch_fails "GET" statusUrl (("User-Agent", USER_AGENT) :: bearer apiKey) None
              st0 why rest) as (st3 & E3 & T3 & R3 & X3 & F3).
  { rewrite R. exact Hrs. }
  rewrite (bind_throw _ _ _ _ _ E3).
  eexists st3, _. split; [reflexivity|]. split; [chain_traces|].
  split; [exact R3|]. split; [now rewrite X3, X|]. split; [now rewrite F3, F|].
  count_requests.
Qed.

(** X10.  A status request that fails at the network level (fetch rejects)
    ends the polling at once with that error: unlike an unparsable body it is
    not retried, and the responses that would have followed are not requested. *)
Theorem poller_does_not_retry_network_failure (h : host) (baseUrl apiKey statusUrl : string)
    (runId : value) (why : string) (st : state) (rs : list response)
    (rest : list fetch_outcome) :
  url_resolve h ("/agent/status/" +:+ Js.to_text runId) baseUrl = Some statusUrl ->
  responses st = map Responds rs ++ FetchFailed why :: rest ->
  (length rs < maxAttempts)%nat ->
  Forall keeps_polling rs ->
  exists st' tr,
    pollAgentStatus h baseUrl apiKey runId st = (Throw (TypeError why), st') /\
    trace st' = trace st ++ tr /\
    responses st' = rest /\
    exits st' = exits st /\
    fs st' = fs st /\
    requests tr = S (length rs).
Proof.
  intros Hurl Hrs Hlen Hall.
  destruct (pollAgentStatus_reaches h baseUrl apiKey statusUrl runId st rs _ Hurl Hrs Hlen Hall)
    as (st1 & tr1 & m & E1 & T1 & R1 & X1 & F1 & N1).
  destruct (pollAttempt_network_failure h (length rs) statusUrl apiKey runId st1 why rest R1)
    as (st2 & tr2 & E2 & T2 & R2 & X2 & F2 & N2).
  rewrite E1. cbn [pollLoop]. rewrite (bind_throw _ _ _ _ _ E2).
  exists st2, (tr1 ++ tr2). split; [reflexivity|].
  split; [now rewrite T2, T1, app_assoc|]. split; [exact R2|].
  split; [congruence|]. split; [congruence|].
  rewrite requests_app, N1, N2. lia.
Qed.

Lemma poller_does_not_retry_network_failure_witness :
  exists st' tr,
    pollAgentStatus Sample.host0 "https://agent.example" "key" (VStr "abc")
      (Sample.world (map Responds [Sample.processing]
                       ++ [FetchFailed "fetch failed"; Sample.ok_json Sample.completed]) [])
    = (Throw (TypeError "fetch failed"), st') /\
    trace st' = [] ++ tr /\
    responses st' = [Sample.ok_json Sample.completed] /\
    exits st' = [] /\
    fs st' = ∅ /\
    requests tr = 2%nat.
Proof.
  apply (poller_does_not_retry_network_failure Sample.host0 "https://agent.example" "key"
           "https://agent.example/agent/status/abc" (VStr "abc") "fetch failed"
           (Sample.world _ []) [Sample.processing] [Sample.ok_json Sample.completed]).
  - reflexivity.
  - reflexivity.
  - vm_compute. lia.
  - constructor; [|constructor].
    right. split; [reflexivity|]. eexists. repeat split; reflexivity.
Defined.

(** *** The Agent Invoker *)

Lemma callAgent_fetched h agentUrl apiKey payload context metadata st r rest :
  responses st = Responds r :: rest ->
  exists st1 tr,
    callAgent h agentUrl apiKey payload context metadata st
    = (if negb (response_ok r) then throw (invocation_error r)
       else if starts_job (agent_answer r) then
         match url_origin h (Js.to_text agentUrl) with
         | None => throw (TypeError "Invalid URL")
         | Some baseUrl => pollAgentStatus h baseUrl apiKey (Js.get (agent_answer r) "runId")
         end
       else mret (agent_answer r)) st1 /\
    trace st1 = trace st ++ tr /\
    responses st1 = rest /\
    exits st1 = exits st /\
    fs st1 = fs st /\
    requests tr = 1%nat /\
    Forall (fun e => is_log e = true
                     \/ e = invocation_request agentUrl apiKey payload context metadata) tr.
Proof.
  intros Hrs. unfold callAgent. cbv zeta.
  match goal with
  | |- context [(toDebug h ?msg ≫= _) _] => run_logs (logs_only_toDebug h msg)
  end.
  destruct (fetch_responds "POST" (Js.to_text agentUrl)
              ([("Content-Type", "application/json"); ("User-Agent", USER_AGENT)] ++ bearer apiKey)
              (Some (VObj [("payload", payload); ("context", context); ("metadata", metadata)]))
              st0 r rest) as (st3 & E3 & T3 & R3 & X3 & F3 & _).
  { rewrite R. exact Hrs. }
  rewrite (bind_ok _ _ _ _ _ E3). cbv zeta. unfold agent_answer, invocation_error, starts_job.
  destruct (Str.nonempty (response_text r)) eqn:Hraw; cbv iota.
  - destruct (JSON_parse r) as [why|d] eqn:Hparse; cbv iota.
    + rewrite bind_assoc.
      match goal with
      | |- context [(toWarning ?msg ≫= _) _] => run_logs (logs_only_toWarning msg)
      end.
      rewrite (bind_ok (mret _) _ st1 _ st1 eq_refl).
      eexists st1, _. split; [reflexivity|]. split; [chain_traces|].
      split; [congruence|]. split; [congruence|]. split; [congruence|]. split.
      * count_requests.
      * apply Forall_app. split; [eapply Forall_impl; [exact A|]; intros; now left|].
        constructor; [now right|]. eapply Forall_impl; [exact A0|]. intros; now left.
    + rewrite (bind_ok (mret _) _ st3 _ st3 eq_refl).
      eexists st3, _. split; [reflexivity|]. split; [chain_traces|].
      split; [congruence|]. split; [congruence|]. split; [congruence|]. split.
      * count_requests.
      * apply Forall_app. split; [eapply Forall_impl; [exact A|]; intros; now left|].
        constructor; [now right|constructor].
  - rewrite (bind_ok (mret _) _ st3 _ st3 eq_refl).
    eexists st3, _. split; [reflexivity|]. split; [chain_traces|].
    split; [congruence|]. split; [congruence|]. split; [congruence|]. split.
    * count_requests.
    * apply Forall_app. split; [eapply Forall_impl; [exact A|]; intros; now left|].
      constructor; [now right|constructor].
Qed.

(** X11.  When the agent answers the invocation with a status outside 2xx,
    callAgent raises 'PixelFrame API request failed (<status> <statusText>):
    <snippet>' whatever the body is (even one that announces a job); the
    snippet is 'No response body' for an empty body and else the first 500
    UTF-16 code units of the body, the whole body when it has no more;
    exactly one request was made and no polling follows. *)
Theorem callAgent_rejects_error_status (h : host) (agentUrl : value) (apiKey : string)
    (payload context metadata : value) (st : state) (r : response)
    (rest : list fetch_outcome) :
  responses st = Responds r :: rest ->
  response_ok r = false ->
  exists st' tr,
    callAgent h agentUrl apiKey payload context metadata st = (Throw (invocation_error r), st') /\
    trace st' = trace st ++ tr /\
    responses st' = rest /\
    exits st' = exits st /\
    fs st' = fs st /\
    requests tr = 1%nat /\
    exists snippet,
      invocation_error r
      = Error ("PixelFrame API request failed (" +:+ Str.of_Z (response_status r) +:+ " "
                 +:+ response_statusText r +:+ "): " +:+ snippet) /\
      (Str.length snippet <= 500)%nat /\
      (response_text r = "" -> snippet = "No response body") /\
      (response_text r <> "" -> (Str.length (response_text r) <= 500)%nat ->
       snippet = response_text r).
Proof.
  intros Hrs Hok.
  destruct (callAgent_fetched h agentUrl apiKey payload context metadata st r rest Hrs)
    as (st1 & tr & E & T & R & X & F & N & _).
  rewrite E, Hok. cbn [negb]. exists st1, tr. repeat split; try assumption.
  unfold invocation_error.
  destruct (quoted_body 500 (response_text r) ltac:(lia)) as (snippet & -> & Hl & He & Hs).
  now exists snippet.
Qed.

(** X12.  When the agent answers 2xx and the answer does not announce a job
    (status processing together with a truthy runId), callAgent returns the
    answer after exactly one request: the parsed body, the object {raw:
    <text>} for a body that is not JSON, undefined for an empty body. *)
Theorem callAgent_answers_directly (h : host) (agentUrl : value) (apiKey : string)
    (payload context metadata : value) (st : state) (r : response)
    (rest : list fetch_outcome) :
  responses st = Responds r :: rest ->
  response_ok r = true ->
  starts_job (agent_answer r) = false ->
  exists st' tr,
    callAgent h agentUrl apiKey payload context metadata st = (Ok (agent_answer r), st') /\
    trace st' = trace st ++ tr /\
    responses st' = rest /\
    exits st' = exits st /\
    fs st' = fs st /\
    requests tr = 1%nat /\
    Forall (fun e => is_log e = true
                     \/ e = invocation_request agentUrl apiKey payload context metadata) tr.
Proof.
  intros Hrs Hok Hjob.
  destruct (callAgent_fetched h agentUrl apiKey payload context metadata st r rest Hrs)
    as (st1 & tr & E & T & R & X & F & N & A).
  rewrite E, Hok, Hjob. cbn [negb]. exists st1, tr. now repeat split.
Qed.

(** X13.  When the agent answers 2xx with status processing and a truthy
    runId, the result of callAgent is the result of pollAgentStatus for that
    runId, with the same API key, against the origin of the agent URL, started
    right after the one invocation request. *)
Theorem callAgent_hands_over_to_poller (h : host) (agentUrl : value)
    (apiKey baseUrl : string) (payload context metadata : value) (st : state)
    (r : response) (rest : list fetch_outcome) :
  responses st = Responds r :: rest ->
  response_ok r = true ->
  starts_job (agent_answer r) = true ->
  url_origin h (Js.to_text agentUrl) = Some baseUrl ->
  exists st1 tr,
    callAgent h agentUrl apiKey payload context metadata st
    = pollAgentStatus h baseUrl apiKey (Js.get (agent_answer r) "runId") st1 /\
    trace st1 = trace st ++ tr /\
    responses st1 = rest /\
    exits st1 = exits st /\
    fs st1 = fs st /\
    requests tr = 1%nat.
Proof.
  intros Hrs Hok Hjob Horigin.
  destruct (callAgent_fetched h agentUrl apiKey payload context metadata st r rest Hrs)
    as (st1 & tr & E & T & R & X & F & N & _).
  rewrite E, Hok, Hjob, Horigin. cbn [negb]. exists st1, tr. now repeat split.
Qed.

Lemma callAgent_rejects_error_status_witness :
  exists st' tr,
    callAgent Sample.host0 (VStr "https://x/agent/run") "key" VNull VNull VNull
      (Sample.world [Responds bad_gateway] [])
    = (Throw (invocation_error bad_gateway), st') /\
    trace st' = [] ++ tr /\
    responses st' = [] /\
    exits st' = [] /\
    fs st' = ∅ /\
    requests tr = 1%nat /\
    exists snippet,
      invocation_error bad_gateway
      = Error ("PixelFrame API request failed (" +:+ Str.of_Z 502 +:+ " "
                 +:+ "Bad Gateway" +:+ "): " +:+ snippet) /\
      (Str.length snippet <= 500)%nat /\
      (response_text bad_gateway = "" -> snippet = "No response body") /\
      (response_text bad_gateway <> "" ->
       (Str.length (response_text bad_gateway) <= 500)%nat ->
       snippet = response_text bad_gateway).
Proof.
  apply (callAgent_rejects_error_status Sample.host0 (VStr "https://x/agent/run") "key"
           VNull VNull VNull (Sample.world [Responds bad_gateway] []) bad_gateway []);
    reflexivity.
Defined.

Lemma callAgent_answers_directly_witness :
  exists st' tr,
    callAgent Sample.host0 (VStr "https://x/agent/run") "key" VNull VNull VNull
      (Sample.world [Responds plain_text] [])
    = (Ok (VObj [("raw", VStr "done")]), st') /\
    trace st' = [] ++ tr /\
    responses st' = [] /\
    exits st' = [] /\
    fs st' = ∅ /\
    requests tr = 1%nat /\
    Forall (fun e => is_log e = true
                     \/ e = invocation_request (VStr "https://x/agent/run") "key" VNull VNull VNull)
      tr.
Proof.
  apply (callAgent_answers_directly Sample.host0 (VStr "https://x/agent/run") "key"
           VNull VNull VNull (Sample.world [Responds plain_text] []) plain_text []);
    reflexivity.
Defined.

Lemma callAgent_hands_over_to_poller_witness :
  exists st1 tr,
    callAgent Sample.host0 (VStr "https://x/agent/run") "key" VNull VNull VNull
      (Sample.world [Responds job_started; Sample.ok_json Sample.completed] [])
    = pollAgentStatus Sample.host0 "https://agent.example" "key" (VStr "abc") st1 /\
    trace st1 = [] ++ tr /\
    responses st1 = [Sample.ok_json Sample.completed] /\
    exits st1 = [] /\
    fs st1 = ∅ /\
    requests tr = 1%nat.
Proof.
  apply (callAgent_hands_over_to_poller Sample.host0 (VStr "https://x/agent/run") "key"
           "https://agent.example" VNull VNull VNull (Sample.world _ []) job_started
           [Sample.ok_json Sample.completed]);
    reflexivity.
Defined.

(** *** File operations *)

Lemma omap_filter_map {A B} (f : A -> option B) (p : A -> bool) (g : A -> B) (l : list A) :
  (forall x, f x = if p x then Some (g x) else None) ->
  omap f l = map g (List.filter p l).
Proof.
  intros H. induction l as [|x l IH]; [reflexivity|].
  change (omap f (x :: l)) with (match f x with Some y => y :: omap f l | None => omap f l end).
  rewrite H, IH. simpl. now destruct (p x).
Qed.

Lemma normalizeFileChanges_filter_map files :
  normalizeFileChanges files
  = map normalized (List.filter usable_entry (Js.array_items files)).
Proof.
  destruct files as [| | | | |entries|]; try reflexivity.
  unfold normalizeFileChanges. cbn [Js.array_items].
  apply omap_filter_map. intros e. unfold usable_entry.
  destruct (Js.truthy e); cbn [negb orb andb]; [|reflexivity].
  destruct (Js.is_object e); cbn [negb orb andb]; [|reflexivity].
  destruct (Js.truthy (Js.get e "path")); reflexivity.
Qed.

(** X14.  normalizeFileChanges keeps, in order, exactly the entries that are
    objects with a truthy path (a value that is not an array gives the empty
    list); every change it returns has a truthy path, contents that are
    neither null nor undefined, and a truthy encoding and mode (defaults utf-8
    and text). *)
Theorem normalizeFileChanges_well_formed (files : value) :
  normalizeFileChanges files
  = map normalized (List.filter usable_entry (Js.array_items files)) /\
  (length (normalizeFileChanges files) <= length (Js.array_items files))%nat /\
  Forall (fun c => Js.truthy (change_path c) = true /\
                   Js.is_nullish (change_contents c) = false /\
                   Js.truthy (change_encoding c) = true /\
                   Js.truthy (change_mode c) = true)
    (normalizeFileChanges files).
Proof.
  rewrite normalizeFileChanges_filter_map. split; [reflexivity|]. split.
  - rewrite length_map. apply List.filter_length_le.
  - apply List.Forall_forall. intros c Hin.
    apply List.in_map_iff in Hin as (e & <- & He).
    apply List.filter_In in He as [_ He]. unfold usable_entry in He.
    apply andb_prop in He as [_ Hpath]. unfold normalized. cbn.
    repeat split; [exact Hpath| | |].
    + destruct (Js.get e "contents"); try reflexivity;
        destruct (Js.get e "content"); reflexivity.
    + unfold Js.or. destruct (Js.truthy (Js.get e "encoding")) eqn:E1; [exact E1|].
      destruct (Js.truthy (Js.get e "contentEncoding")) eqn:E2; [exact E2|reflexivity].
    + unfold Js.or. destruct (Js.truthy (Js.get e "mode")) eqn:E1; [exact E1|reflexivity].
Qed.

Lemma mkdir_all_spec dirs : forall f f',
  Fs.mkdir_all f dirs = Ok f' ->
  (forall d, In d dirs -> f' !! d = Some Dir) /\
  (forall p, ~ In p dirs -> f' !! p = f !! p).
Proof.
  induction dirs as [|d r IH]; intros f f' H.
  - injection H as <-. split; [contradiction|reflexivity].
  - cbn [Fs.mkdir_all] in H.
    assert (Hgo : Fs.mkdir_all (<[d := Dir]> f) r = Ok f').
    { destruct (f !! d) as [[|c]|]; [exact H|discriminate|exact H]. }
    destruct (IH _ _ Hgo) as [Hin Hout]. split.
    + intros x [<-|Hx]; [|now apply Hin].
      destruct (decide (d ∈ r)) as [Hd|Hd]; [apply Hin; now apply list_elem_of_In|].
      rewrite Hout by (intros Hr; apply Hd; now apply list_elem_of_In).
      apply lookup_insert_eq.
    + intros p Hp. rewrite Hout by (intros Hr; apply Hp; now right).
      apply lookup_insert_ne. intros ->. apply Hp. now left.
Qed.

Lemma ancestors_and_self_last above p :
  p <> [] -> In (above ++ p) (Fs.ancestors_and_self above p).
Proof.
  revert above. induction p as [|s r IH]; intros above Hp; [contradiction|].
  cbn [Fs.ancestors_and_self]. destruct r as [|s' r'].
  - left. reflexivity.
  - right. rewrite (cons_middle s), app_assoc. apply IH. discriminate.
Qed.

Lemma mkdir_recursive_dir f d f' :
  Fs.mkdir_recursive f d = Ok f' -> Fs.lookup f' d = Some Dir.
Proof.
  intros H. destruct d as [|s r]; [reflexivity|].
  destruct (mkdir_all_spec _ _ _ H) as [Hin _].
  apply (Hin (s :: r)). apply (ancestors_and_self_last [] (s :: r)). discriminate.
Qed.

Lemma removelast_shorter {A} (p : list A) : p <> [] -> removelast p <> p.
Proof.
  intros Hp E. apply (f_equal (@length A)) in E.
  destruct (exists_last Hp) as (q & x & ->).
  rewrite removelast_last, length_app in E. simpl in E. lia.
Qed.

Lemma bind_inv {A B} (m : M A) (k : A -> M B) st b st' :
  (m ≫= k) st = (Ok b, st') ->
  exists a st1, m st = (Ok a, st1) /\ k a st1 = (Ok b, st').
Proof.
  unfold mbind, M_bind. destruct (m st) as [[a|e] st1]; [|discriminate]. eauto.
Qed.

Lemma fs_step_inv e op st st' :
  fs_step e op st = (Ok tt, st') ->
  exists f, op (fs st) = Ok f /\ st' = set_fs f (add_event e st).
Proof.
  unfold fs_step. cbv zeta. destruct (op (fs st)) as [f|err]; [|discriminate].
  intros [= <-]. eauto.
Qed.

Lemma writeFileChange_steps h change s :
  change_path change = VStr s ->
  writeFileChange h change
  = (fs_step (Mkdir (Path.dirname (Path.resolve (cwd h) s)))
       (fun f => Fs.mkdir_recursive f (Path.dirname (Path.resolve (cwd h) s))) ;;
     fs_step (WriteFile (Path.resolve (cwd h) s) (written_content change))
       (fun f => Fs.writeFile f (Path.resolve (cwd h) s) (written_content change))).
Proof.
  intros E. unfold writeFileChange, resolve_in_cwd, written_content. rewrite E. cbv zeta.
  destruct (Js.is_str "binary" (change_mode change)); reflexivity.
Qed.

(** X15.  When writeFileChange succeeds, the path of the change is a string,
    the file system holds at the resolved path a regular file with the content
    handed to fs.writeFile, its parent is a directory, and the only two
    effects are the recursive mkdir of the parent followed by the write. *)
Theorem writeFileChange_stores_file (h : host) (change : file_change) (st st' : state) :
  writeFileChange h change st = (Ok tt, st') ->
  exists s,
    change_path change = VStr s /\
    Fs.lookup (fs st') (Path.resolve (cwd h) s) = Some (File (written_content change)) /\
    Fs.lookup (fs st') (Path.dirname (Path.resolve (cwd h) s)) = Some Dir /\
    trace st'
    = trace st ++ [ Mkdir (Path.dirname (Path.resolve (cwd h) s));
                    WriteFile (Path.resolve (cwd h) s) (written_content change) ] /\
    responses st' = responses st /\
    exits st' = exits st.
Proof.
  intros H.
  assert (Hs : exists s, change_path change = VStr s).
  { unfold writeFileChange, resolve_in_cwd in H.
    destruct (change_path change); try discriminate H. eauto. }
  destruct Hs as [s Hs]. exists s. split; [exact Hs|].
  rewrite (writeFileChange_steps h change s Hs) in H.
  apply bind_inv in H as ([] & st1 & H1 & H2).
  apply fs_step_inv in H1 as (f1 & Hmk & ->).
  apply fs_step_inv in H2 as (f2 & Hw & ->).
  cbn [fs trace responses exits set_fs add_event] in *.
  set (p := Path.resolve (cwd h) s) in *.
  unfold Fs.writeFile in Hw.
  assert (Hp : p <> []).
  { intros E. rewrite E in Hw. discriminate. }
  assert (Hd : Fs.lookup f1 (Path.dirname p) = Some Dir) by exact (mkdir_recursive_dir _ _ _ Hmk).
  rewrite Hd in Hw.
  assert (E2 : f2 = <[p := File (written_content change)]> f1).
  { destruct (Fs.lookup f1 p) as [[|c]|]; congruence. }
  subst f2. split; [|split; [|split; [now rewrite <- app_assoc|split; reflexivity]]].
  - destruct p as [|x q]; [contradiction|]. cbn [Fs.lookup]. apply lookup_insert_eq.
  - destruct (Path.dirname p) as [|x q] eqn:Ed; [reflexivity|].
    cbn [Fs.lookup] in *. rewrite lookup_insert_ne; [exact Hd|].
    rewrite <- Ed. intros E. now apply (removelast_shorter _ Hp).
Qed.

Lemma writeFileChange_stores_file_witness :
  exists s,
    VStr "docs/a.txt" = VStr s /\
    Fs.lookup (fs (writeFileChange Sample.host0 (normalized (VObj [("path", VStr "docs/a.txt")]))
                     (Sample.world [] [])).2)
      (Path.resolve "/work/repo" s)
    = Some (File (Utf8 (Plain (VStr "")))) /\
    Fs.lookup (fs (writeFileChange Sample.host0 (normalized (VObj [("path", VStr "docs/a.txt")]))
                     (Sample.world [] [])).2)
      (Path.dirname (Path.resolve "/work/repo" s))
    = Some Dir /\
    trace (writeFileChange Sample.host0 (normalized (VObj [("path", VStr "docs/a.txt")]))
             (Sample.world [] [])).2
    = [] ++ [ Mkdir (Path.dirname (Path.resolve "/work/repo" s));
              WriteFile (Path.resolve "/work/repo" s) (Utf8 (Plain (VStr ""))) ] /\
    responses (writeFileChange Sample.host0 (normalized (VObj [("path", VStr "docs/a.txt")]))
                 (Sample.world [] [])).2 = [] /\
    exits (writeFileChange Sample.host0 (normalized (VObj [("path", VStr "docs/a.txt")]))
             (Sample.world [] [])).2 = [].
Proof.
  apply (writeFileChange_stores_file Sample.host0
           (normalized (VObj [("path", VStr "docs/a.txt")])) (Sample.world [] [])).
  vm_compute. reflexivity.
Defined.

Lemma rm_removes_only f p f' q :
  Fs.rm true true f p = Ok f' -> f !! q = None -> f' !! q = None.
Proof.
  intros H Hq. apply rm_shrinks in H.
  destruct (f' !! q) as [x|] eqn:E; [|reflexivity].
  rewrite (lookup_weaken _ _ _ _ E H) in Hq. discriminate.
Qed.

Lemma rm_removes_target f p f' :
  Fs.rm true true f p = Ok f' -> f' !! p = None.
Proof.
  unfold Fs.rm. destruct (Fs.lookup f p) as [[|c]|] eqn:E.
  - intros [= <-]. apply map_lookup_filter_None. right. intros x _ Hn. now apply Hn.
  - intros [= <-]. apply lookup_delete_eq.
  - destruct (Fs.below_file f p); [discriminate|]. intros [= <-].
    destruct p; [discriminate|exact E].
Qed.

Lemma toDebug_keeps_fs h msg st st' : toDebug h msg st = (Ok tt, st') -> fs st' = fs st.
Proof.
  unfold toDebug. destruct (String.eqb _ _); intros [= <-]; reflexivity.
Qed.

Lemma deletion_step_spec h s st st' :
  (removeFile h s ;; toDebug h ("Removed file " +:+ s)) st = (Ok tt, st') ->
  (forall q, fs st !! q = None -> fs st' !! q = None) /\
  fs st' !! Path.resolve (cwd h) s = None.
Proof.
  intros H. apply bind_inv in H as ([] & st1 & H1 & H2).
  apply toDebug_keeps_fs in H2. rewrite H2.
  unfold removeFile in H1. cbv zeta in H1. apply fs_step_inv in H1 as (f & Hrm & ->).
  cbn [fs set_fs add_event]. split.
  - intros q. now apply rm_removes_only with (p := Path.resolve (cwd h) s).
  - now apply rm_removes_target with (f := fs st).
Qed.

Lemma deletion_loop_spec h (items : list value) : forall st st',
  for_of items
    (fun item =>
       match deletion_path item with
       | Some s => removeFile h s ;; toDebug h ("Removed file " +:+ s)
       | None => mret tt
       end) st = (Ok tt, st') ->
  (forall q, fs st !! q = None -> fs st' !! q = None) /\
  (forall item s, In item items -> deletion_path item = Some s ->
                  fs st' !! Path.resolve (cwd h) s = None).
Proof.
  induction items as [|item r IH]; intros st st' H.
  - injection H as <-. split; [auto|contradiction].
  - cbn [for_of] in H. apply bind_inv in H as ([] & st1 & H1 & H2).
    destruct (IH _ _ H2) as [Hkeep Hgone].
    assert (Hstep : (forall q, fs st !! q = None -> fs st1 !! q = None) /\
                    (forall s, deletion_path item = Some s ->
                               fs st1 !! Path.resolve (cwd h) s = None)).
    { destruct (deletion_path item) as [s|].
      - destruct (deletion_step_spec h s st st1 H1) as [K G]. split; [exact K|].
        now intros ? [= <-].
      - injection H1 as <-. split; [auto|discriminate]. }
    destruct Hstep as [K G]. split; [auto|].
    intros x s [<-|Hin] Hs; [apply Hkeep; now apply G|now apply (Hgone x)].
Qed.

Lemma applyFileOperations_deletions_last h plan st st' :
  applyFileOperations h plan st = (Ok tt, st') ->
  exists st1,
    for_of (deletions_of plan)
      (fun item =>
         match deletion_path item with
         | Some s => removeFile h s ;; toDebug h ("Removed file " +:+ s)
         | None => mret tt
         end) st1 = (Ok tt, st').
Proof.
  unfold applyFileOperations. cbv zeta. intros H.
  apply bind_inv in H as ([] & st0 & _ & H).
  apply bind_inv in H as ([] & st1 & _ & H).
  exists st1. rewrite <- H. unfold deletions_of.
  generalize (if Js.is_array (Js.get plan "deletions")
              then Js.array_items (Js.get plan "deletions") else []).
  intros items. clear H. revert st1.
  induction items as [|item r IH]; intros st1; [reflexivity|].
  cbn [for_of]. rewrite <- deletion_step. unfold mbind, M_bind.
  destruct (_ st1) as [[[]|e] st2]; [apply IH|reflexivity].
Qed.

(** X16.  After applyFileOperations succeeds, every path named by a deletion
    of the plan (a string item or the string path of an object item) is absent
    from the file system, also when the same plan wrote that path: deletions
    run after all writes and later deletions never restore anything. *)
Theorem deleted_paths_are_absent (h : host) (plan : value) (st st' : state) :
  applyFileOperations h plan st = (Ok tt, st') ->
  forall item s,
    In item (deletions_of plan) ->
    deletion_path item = Some s ->
    Fs.lookup (fs st') (Path.resolve (cwd h) s) = None \/ Path.resolve (cwd h) s = [].
Proof.
  intros H item s Hin Hs.
  destruct (applyFileOperations_deletions_last h plan st st' H) as (st1 & Hloop).
  destruct (deletion_loop_spec h _ _ _ Hloop) as [_ Hgone].
  specialize (Hgone item s Hin Hs).
  destruct (Path.resolve (cwd h) s); [now right|now left].
Qed.

Lemma resolve_dot cwd : Path.resolve cwd "." = Path.root cwd.
Proof.
  unfold Path.root, Path.resolve. cbn [Str.nonempty Str.starts_with_slash].
  change (cwd +:+ "/" +:+ "." +:+ "/") with (cwd +:+ String "/" "./").
  change (cwd +:+ "/") with (cwd +:+ String "/" "").
  rewrite !split_slash_app, !normalize_app. reflexivity.
Qed.

(** X17.  A deletion whose path is the empty string or '.', given as a string
    item or as {path}, is not skipped: it resolves to the working directory
    itself, and the applier removes that directory with everything below it. *)
Theorem empty_deletion_path_removes_working_tree (h : host) (item : value) (st : state) :
  deletion_path item = Some "" \/ deletion_path item = Some "." ->
  Fs.lookup (fs st) (Path.root (cwd h)) = Some Dir ->
  exists st',
    applyFileOperations h (VObj [("deletions", VArr [item])]) st = (Ok tt, st') /\
    In (Rm (Path.root (cwd h)))
      (effects (applyFileOperations h (VObj [("deletions", VArr [item])])) st) /\
    forall q, Path.inside (Path.root (cwd h)) q -> fs st' !! q = None.
Proof.
  intros Hitem Hroot.
  assert (Hs : exists s, deletion_path item = Some s /\ Path.resolve (cwd h) s = Path.root (cwd h)).
  { destruct Hitem as [E|E]; eexists; (split; [exact E|]); [reflexivity|apply resolve_dot]. }
  destruct Hs as (s & Hs & Hres).
  unfold applyFileOperations. cbv zeta.
  change (Js.get (VObj [("deletions", VArr [item])]) "deletions") with (VArr [item]).
  change (normalizeFileChanges _) with (@nil file_change).
  cbn [Js.is_array Js.array_items length Nat.ltb Nat.leb for_of].
  rewrite deletion_step, Hs. unfold removeFile. cbv zeta. rewrite Hres.
  assert (Hrm : Fs.rm true true (fs st) (Path.root (cwd h))
                = Ok (filter (fun kv => ~ Path.root (cwd h) `prefix_of` kv.1) (fs st))).
  { unfold Fs.rm. now rewrite Hroot. }
  assert (Hrun : forall m : M unit,
             (forall st0, exists tr, m st0 = (Ok tt, mkState (trace st0 ++ tr) (responses st0)
                                                      (exits st0) (fs st0) (lastLoggedStatus st0))) ->
             exists st',
               (mret tt ≫= (fun _ => mret tt ≫= (fun _ =>
                  (fs_step (Rm (Path.root (cwd h)))
                     (fun f => Fs.rm true true f (Path.root (cwd h))) ≫= (fun _ => m))
                  ≫= (fun _ => mret tt)))) st = (Ok tt, st') /\
               (exists tr, trace st' = trace st ++ Rm (Path.root (cwd h)) :: tr) /\
               fs st' = filter (fun kv => ~ Path.root (cwd h) `prefix_of` kv.1) (fs st)).
  { intros m Hm.
    destruct (Hm (set_fs (filter (fun kv => ~ Path.root (cwd h) `prefix_of` kv.1) (fs st))
                    (add_event (Rm (Path.root (cwd h))) st))) as (tr & Em).
    eexists. split.
    - unfold mbind, M_bind, mret, M_ret, fs_step. cbv zeta. rewrite Hrm. cbv iota beta.
      rewrite Em. reflexivity.
    - cbn [trace fs set_fs add_event]. split; [|reflexivity].
      exists tr. now rewrite <- app_assoc. }
  destruct (Hrun (toDebug h ("Removed file " +:+ s))) as (st' & E & (tr & T) & F).
  { intros st0. unfold toDebug. destruct (String.eqb _ _).
    - eexists [_]. reflexivity.
    - exists []. rewrite app_nil_r. now destruct st0. }
  exists st'. split; [exact E|]. split.
  - rewrite (effects_of_trace _ st (Rm (Path.root (cwd h)) :: tr)); [now left|].
    now rewrite E.
  - intros q Hq. rewrite F. apply map_lookup_filter_None. right.
    intros x _ Hn. now apply Hn.
Qed.

Lemma deleted_paths_are_absent_witness :
  Fs.lookup (fs (applyFileOperations Sample.host0 write_then_delete checked_out).2)
    (Path.resolve "/work/repo" "./a.txt") = None
  \/ Path.resolve "/work/repo" "./a.txt" = [].
Proof.
  apply (deleted_paths_are_absent Sample.host0 write_then_delete checked_out _)
    with (item := VObj [("path", VStr "./a.txt")]).
  - vm_compute. reflexivity.
  - left. reflexivity.
  - reflexivity.
Defined.

Lemma empty_deletion_path_removes_working_tree_witness :
  exists st',
    applyFileOperations Sample.host0 (VObj [("deletions", VArr [VStr ""])]) checked_out
    = (Ok tt, st') /\
    In (Rm (Path.root "/work/repo"))
      (effects (applyFileOperations Sample.host0 (VObj [("deletions", VArr [VStr ""])]))
         checked_out) /\
    forall q, Path.inside (Path.root "/work/repo") q -> fs st' !! q = None.
Proof.
  apply (empty_deletion_path_removes_working_tree Sample.host0 (VStr "") checked_out).
  - left. reflexivity.
  - vm_compute. reflexivity.
Defined.

(** *** Git commands and GitHub requests *)

Lemma runCommand_next command args st o rest :
  exits st = o :: rest ->
  runCommand command args st
  = (match o with
     | SpawnFailed why => Throw (Error why)
     | Closed (Some 0) => Ok tt
     | Closed code =>
         Throw (Error (command +:+ " " +:+ Str.join " " args +:+ " exited with code "
                         +:+ exit_code_text code))
     end, spawned command args o rest st).
Proof.
  intros E. unfold runCommand. rewrite E. destruct o as [why|[[|p|p]|]]; reflexivity.
Qed.

Lemma runCommand_clean command args st rest :
  exits st = Closed (Some 0) :: rest ->
  runCommand command args st = (Ok tt, spawned command args (Closed (Some 0)) rest st).
Proof. intros E. now rewrite (runCommand_next _ _ _ _ _ E). Qed.

Lemma runCommand_fails command args st o rest :
  exits st = o :: rest -> o <> Closed (Some 0) ->
  exists e, runCommand command args st = (Throw e, spawned command args o rest st).
Proof.
  intros E Ho. rewrite (runCommand_next _ _ _ _ _ E).
  destruct o as [why|[[|p|p]|]]; try (eexists; reflexivity). contradiction.
Qed.

(** X18.  After a successful git add, stageAndCommit returns false without
    committing exactly when git diff --cached --quiet exits 0; whenever that
    command ends in any other way (non-zero exit, signal, or failure to spawn)
    it runs git commit -m <message>, and then returns true exactly when the
    commit exits 0 and raises otherwise. *)
Theorem stageAndCommit_commits_unless_clean (message : value) (st : state)
    (diff commit : spawn_outcome) (rest : list spawn_outcome) :
  exits st = Closed (Some 0) :: diff :: commit :: rest ->
  (diff = Closed (Some 0) ->
   stageAndCommit message st
   = (Ok false,
      add_event (Annotation Notice "No staged changes detected; skipping commit.")
        (spawned "git" ["diff"; "--cached"; "--quiet"] diff (commit :: rest)
           (spawned "git" ["add"; "--all"] (Closed (Some 0)) (diff :: commit :: rest) st)))) /\
  (diff <> Closed (Some 0) ->
   (stageAndCommit message st).2
   = spawned "git" ["commit"; "-m"; Js.to_text message] commit rest
       (spawned "git" ["diff"; "--cached"; "--quiet"] diff (commit :: rest)
          (spawned "git" ["add"; "--all"] (Closed (Some 0)) (diff :: commit :: rest) st)) /\
   ((stageAndCommit message st).1 = Ok true <-> commit = Closed (Some 0)) /\
   (stageAndCommit message st).1 <> Ok false).
Proof.
  intros E. unfold stageAndCommit.
  rewrite (bind_ok _ _ _ _ _ (runCommand_clean "git" ["add"; "--all"] st _ E)).
  set (st1 := spawned "git" ["add"; "--all"] (Closed (Some 0)) (diff :: commit :: rest) st).
  assert (E1 : exits st1 = diff :: commit :: rest) by reflexivity.
  split.
  - intros ->. unfold try_catch.
    rewrite (bind_ok _ _ _ _ _ (runCommand_clean "git" ["diff"; "--cached"; "--quiet"] st1 _ E1)).
    reflexivity.
  - intros Hdiff. unfold try_catch.
    destruct (runCommand_fails "git" ["diff"; "--cached"; "--quiet"] st1 diff _ E1 Hdiff)
      as (e & Ediff).
    rewrite (bind_throw _ _ _ _ _ Ediff).
    set (st2 := spawned "git" ["diff"; "--cached"; "--quiet"] diff (commit :: rest) st1).
    assert (E2 : exits st2 = commit :: rest) by reflexivity.
    unfold mbind at 1, M_bind at 1.
    rewrite (runCommand_next "git" ["commit"; "-m"; Js.to_text message] st2 _ _ E2).
    destruct commit as [why|[[|p|p]|]]; cbn;
      repeat split; try intro; try reflexivity; try discriminate.
Qed.

Lemma stageAndCommit_commits_unless_clean_witness :
  (stageAndCommit (VStr "update")
     (Sample.world [] [Sample.clean; SpawnFailed "spawn git EAGAIN"; Sample.clean])).1
  = Ok true.
Proof.
  destruct (stageAndCommit_commits_unless_clean (VStr "update")
              (Sample.world [] [Sample.clean; SpawnFailed "spawn git EAGAIN"; Sample.clean])
              (SpawnFailed "spawn git EAGAIN") Sample.clean [] eq_refl) as [_ H].
  destruct (H ltac:(discriminate)) as (_ & Hiff & _).
  apply Hiff. reflexivity.
Defined.

Lemma githubRequest_answered token method url body st r rest :
  responses st = Responds r :: rest ->
  exists st1 tr,
    githubRequest token method url body st
    = ((if response_ok r then Ok (github_answer r) else Throw (github_error r)), st1) /\
    trace st1 = trace st ++ github_call token method url body :: tr /\
    responses st1 = rest /\
    exits st1 = exits st /\
    fs st1 = fs st /\
    Forall (fun e => is_log e = true) tr.
Proof.
  intros Hrs. unfold githubRequest. cbv zeta.
  destruct (fetch_responds method url
              ([ ("Authorization", "Bearer " +:+ token); ("User-Agent", USER_AGENT);
                 ("Accept", "application/vnd.github+json") ]
               ++ (match body with Some _ => [("Content-Type", "application/json")] | None => [] end))
              body st r rest Hrs) as (st3 & E3 & T3 & R3 & X3 & F3 & _).
  rewrite (bind_ok _ _ _ _ _ E3). cbv zeta. unfold github_answer, github_error.
  destruct (Str.nonempty (response_text r)) eqn:Hraw; cbv iota.
  - destruct (JSON_parse r) as [why|d] eqn:Hparse; cbv iota.
    + rewrite bind_assoc.
      match goal with
      | |- context [(toWarning ?msg ≫= _) _] => run_logs (logs_only_toWarning msg)
      end.
      rewrite (bind_ok (mret _) _ st0 _ st0 eq_refl).
      exists st0, tr. split; [now destruct (response_ok r)|].
      split; [now rewrite T, T3, <- app_assoc|].
      split; [congruence|]. split; [congruence|]. split; [congruence|exact A].
    + rewrite (bind_ok (mret _) _ st3 _ st3 eq_refl).
      exists st3, []. split; [now destruct (response_ok r)|].
      split; [exact T3|]. split; [exact R3|]. split; [exact X3|]. split; [exact F3|constructor].
  - rewrite (bind_ok (mret _) _ st3 _ st3 eq_refl).
    exists st3, []. split; [now destruct (response_ok r)|].
    split; [exact T3|]. split; [exact R3|]. split; [exact X3|]. split; [exact F3|constructor].
Qed.

Lemma emits_githubRequest_call P token method url body :
  (forall l m, P (Annotation l m)) ->
  P (github_call token method url body) ->
  emits P (githubRequest token method url body).
Proof.
  intros Ha Hr. unfold githubRequest, toWarning, github_call in *. repeat emits_step; auto.
Qed.

(** X19.  githubRequest sends exactly one request, with 'Authorization: Bearer
    <token>', the User-Agent and Accept headers and, only when there is a
    body, Content-Type; a 2xx answer returns the parsed body, {raw: <text>}
    when it is not JSON, null when it is empty; any other status raises
    'GitHub API request failed (<status> <statusText>): <snippet>', where
    the snippet is 'No response body' for an empty body and else the first
    400 UTF-16 code units of the body, the whole body when it has no more. *)
Theorem githubRequest_sends_one_authorised_request (token method url : string)
    (body : option value) (st : state) (r : response) (rest : list fetch_outcome) :
  responses st = Responds r :: rest ->
  exists st' tr,
    githubRequest token method url body st
    = ((if response_ok r then Ok (github_answer r) else Throw (github_error r)), st') /\
    trace st' = trace st ++ github_call token method url body :: tr /\
    Forall (fun e => is_log e = true) tr /\
    responses st' = rest /\
    exits st' = exits st /\
    fs st' = fs st /\
    (response_text r = "" -> github_answer r = VNull) /\
    exists snippet,
      github_error r
      = Error ("GitHub API request failed (" +:+ Str.of_Z (response_status r) +:+ " "
                 +:+ response_statusText r +:+ "): " +:+ snippet) /\
      (Str.length snippet <= 400)%nat /\
      (response_text r = "" -> snippet = "No response body") /\
      (response_text r <> "" -> (Str.length (response_text r) <= 400)%nat ->
       snippet = response_text r).
Proof.
  intros Hrs.
  destruct (githubRequest_answered token method url body st r rest Hrs)
    as (st1 & tr & E & T & R & X & F & A).
  exists st1, tr. repeat split; try assumption.
  - intros Hempty. unfold github_answer. now rewrite Hempty.
  - unfold github_error.
    destruct (quoted_body 400 (response_text r) ltac:(lia)) as (snippet & -> & Hl & He & Hs).
    now exists snippet.
Qed.

Lemma githubRequest_sends_one_authorised_request_witness :
  exists st' tr,
    githubRequest "ghs_token" "PUT" "https://api.github.com/repos/acme/widgets/pulls/7/merge"
      (Some (VObj [("merge_method", VStr "squash")]))
      (Sample.world [Responds Sample.no_content] [])
    = (Ok VNull, st') /\
    trace st'
    = [] ++ github_call "ghs_token" "PUT" "https://api.github.com/repos/acme/widgets/pulls/7/merge"
              (Some (VObj [("merge_method", VStr "squash")])) :: tr /\
    Forall (fun e => is_log e = true) tr /\
    responses st' = [] /\
    exits st' = [] /\
    fs st' = ∅ /\
    (response_text Sample.no_content = "" -> github_answer Sample.no_content = VNull) /\
    exists snippet,
      github_error Sample.no_content
      = Error ("GitHub API request failed (" +:+ Str.of_Z 204 +:+ " "
                 +:+ "No Content" +:+ "): " +:+ snippet) /\
      (Str.length snippet <= 400)%nat /\
      (response_text Sample.no_content = "" -> snippet = "No response body") /\
      (response_text Sample.no_content <> "" ->
       (Str.length (response_text Sample.no_content) <= 400)%nat ->
       snippet = response_text Sample.no_content).
Proof.
  apply (githubRequest_sends_one_authorised_request "ghs_token" "PUT"
           "https://api.github.com/repos/acme/widgets/pulls/7/merge"
           (Some (VObj [("merge_method", VStr "squash")]))
           (Sample.world [Responds Sample.no_content] []) Sample.no_content []).
  reflexivity.
Defined.

(** X20.  Every HTTP request maybeMergePullRequest makes is a PUT to the merge
    endpoint of the pull request whose merge_method is the lower-cased
    strategy and is one of merge, squash and rebase; it needs a known
    repository and a string strategy. *)
Theorem merge_request_names_supported_method (repository : option repo)
    (number strategy : value) (token : string) :
  emits (fun e =>
           is_request e = true ->
           exists r method,
             repository = Some r /\
             In method supported_merge_methods /\
             (exists s, strategy = VStr s /\ method = Str.toLowerCase s) /\
             e = github_call token "PUT"
                   (pulls_url r +:+ "/" +:+ Js.to_text number +:+ "/merge")
                   (Some (VObj [("merge_method", VStr method)])))
    (maybeMergePullRequest repository number strategy token).
Proof.
  unfold maybeMergePullRequest.
  destruct repository as [r|]; [|apply emits_ret].
  destruct (_ || _)%bool; [apply emits_ret|].
  destruct strategy as [| | | |s| |]; try apply emits_throw.
  cbv zeta. destruct (is_supported (Str.toLowerCase s)) eqn:Hs; cbn [negb].
  - apply emits_bind; [|intros _; apply emits_emit; discriminate].
    apply emits_githubRequest_call; [discriminate|].
    intros _. exists r, (Str.toLowerCase s). repeat split; eauto.
    unfold is_supported in Hs. apply existsb_exists in Hs as (x & Hx & Heq).
    apply String.eqb_eq in Heq. now subst.
  - apply emits_emit. discriminate.
Qed.

(** X21.  Without a repository, a branch or a token, createOrUpdatePullRequest
    returns null and does nothing. Otherwise it logs one notice and sends one
    request: when the plan carries a pull request number, a PATCH of that pull
    request, returning that number whatever the answer holds; else a POST
    creating the pull request (base defaulting to main), returning the number
    of the answer or null when it has none. *)
Theorem createOrUpdatePullRequest_outcome (repository : option repo)
    (branchName baseBranch prSpec : value) (token : string) (st : state) :
  ((repository = None \/ Js.truthy branchName = false \/ Str.nonempty token = false) ->
   createOrUpdatePullRequest repository branchName baseBranch prSpec token st = (Ok VNull, st)) /\
  (forall repo r rest,
      repository = Some repo ->
      Js.truthy branchName = true ->
      Str.nonempty token = true ->
      responses st = Responds r :: rest ->
      exists st' tr message,
        trace st'
        = trace st
            ++ Annotation Notice message
            :: (if Js.truthy (known_number prSpec) then
                  github_call token "PATCH"
                    (pulls_url repo +:+ "/" +:+ Js.to_text (known_number prSpec))
                    (Some (VObj (pull_request_fields branchName prSpec)))
                else
                  github_call token "POST" (pulls_url repo)
                    (Some (VObj (("head", branchName)
                                   :: ("base", Js.or baseBranch (VStr "main"))
                                   :: pull_request_fields branchName prSpec))))
            :: tr /\
        Forall (fun e => is_log e = true) tr /\
        responses st' = rest /\
        createOrUpdatePullRequest repository branchName baseBranch prSpec token st
        = ((if response_ok r then
              Ok (if Js.truthy (known_number prSpec) then known_number prSpec
                  else created_number (github_answer r))
            else Throw (github_error r)), st')).
Proof.
  split.
  - intros H. unfold createOrUpdatePullRequest.
    destruct repository as [repo|]; [|reflexivity].
    destruct H as [H|[H|H]]; [discriminate| |]; rewrite H; cbn [negb orb]; [reflexivity|].
    now rewrite orb_true_r.
  - intros repo r rest -> Hbranch Htoken Hrs.
    unfold createOrUpdatePullRequest. rewrite Hbranch, Htoken. cbn [negb orb]. cbv zeta.
    fold (known_number prSpec).
    destruct (Js.truthy (known_number prSpec)) eqn:Hn.
    + unfold toNotice. rewrite (bind_ok (emit _) _ st tt _ eq_refl).
      destruct (githubRequest_answered token "PATCH"
                  (pulls_url repo +:+ "/" +:+ Js.to_text (known_number prSpec))
                  (Some (VObj (pull_request_fields branchName prSpec)))
                  (add_event (Annotation Notice
                                ("📝 Updating pull request #" +:+ Js.to_text (known_number prSpec)))
                     st) r rest Hrs)
        as (st1 & tr & E & T & R & _ & _ & A).
      exists st1, tr. eexists. split; [rewrite T; cbn [trace add_event]; now rewrite <- app_assoc|].
      split; [exact A|]. split; [exact R|].
      unfold mbind at 1, M_bind at 1. unfold pull_request_fields in E. rewrite E.
      now destruct (response_ok r).
    + unfold toNotice. rewrite (bind_ok (emit _) _ st tt _ eq_refl).
      destruct (githubRequest_answered token "POST" (pulls_url repo)
                  (Some (VObj (("head", branchName) :: ("base", Js.or baseBranch (VStr "main"))
                                 :: pull_request_fields branchName prSpec)))
                  (add_event (Annotation Notice
                                ("🔀 Creating pull request from " +:+ Js.to_text branchName
                                   +:+ " to " +:+ Js.to_text (Js.or baseBranch (VStr "main"))))
                     st) r rest Hrs)
        as (st1 & tr & E & T & R & _ & _ & A).
      exists st1, tr. eexists. split; [rewrite T; cbn [trace add_event]; now rewrite <- app_assoc|].
      split; [exact A|]. split; [exact R|].
      unfold mbind at 1, M_bind at 1. unfold pull_request_fields in E. rewrite E.
      now destruct (response_ok r).
Qed.

Lemma createOrUpdatePullRequest_outcome_witness :
  exists st' tr message,
    trace st'
    = [] ++ Annotation Notice message
         :: github_call "ghs_token" "PATCH" "https://api.github.com/repos/acme/widgets/pulls/7"
              (Some (VObj (pull_request_fields (VStr "b1") (VObj [("number", VNum 7)]))))
         :: tr /\
    Forall (fun e => is_log e = true) tr /\
    responses st' = [] /\
    createOrUpdatePullRequest (Some (mkRepo "acme" "widgets")) (VStr "b1") VUndef
      (VObj [("number", VNum 7)]) "ghs_token" (Sample.world [Responds Sample.no_content] [])
    = (Ok (VNum 7), st').
Proof.
  apply (proj2 (createOrUpdatePullRequest_outcome (Some (mkRepo "acme" "widgets")) (VStr "b1")
                  VUndef (VObj [("number", VNum 7)]) "ghs_token"
                  (Sample.world [Responds Sample.no_content] []))
           (mkRepo "acme" "widgets") Sample.no_content []); reflexivity.
Defined.

(** X22.  requestReviewsIfNeeded does nothing without a repository, a pull
    request number or a token, or when both the users and the teams to ask are
    empty (reviewers undefined, null, an empty array, or empty users and teams
    arrays); otherwise it sends one POST to .../requested_reviewers; a plain
    non-empty array of reviewers is sent as the users, with no teams. *)
Theorem requestReviewsIfNeeded_outcome (repository : option repo)
    (number reviewers : value) (token : string) (st : state) :
  ((repository = None \/ Js.truthy number = false \/ Str.nonempty token = false
    \/ nobody reviewers = true) ->
   requestReviewsIfNeeded repository number reviewers token st = (Ok tt, st)) /\
  (forall repo r rest,
      repository = Some repo ->
      Js.truthy number = true ->
      Str.nonempty token = true ->
      nobody reviewers = false ->
      responses st = Responds r :: rest ->
      exists st' tr,
        requestReviewsIfNeeded repository number reviewers token st
        = ((if response_ok r then Ok tt else Throw (github_error r)), st') /\
        trace st'
        = trace st
            ++ github_call token "POST"
                 (pulls_url repo +:+ "/" +:+ Js.to_text number +:+ "/requested_reviewers")
                 (Some (VObj [("reviewers", review_users reviewers);
                              ("team_reviewers", review_teams reviewers)]))
            :: tr /\
        Forall (fun e => is_log e = true) tr /\
        responses st' = rest) /\
  (nobody VUndef = true /\ nobody VNull = true /\ nobody (VArr []) = true /\
   nobody (VObj [("users", VArr []); ("teams", VArr [])]) = true /\
   forall u us, nobody (VArr (u :: us)) = false /\ review_users (VArr (u :: us)) = VArr (u :: us)
                /\ review_teams (VArr (u :: us)) = VArr []).
Proof.
  split; [|split].
  - intros H. unfold requestReviewsIfNeeded.
    destruct repository as [repo|]; [|reflexivity].
    destruct (Js.truthy number); cbn [negb orb]; [|reflexivity].
    destruct (Str.nonempty token); cbn [negb orb]; [|reflexivity].
    destruct H as [H|[H|[H|H]]]; try discriminate.
    cbv zeta. fold (review_users reviewers) (review_teams reviewers).
    unfold nobody in H. now rewrite H.
  - intros repo r rest -> Hn Ht Hnobody Hrs. unfold requestReviewsIfNeeded.
    rewrite Hn, Ht. cbn [negb orb]. cbv zeta.
    fold (review_users reviewers) (review_teams reviewers).
    unfold nobody in Hnobody. rewrite Hnobody.
    destruct (githubRequest_answered token "POST"
                (pulls_url repo +:+ "/" +:+ Js.to_text number +:+ "/requested_reviewers")
                (Some (VObj [("reviewers", review_users reviewers);
                             ("team_reviewers", review_teams reviewers)]))
                st r rest Hrs) as (st1 & tr & E & T & R & _ & _ & A).
    exists st1, tr. split; [|now repeat split].
    unfold mbind, M_bind. rewrite E. now destruct (response_ok r).
  - repeat split; reflexivity.
Qed.

Lemma requestReviewsIfNeeded_outcome_witness :
  exists st' tr,
    requestReviewsIfNeeded (Some (mkRepo "acme" "widgets")) (VNum 7) (VArr [VStr "alice"])
      "ghs_token" (Sample.world [Responds Sample.no_content] [])
    = (Ok tt, st') /\
    trace st'
    = [] ++ github_call "ghs_token" "POST"
              "https://api.github.com/repos/acme/widgets/pulls/7/requested_reviewers"
              (Some (VObj [("reviewers", VArr [VStr "alice"]); ("team_reviewers", VArr [])]))
         :: tr /\
    Forall (fun e => is_log e = true) tr /\
    responses st' = [].
Proof.
  apply (proj1 (proj2 (requestReviewsIfNeeded_outcome (Some (mkRepo "acme" "widgets")) (VNum 7)
                         (VArr [VStr "alice"]) "ghs_token"
                         (Sample.world [Responds Sample.no_content] [])))
           (mkRepo "acme" "widgets") Sample.no_content []); reflexivity.
Defined.

Lemma run_all_spec commands : forall outcomes st rest,
  exits st = outcomes ++ rest ->
  length outcomes = length commands ->
  trace (run_all commands st).2 = trace st ++ run_until_failure commands outcomes /\
  ((run_all commands st).1 = Ok tt <-> Forall (fun o => exited_cleanly o = true) outcomes).
Proof.
  induction commands as [|c cs IH]; intros [|o os] st rest E Hlen; try discriminate Hlen.
  - cbn. rewrite app_nil_r. split; [reflexivity|]. split; [constructor|reflexivity].
  - cbn [run_all run_until_failure]. unfold mbind, M_bind.
    rewrite (runCommand_next "git" c st o (os ++ rest) E).
    destruct (exited_cleanly o) eqn:Ho.
    + assert (o = Closed (Some 0)) as -> by (destruct o as [|[[| |]|]]; try discriminate; reflexivity).
      destruct (IH os (spawned "git" c (Closed (Some 0)) (os ++ rest) st) rest eq_refl)
        as [T R]; [now injection Hlen|].
      split; [rewrite T; cbn [trace spawned]; now rewrite <- app_assoc|].
      rewrite R. split; [intros H; now constructor|intros H; now apply Forall_cons in H as [_ ?]].
    + split.
      * destruct o as [why|[[|p|p]|]]; try discriminate Ho; reflexivity.
      * split.
        -- destruct o as [why|[[|p|p]|]]; try discriminate Ho; discriminate.
        -- intros H. apply Forall_cons in H as [H _]. congruence.
Qed.

Lemma run_all_last c st : (runCommand "git" c ;; mret tt) st = runCommand "git" c st.
Proof.
  unfold mbind, M_bind. destruct (runCommand "git" c st) as [[[]|e] st1]; reflexivity.
Qed.

Lemma prepareBranch_run_all h branchName baseBranch st :
  prepareBranch h branchName baseBranch st
  = run_all (branch_commands branchName (base_ref h baseBranch)) st.
Proof.
  unfold prepareBranch, branch_commands. cbv zeta. fold (base_ref h baseBranch).
  cbn [run_all]. do 3 (apply bind_ext; intros _ ?). now rewrite run_all_last.
Qed.

Lemma ensureGitUserConfigured_run_all h commitConfig st :
  commitConfig <> VNull ->
  ensureGitUserConfigured h commitConfig st = run_all (identity_commands h commitConfig) st.
Proof.
  intros Hc. unfold ensureGitUserConfigured, identity_commands. cbv zeta.
  destruct commitConfig; try contradiction; cbn [run_all];
    (apply bind_ext; intros _ ?; now rewrite run_all_last).
Qed.

(** X23.  ensureGitUserConfigured runs git config user.name and then git
    config user.email (the plan's author, else GIT_COMMITTER_NAME /
    GIT_COMMITTER_EMAIL, else the defaults); prepareBranch runs git fetch
    --prune --tags, checkout <base>, pull --ff-only origin <base>, checkout -B
    <branch> <base> with one base ref (the plan's, else GITHUB_BASE_REF, else
    GITHUB_REF_NAME, else main). Each command runs only when the one before
    exited 0, and the function succeeds exactly when all did. *)
Theorem git_setup_runs_in_order (h : host) (st : state) :
  (forall commitConfig o1 o2 rest,
      commitConfig <> VNull ->
      exits st = [o1; o2] ++ rest ->
      effects (ensureGitUserConfigured h commitConfig) st
      = run_until_failure (identity_commands h commitConfig) [o1; o2] /\
      ((ensureGitUserConfigured h commitConfig st).1 = Ok tt
       <-> Forall (fun o => exited_cleanly o = true) [o1; o2])) /\
  (forall branchName baseBranch o1 o2 o3 o4 rest,
      exits st = [o1; o2; o3; o4] ++ rest ->
      effects (prepareBranch h branchName baseBranch) st
      = run_until_failure (branch_commands branchName (base_ref h baseBranch)) [o1; o2; o3; o4] /\
      ((prepareBranch h branchName baseBranch st).1 = Ok tt
       <-> Forall (fun o => exited_cleanly o = true) [o1; o2; o3; o4])).
Proof.
  split.
  - intros commitConfig o1 o2 rest Hc E.
    destruct (run_all_spec (identity_commands h commitConfig) [o1; o2] st rest E eq_refl)
      as [T R].
    rewrite <- (ensureGitUserConfigured_run_all h commitConfig st Hc) in T, R.
    split; [now apply effects_of_trace|exact R].
  - intros branchName baseBranch o1 o2 o3 o4 rest E.
    destruct (run_all_spec (branch_commands branchName (base_ref h baseBranch))
                [o1; o2; o3; o4] st rest E eq_refl) as [T R].
    rewrite <- (prepareBranch_run_all h branchName baseBranch st) in T, R.
    split; [now apply effects_of_trace|exact R].
Qed.

Lemma git_setup_runs_in_order_witness :
  effects (prepareBranch Sample.host0 (VStr "b1") VUndef)
    (Sample.world [] [Sample.clean; Sample.clean; Sample.dirty; Sample.clean])
  = run_until_failure (branch_commands (VStr "b1") (base_ref Sample.host0 VUndef))
      [Sample.clean; Sample.clean; Sample.dirty; Sample.clean] /\
  ((prepareBranch Sample.host0 (VStr "b1") VUndef
      (Sample.world [] [Sample.clean; Sample.clean; Sample.dirty; Sample.clean])).1 = Ok tt
   <-> Forall (fun o => exited_cleanly o = true)
         [Sample.clean; Sample.clean; Sample.dirty; Sample.clean]).
Proof.
  apply (proj2 (git_setup_runs_in_order Sample.host0
                  (Sample.world [] [Sample.clean; Sample.clean; Sample.dirty; Sample.clean]))
           (VStr "b1") VUndef Sample.clean Sample.clean Sample.dirty Sample.clean []).
  reflexivity.
Defined.

(** *** The order of the repository steps *)

Lemma held_back_emits {A} P opener (m : M A) : emits P m -> held_back P opener m.
Proof.
  intros Hm st. destruct (Hm st) as (tr & T & H). exists tr, [].
  rewrite app_nil_r. auto.
Qed.

Lemma held_back_bind {A B} P opener (m : M A) (k : A -> M B) :
  emits P m -> (forall a, held_back P opener (k a)) -> held_back P opener (m ≫= k).
Proof.
  intros Hm Hk st. destruct (Hm st) as (tr & T & H).
  unfold mbind, M_bind. destruct (m st) as [[a|e] st1]; cbn [snd] in T.
  - destruct (Hk a st1) as (before & after & T' & H' & Hopen).
    exists (tr ++ before), after. split; [now rewrite T', T, <- !app_assoc|].
    split; [now apply Forall_app|].
    destruct Hopen as [->|(earlier & g & -> & Hg)]; [now left|right].
    exists (tr ++ earlier), g. now rewrite app_assoc.
  - exists tr, []. rewrite app_nil_r. auto.
Qed.

Lemma held_back_assoc {A B C} P opener (m : M A) (f : A -> M B) (k : B -> M C) :
  held_back P opener (m ≫= (fun x => f x ≫= k)) -> held_back P opener ((m ≫= f) ≫= k).
Proof. intros H st. rewrite bind_assoc. apply H. Qed.

Lemma held_back_after_command {A} (P opener : event -> Prop) command args (k : unit -> M A) :
  (forall o, P (Spawn command args o)) ->
  opener (Spawn command args (Closed (Some 0))) ->
  emits (fun _ => True) (k tt) ->
  held_back P opener (runCommand command args ≫= k).
Proof.
  intros HP Hopen Hk st.
  destruct (runCommand_cases command args st)
    as [(st1 & E1 & T1)|(e & st1 & o & E1 & T1 & Ho)].
  - rewrite (bind_ok _ _ _ _ _ E1). destruct (Hk st1) as (tr & T & _).
    exists [Spawn command args (Closed (Some 0))], tr.
    split; [now rewrite T, T1, <- app_assoc|]. split; [repeat constructor; apply HP|].
    right. exists [], (Spawn command args (Closed (Some 0))). auto.
  - rewrite (bind_throw _ _ _ _ _ E1). exists [Spawn command args o], [].
    cbn [snd]. split; [now rewrite T1|]. split; [repeat constructor; apply HP|now left].
Qed.

Ltac emits_any h :=
  unfold pushBranch, createOrUpdatePullRequest, requestReviewsIfNeeded, stageAndCommit,
    ensureGitUserConfigured, prepareBranch, parseRepository, toNotice, toWarning;
  repeat first
    [ apply emits_githubRequest; intros; try exact I; try reflexivity
    | apply emits_maybeMergePullRequest; intros; try exact I; try reflexivity
    | apply (emits_applyFileOperations h); intros; try exact I; try reflexivity
    | emits_step ];
  cbv beta; try exact I; try reflexivity.

Lemma files_after_checkout h plan token mergeStrategy :
  held_back (fun e => is_file_operation e = false) branch_checked_out
    (maybeApplyRepositoryPlan h plan token mergeStrategy).
Proof.
  unfold maybeApplyRepositoryPlan.
  destruct (negb (Js.truthy plan) || negb (Js.is_object plan))%bool;
    [apply held_back_emits, emits_ret|].
  apply held_back_bind; [emits_any h|intros repository].
  apply held_back_bind; [emits_any h|intros _].
  cbv zeta.
  destruct (negb (Js.truthy _)); [apply held_back_emits; emits_any h|].
  destruct (negb (Str.nonempty token)); [apply held_back_emits; emits_any h|].
  apply held_back_bind; [emits_any h|intros _].
  unfold prepareBranch at 1.
  apply held_back_assoc, held_back_bind; [emits_any h|intros _]. cbv zeta.
  apply held_back_assoc, held_back_bind; [emits_any h|intros _].
  apply held_back_assoc, held_back_bind; [emits_any h|intros _].
  apply held_back_after_command; [reflexivity|unfold branch_checked_out; eauto|].
  emits_any h.
Qed.

Lemma held_back_stageAndCommit {A} (P : event -> Prop) message (k : bool -> M A) :
  (forall args o, P (Spawn "git" args o) \/ exists rest, args = "push" :: rest) ->
  (forall l m, P (Annotation l m)) ->
  emits P (k false) ->
  emits (fun _ => True) (k true) ->
  held_back P commit_made (stageAndCommit message ≫= k).
Proof.
  intros Hspawn Hlog Hfalse Htrue st.
  assert (Hcmd : forall args o, (forall rest, args <> "push" :: rest) -> P (Spawn "git" args o)).
  { intros args o Hne. destruct (Hspawn args o) as [H|[rest ->]]; [exact H|now destruct (Hne rest)]. }
  unfold stageAndCommit. rewrite bind_assoc.
  destruct (runCommand_cases "git" ["add"; "--all"] st)
    as [(st1 & E1 & T1)|(e & st1 & o & E1 & T1 & Ho)].
  2:{ rewrite (bind_throw _ _ _ _ _ E1). exists [Spawn "git" ["add"; "--all"] o], [].
      cbn [snd]. split; [now rewrite T1|]. split; [|now left].
      repeat constructor. apply Hcmd. discriminate. }
  rewrite (bind_ok _ _ _ _ _ E1).
  destruct (runCommand_cases "git" ["diff"; "--cached"; "--quiet"] st1)
    as [(st2 & E2 & T2)|(e & st2 & o & E2 & T2 & Ho)].
  - assert (Htc : forall handler,
               try_catch
                 (runCommand "git" ["diff"; "--cached"; "--quiet"] ;;
                  toNotice "No staged changes detected; skipping commit." ;; mret false)
                 handler st1
               = (Ok false,
                  add_event (Annotation Notice "No staged changes detected; skipping commit.") st2)).
    { intros handler. unfold try_catch. now rewrite (bind_ok _ _ _ _ _ E2). }
    rewrite (bind_ok _ _ _ _ _ (Htc _)).
    destruct (Hfalse (add_event (Annotation Notice "No staged changes detected; skipping commit.")
                        st2)) as (tr & T & H).
    eexists _, []. split; [rewrite T; cbn [trace add_event]; rewrite T2, T1, app_nil_r,
                            <- !app_assoc; reflexivity|].
    split; [|now left].
    constructor; [apply Hcmd; discriminate|]. constructor; [apply Hcmd; discriminate|].
    constructor; [apply Hlog|exact H].
  - assert (Htc : forall (body' : M bool) handler,
               body' st1 = (Throw e, st2) ->
               (try_catch body' handler ≫= k) st1 = (handler e ≫= k) st2).
    { intros body' handler Hb. unfold mbind, M_bind, try_catch. now rewrite Hb. }
    rewrite (Htc _ _ (bind_throw _ _ _ _ _ E2)). rewrite bind_assoc.
    destruct (runCommand_cases "git" ["commit"; "-m"; Js.to_text message] st2)
      as [(st3 & E3 & T3)|(e3 & st3 & o3 & E3 & T3 & Ho3)].
    + rewrite (bind_ok _ _ _ _ _ E3), (bind_ok (mret true) _ st3 _ st3 eq_refl).
      destruct (Htrue st3) as (tr & T & _).
      exists [Spawn "git" ["add"; "--all"] (Closed (Some 0));
              Spawn "git" ["diff"; "--cached"; "--quiet"] o;
              Spawn "git" ["commit"; "-m"; Js.to_text message] (Closed (Some 0))], tr.
      split; [rewrite T, T3, T2, T1, <- !app_assoc; reflexivity|]. split.
      * repeat constructor; apply Hcmd; discriminate.
      * right. exists [Spawn "git" ["add"; "--all"] (Closed (Some 0));
                       Spawn "git" ["diff"; "--cached"; "--quiet"] o],
          (Spawn "git" ["commit"; "-m"; Js.to_text message] (Closed (Some 0))).
        split; [reflexivity|]. unfold commit_made. eauto.
    + rewrite (bind_throw _ _ _ _ _ E3). cbn [snd].
      exists [Spawn "git" ["add"; "--all"] (Closed (Some 0));
              Spawn "git" ["diff"; "--cached"; "--quiet"] o;
              Spawn "git" ["commit"; "-m"; Js.to_text message] o3], [].
      split; [rewrite T3, T2, T1, <- !app_assoc; reflexivity|]. split; [|now left].
      repeat constructor; apply Hcmd; discriminate.
Qed.

Lemma push_after_commit h plan token mergeStrategy :
  held_back (fun e => is_push e = false) commit_made
    (maybeApplyRepositoryPlan h plan token mergeStrategy).
Proof.
  unfold maybeApplyRepositoryPlan.
  destruct (negb (Js.truthy plan) || negb (Js.is_object plan))%bool;
    [apply held_back_emits, emits_ret|].
  apply held_back_bind; [emits_any h|intros repository].
  apply held_back_bind; [emits_any h|intros _].
  cbv zeta.
  destruct (negb (Js.truthy _)); [apply held_back_emits; emits_any h|].
  destruct (negb (Str.nonempty token)); [apply held_back_emits; emits_any h|].
  apply held_back_bind; [emits_any h|intros _].
  apply held_back_bind; [emits_any h|intros _].
  apply held_back_bind; [emits_any h|intros _].
  apply held_back_stageAndCommit.
  - intros [|a rest] o; [now left|]. cbn [is_push].
    destruct (String.eqb a "push") eqn:E; [right|now left].
    apply String.eqb_eq in E. subst. eauto.
  - reflexivity.
  - cbn [negb]. emits_any h.
  - cbn [negb]. emits_any h.
Qed.

Lemma requests_after_push h plan token mergeStrategy :
  held_back (fun e => is_request e = false) branch_pushed
    (maybeApplyRepositoryPlan h plan token mergeStrategy).
Proof.
  unfold maybeApplyRepositoryPlan.
  destruct (negb (Js.truthy plan) || negb (Js.is_object plan))%bool;
    [apply held_back_emits, emits_ret|].
  apply held_back_bind; [emits_any h|intros repository].
  apply held_back_bind; [emits_any h|intros _].
  cbv zeta.
  destruct (negb (Js.truthy _)); [apply held_back_emits; emits_any h|].
  destruct (negb (Str.nonempty token)); [apply held_back_emits; emits_any h|].
  apply held_back_bind; [emits_any h|intros _].
  apply held_back_bind; [emits_any h|intros _].
  apply held_back_bind; [emits_any h|intros _].
  apply held_back_bind; [emits_any h|intros committed].
  destruct (negb committed); [apply held_back_emits; emits_any h|].
  unfold pushBranch at 1.
  apply held_back_after_command; [reflexivity| |emits_any h].
  unfold branch_pushed. destruct (_ || _)%bool; eauto.
Qed.

(** X24.  In every run of maybeApplyRepositoryPlan each step waits for the
    success of the step before: no directory is created and no file is written
    or removed before git checkout -B exited 0; git push is not run before git
    commit exited 0; no HTTP request is made before git push exited 0. *)
Theorem repository_steps_wait_for_success (h : host) (plan : value) (token mergeStrategy : string) :
  held_back (fun e => is_file_operation e = false) branch_checked_out
    (maybeApplyRepositoryPlan h plan token mergeStrategy) /\
  held_back (fun e => is_push e = false) commit_made
    (maybeApplyRepositoryPlan h plan token mergeStrategy) /\
  held_back (fun e => is_request e = false) branch_pushed
    (maybeApplyRepositoryPlan h plan token mergeStrategy).
Proof.
  split; [apply files_after_checkout|split; [apply push_after_commit|apply requests_after_push]].
Qed.

Lemma parseRepository_pure v st :
  exists o, parseRepository v st = (o, st) /\
            ((exists r, o = Ok r) \/ exists m, o = Throw (TypeError m)).
Proof.
  unfold parseRepository. destruct (negb (Js.truthy v)); [eexists; split; eauto|].
  destruct v; try (eexists; split; [reflexivity|]; eauto).
  destruct (Str.split_slash s) as [|o [|n more]]; try (eexists; split; [reflexivity|]; eauto).
  destruct (_ || _)%bool; eexists; split; eauto.
Qed.

(** X25.  A plan that is not an object yields {prNumber: null, prUrl: null}
    with no effect at all. A plan without a branch name, or a run without a
    token, only writes console lines: no command is spawned, no request is
    made, no file is touched, and the result is {null, null} (or the TypeError
    of a repository name that is not a string). *)
Theorem plan_without_branch_or_token_only_logs (h : host) (plan : value)
    (token mergeStrategy : string) (st : state) :
  ((Js.truthy plan && Js.is_object plan)%bool = false ->
   maybeApplyRepositoryPlan h plan token mergeStrategy st = (Ok no_pull_request, st)) /\
  (Js.truthy (plan_branch plan) = false \/ Str.nonempty token = false ->
   exists st' tr,
     trace st' = trace st ++ tr /\
     Forall (fun e => is_log e = true) tr /\
     responses st' = responses st /\
     exits st' = exits st /\
     fs st' = fs st /\
     (maybeApplyRepositoryPlan h plan token mergeStrategy st = (Ok no_pull_request, st') \/
      exists m, maybeApplyRepositoryPlan h plan token mergeStrategy st = (Throw (TypeError m), st'))).
Proof.
  unfold maybeApplyRepositoryPlan. split.
  - intros H. destruct (Js.truthy plan), (Js.is_object plan); try discriminate; reflexivity.
  - intros H.
    destruct (negb (Js.truthy plan) || negb (Js.is_object plan))%bool.
    { exists st, []. rewrite app_nil_r. repeat split; auto. }
    destruct (parseRepository_pure
                (Js.or (Js.get_opt (Js.get plan "repository") "name")
                   (VStr (env h "GITHUB_REPOSITORY"))) st) as (o & Ep & [[r ->]|[m ->]]).
    2:{ rewrite (bind_throw _ _ _ _ _ Ep). exists st, []. rewrite app_nil_r.
        repeat split; eauto. }
    rewrite (bind_ok _ _ _ _ _ Ep).
    match goal with
    | |- context [(?m ≫= _) st] => assert (Hlog : logs_only m)
    end.
    { destruct r; [apply logs_only_ret|apply logs_only_toWarning]. }
    run_logs Hlog. cbv zeta. fold (plan_branch plan).
    destruct (Js.truthy (plan_branch plan)) eqn:Hb; cbn [negb].
    + destruct H as [H|H]; [discriminate|]. rewrite H. cbn [negb].
      match goal with
      | |- context [(toWarning ?msg ≫= _) _] => run_logs (logs_only_toWarning msg)
      end.
      exists st1, (tr ++ tr0). split; [now rewrite T0, T, app_assoc|].
      split; [now apply Forall_app|]. repeat split; try congruence. now left.
    + match goal with
      | |- context [(toNotice ?msg ≫= _) _] => run_logs (logs_only_toNotice msg)
      end.
      exists st1, (tr ++ tr0). split; [now rewrite T0, T, app_assoc|].
      split; [now apply Forall_app|]. repeat split; try congruence. now left.
Qed.

Lemma plan_without_branch_or_token_only_logs_witness :
  exists st' tr,
    trace st' = [] ++ tr /\
    Forall (fun e => is_log e = true) tr /\
    responses st' = [] /\
    exits st' = [Sample.clean] /\
    fs st' = ∅ /\
    (maybeApplyRepositoryPlan Sample.host0 Sample.plan_b1 "" "" (Sample.world [] [Sample.clean])
     = (Ok no_pull_request, st') \/
     exists m,
       maybeApplyRepositoryPlan Sample.host0 Sample.plan_b1 "" "" (Sample.world [] [Sample.clean])
       = (Throw (TypeError m), st')).
Proof.
  apply (proj2 (plan_without_branch_or_token_only_logs Sample.host0 Sample.plan_b1 "" ""
                  (Sample.world [] [Sample.clean]))).
  right. reflexivity.
Defined.

(** X26.  Whenever maybeApplyRepositoryPlan returns, the pull request URL is
    set exactly when the pull request number is truthy, and it is then
    https://github.com/<owner>/<name>/pull/<number> for that number; without a
    number the URL is null. *)
Theorem pull_request_url_goes_with_number (h : host) (plan : value)
    (token mergeStrategy : string) :
  post (fun result =>
          (Js.truthy (prNumber result) = true <-> Js.truthy (prUrl result) = true) /\
          (Js.truthy (prNumber result) = false -> prUrl result = VNull) /\
          (Js.truthy (prNumber result) = true ->
           exists r, prUrl result
                     = VStr ("https://github.com/" +:+ owner r +:+ "/" +:+ name r +:+ "/pull/"
                               +:+ Js.to_text (prNumber result))))
    (maybeApplyRepositoryPlan h plan token mergeStrategy).
Proof.
  intros st result st'. rewrite maybeApplyRepositoryPlan_stages. revert st result st'.
  change (post (fun result =>
          (Js.truthy (prNumber result) = true <-> Js.truthy (prUrl result) = true) /\
          (Js.truthy (prNumber result) = false -> prUrl result = VNull) /\
          (Js.truthy (prNumber result) = true ->
           exists r, prUrl result
                     = VStr ("https://github.com/" +:+ owner r +:+ "/" +:+ name r +:+ "/pull/"
                               +:+ Js.to_text (prNumber result))))
    (reached ← pullRequestStage h plan token;
     match reached with
     | None => mret no_pull_request
     | Some (repository, number) =>
         (if merge_requested plan then
            maybeMergePullRequest repository number (effective_strategy plan mergeStrategy) token
          else mret tt) ;;
         mret (mkResult number
                 (match repository with
                  | Some r => if Js.truthy number then VStr (pull_request_url r number) else VNull
                  | None => VNull
                  end))
     end)).
  eapply post_bind_with; [apply pullRequestStage_known|].
  intros [[repository number]|] Hknown.
  - apply post_bind. intros _. apply post_ret. cbn [prNumber prUrl].
    destruct (Js.truthy number) eqn:Hn.
    + destruct (Hknown eq_refl) as [[r ->] _]. repeat split; try discriminate; eauto.
    + destruct repository; repeat split; try discriminate; auto.
  - apply post_ret. cbn. repeat split; try discriminate; auto.
Qed.

(** *** The entry point *)

Lemma emits_weaken {A} (P Q : event -> Prop) (m : M A) :
  (forall e, P e -> Q e) -> emits P m -> emits Q m.
Proof.
  intros PQ E st. destruct (E st) as (tr & Htr & HP).
  exists tr. split; [assumption|]. eapply Forall_impl; eauto.
Qed.

Lemma silent_logs {A} (m : M A) :
  logs_only m -> emits (fun e => is_report e = false) m.
Proof.
  intros H. apply (emits_weaken (fun e => is_log e = true)); [|now apply logs_only_emits].
  intros [[]| | | | | | | |]; simpl; congruence.
Qed.

Ltac silent :=
  unfold toNotice, toWarning, toDebug;
  repeat first
    [ apply silent_logs, logs_only_logAgentChange
    | apply silent_logs, logs_only_logPipelineStart
    | apply silent_logs, logs_only_logPipelineComplete
    | emits_step ];
  cbv beta; try reflexivity.

Lemma silent_pollLoop h statusUrl apiKey runId : forall remaining attempt,
  emits (fun e => is_report e = false) (pollLoop h remaining attempt statusUrl apiKey runId).
Proof.
  induction remaining as [|n IH]; intros attempt; cbn [pollLoop]; [apply emits_throw|].
  apply emits_bind; [unfold pollAttempt; silent|].
  intros [v|]; [apply emits_ret|apply IH].
Qed.

Lemma silent_callAgent h agentUrl apiKey payload context metadata :
  emits (fun e => is_report e = false)
    (callAgent h agentUrl apiKey payload context metadata).
Proof.
  unfold callAgent, pollAgentStatus.
  silent; apply silent_pollLoop.
Qed.

Lemma silent_maybeApplyRepositoryPlan h plan token mergeStrategy :
  emits (fun e => is_report e = false)
    (maybeApplyRepositoryPlan h plan token mergeStrategy).
Proof.
  unfold maybeApplyRepositoryPlan, pushBranch, createOrUpdatePullRequest,
    requestReviewsIfNeeded, maybeMergePullRequest, githubRequest, stageAndCommit,
    applyFileOperations, writeFileChange, removeFile, resolve_in_cwd,
    ensureGitUserConfigured, prepareBranch, parseRepository.
  silent.
Qed.

Lemma report_is_failure_report e : is_report e = false -> is_failure_report e = false.
Proof. destruct e as [[]| | | | | | | |]; simpl; congruence. Qed.

Lemma report_is_output e : is_report e = false -> output_name e = None.
Proof. destruct e as [[]| | | | | | | |]; simpl; congruence. Qed.

Lemma quiet_run_body h : emits (fun e => is_failure_report e = false) (run_body h).
Proof.
  unfold run_body, getInput, load_payload, resolveAgentUrl.
  repeat first
    [ apply (emits_weaken _ _ _ report_is_failure_report), silent_callAgent
    | apply (emits_weaken _ _ _ report_is_failure_report), silent_maybeApplyRepositoryPlan
    | apply (emits_weaken _ _ _ report_is_failure_report), silent_logs,
        logs_only_logPipelineStart
    | apply (emits_weaken _ _ _ report_is_failure_report), silent_logs,
        logs_only_logPipelineComplete
    | apply (emits_weaken _ _ _ report_is_failure_report), silent_logs, logs_only_toWarning
    | emits_step ];
  unfold setOutput, appendOutputLine; repeat emits_step; reflexivity.
Qed.

Lemma lines_single s : no_char is_break s = true -> lines s = [s].
Proof.
  induction s as [|c s IH]; [reflexivity|]. cbn [no_char lines].
  intros H. apply andb_true_iff in H as [Hc Hs].
  apply negb_true_iff in Hc. rewrite Hc, (IH Hs). reflexivity.
Qed.

(** When every text is a single line, the lines printed are the texts. *)
Lemma console_lines_single h (Q : string -> Prop) tr :
  prints_single_lines h tr ->
  Forall (fun e => forall text, console_text h e = Some text -> Q text) tr ->
  Forall Q (console_lines h tr).
Proof.
  unfold prints_single_lines, console_lines.
  induction tr as [|e tr IH]; intros Hs Hq; [constructor|].
  apply Forall_cons in Hq as [He Hq].
  change (omap (console_text h) (e :: tr))
    with (match console_text h e with
          | Some text => text :: omap (console_text h) tr
          | None => omap (console_text h) tr
          end) in *.
  destruct (console_text h e) as [text|]; [|now apply IH].
  apply Forall_cons in Hs as [Ht Hs]. cbn [map concat].
  rewrite (lines_single _ Ht). constructor; [now apply He|now apply IH].
Qed.

Lemma no_char_app p a b :
  no_char p (a +:+ b) = (no_char p a && no_char p b)%bool.
Proof.
  induction a as [|c a IH]; [reflexivity|].
  rewrite append_cons. cbn [no_char]. rewrite IH. now rewrite andb_assoc.
Qed.

Lemma lines_break a b :
  no_char is_break a = true -> lines (a +:+ Str.LF +:+ b) = a :: lines b.
Proof.
  induction a as [|c a IH]; [reflexivity|]. cbn [no_char]. intros H.
  apply andb_true_iff in H as [Hc Ha]. apply negb_true_iff in Hc.
  rewrite append_cons. cbn [lines]. now rewrite Hc, (IH Ha).
Qed.

(** Messages are printed as they are: a message made of two lines prints
    its second line as a line of its own, whatever that line begins with. *)
Lemma annotation_lines_unescaped h l first second :
  no_char is_break first = true -> no_char is_break second = true ->
  console_lines h [Annotation l (first +:+ Str.LF +:+ second)]
  = [command l +:+ first; second].
Proof.
  intros H1 H2. unfold console_lines. cbn [omap list_omap console_text map concat].
  rewrite app_nil_r.
  replace (command l +:+ first +:+ Str.LF +:+ second)
    with ((command l +:+ first) +:+ Str.LF +:+ second).
  - rewrite lines_break; [now rewrite (lines_single _ H2)|].
    rewrite no_char_app, H1. now destruct l.
  - generalize (command l). intros c. induction c as [|x c IH]; [reflexivity|].
    rewrite !append_cons. now rewrite IH.
Qed.

(** A call that is not the failure report prints no text that begins
    [::error::]. *)
Lemma failure_report_text h e text :
  is_failure_report e = false -> console_text h e = Some text ->
  Str.starts_with "::error::" text = false.
Proof.
  destruct e as [[] m| | | | | | |d n v|]; try discriminate; intros _.
  1-3: now intros [= <-].
  cbn [console_text]. destruct (Str.nonempty d); [discriminate|]. now intros [= <-].
Qed.

(** A call that is not [toDebug]'s prints no text that begins [::debug::]. *)
Lemma debug_line_text h e text :
  is_debug_line e = false -> console_text h e = Some text ->
  Str.starts_with "::debug::" text = false.
Proof.
  destruct e as [[] m| | | | | | |d n v|]; try discriminate; intros _.
  1-3: now intros [= <-].
  cbn [console_text]. destruct (Str.nonempty d); [discriminate|]. now intros [= <-].
Qed.

(** X27.  run never raises. Its try block never calls setFailed and sets no
    exit code; when the block raises, and only then, run ends with the call
    that prints ::error:: and the message of the error, followed by exit code
    1. Messages and output values are printed unescaped: provided that no
    text the block prints holds a line feed or carriage return, no line it
    prints begins with ::error::. *)
Theorem run_reports_failure_at_the_end (h : host) (st : state) :
  (exists st', run h st = (Ok tt, st')) /\
  Forall (fun e => is_failure_report e = false) (effects (run_body h) st) /\
  match (run_body h st).1 with
  | Ok _ => effects (run h) st = effects (run_body h) st
  | Throw e =>
      effects (run h) st
      = effects (run_body h) st ++ [Annotation Failure (exn_message e); ExitCode 1]
  end /\
  (prints_single_lines h (effects (run_body h) st) ->
   Forall (fun line => Str.starts_with "::error::" line = false)
     (console_lines h (effects (run_body h) st))).
Proof.
  pose proof (quiet_run_body h st) as (tr & T & Hquiet).
  rewrite (effects_of_trace _ _ _ T).
  assert (Hlines : prints_single_lines h tr ->
                   Forall (fun line => Str.starts_with "::error::" line = false)
                     (console_lines h tr)).
  { intros Hs. apply console_lines_single; [exact Hs|].
    eapply Forall_impl; [exact Hquiet|]. intros e He text. now apply failure_report_text. }
  destruct (run_body h st) as [[[]|e] st1] eqn:E; cbn [fst snd] in *.
  - assert (R : run h st = (Ok tt, st1)) by (unfold run, try_catch; now rewrite E).
    split; [eauto|]. split; [exact Hquiet|]. split; [|exact Hlines].
    apply effects_of_trace. now rewrite R.
  - assert (R : run h st
                = (Ok tt, add_event (ExitCode 1)
                            (add_event (Annotation Failure (exn_message e)) st1))).
    { unfold run, try_catch. rewrite E. reflexivity. }
    split; [eauto|]. split; [exact Hquiet|]. split; [|exact Hlines].
    apply effects_of_trace.
    rewrite R. cbn. rewrite T, <- !app_assoc. reflexivity.
Qed.

Lemma run_reports_failure_at_the_end_witness :
  Forall (fun line => Str.starts_with "::error::" line = false)
    (console_lines Sample.host0 (effects (run_body Sample.host0) Sample.scenario)).
Proof.
  apply (proj2 (proj2 (proj2 (run_reports_failure_at_the_end Sample.host0 Sample.scenario)))).
  vm_compute. repeat constructor.
Defined.

Lemma output_names_app tr1 tr2 :
  output_names (tr1 ++ tr2) = output_names tr1 ++ output_names tr2.
Proof. unfold output_names. apply omap_app. Qed.

Lemma output_names_none tr :
  Forall (fun e => output_name e = None) tr -> output_names tr = [].
Proof.
  induction 1 as [|e tr He _ IH]; [reflexivity|].
  unfold output_names in *. cbn. now rewrite He.
Qed.

Lemma within_silent {A} h (m : M A) :
  emits (fun e => is_report e = false) m -> publishes_within h [] m.
Proof.
  intros H st. destruct (H st) as (tr & T & Hnone). exists tr. split; [exact T|]. split.
  - rewrite output_names_none; [constructor|].
    eapply Forall_impl; [exact Hnone|]. apply report_is_output.
  - eapply Forall_impl; [exact Hnone|]. intros e He d n v ->. discriminate.
Qed.

Lemma within_bind {A B} h l1 l2 (m : M A) (k : A -> M B) :
  publishes_within h l1 m -> (forall a, publishes_within h l2 (k a)) ->
  publishes_within h (l1 ++ l2) (m ≫= k).
Proof.
  intros Hm Hk st. destruct (Hm st) as (tr1 & T1 & S1 & D1).
  unfold mbind, M_bind. destruct (m st) as [[a|e] st1]; cbn [snd] in T1.
  - destruct (Hk a st1) as (tr2 & T2 & S2 & D2). exists (tr1 ++ tr2).
    split; [now rewrite T2, T1, app_assoc|]. split; [|now apply Forall_app].
    rewrite output_names_app. now apply sublist_app.
  - exists tr1. split; [exact T1|]. split; [now apply sublist_inserts_r|exact D1].
Qed.

Lemma within_after {A B} h l (m : M A) (k : A -> M B) :
  emits (fun e => is_report e = false) m -> (forall a, publishes_within h l (k a)) ->
  publishes_within h l (m ≫= k).
Proof. intros Hm Hk. apply (within_bind h [] l); [now apply within_silent|exact Hk]. Qed.

(** [setOutput] never raises: the call of [appendOutputLine] is recorded
    with the value as a text or as JSON, and an append that fails adds one
    warning. *)
Lemma setOutput_spec h name v st :
  exists st' tr,
    setOutput h name v st = (Ok tt, st') /\
    trace st'
    = trace st
        ++ OutputLine (env h "GITHUB_OUTPUT") name
             (match v with VStr s => Text s | _ => Json v end) :: tr /\
    Forall (fun e => is_log e = true) tr.
Proof.
  unfold setOutput.
  destruct (appendOutputLine_spec h name (match v with VStr s => Text s | _ => Json v end) st)
    as (st' & tr & E & T & L & _).
  now exists st', tr.
Qed.

Lemma within_setOutput h (c : bool) name v :
  publishes_within h [name] (if c then setOutput h name v else mret tt).
Proof.
  intros st. destruct c.
  - destruct (setOutput_spec h name v st) as (st' & tr & E & T & L).
    rewrite E. cbn [snd]. eexists. split; [exact T|]. split.
    + change (output_names (?e :: tr)) with (name :: output_names tr).
      rewrite output_names_none; [reflexivity|].
      eapply Forall_impl; [exact L|]. intros [[]| | | | | | | |]; simpl; congruence.
    + constructor; [now intros d n v' [= <- _ _]|].
      eapply Forall_impl; [exact L|]. intros e He d n v' ->. discriminate.
  - exists []. split; [cbn; now rewrite app_nil_r|]. split; [apply sublist_nil_l|constructor].
Qed.

Lemma within_more {A} h l l' (m : M A) :
  sublist l l' -> publishes_within h l m -> publishes_within h l' m.
Proof.
  intros Hl Hm st. destruct (Hm st) as (tr & T & S & D). exists tr.
  split; [exact T|]. split; [now transitivity l|exact D].
Qed.

Lemma within_nothing {A} h l (m : M A) :
  emits (fun e => is_report e = false) m -> publishes_within h l m.
Proof. intros H. apply (within_more h []); [apply sublist_nil_l|now apply within_silent]. Qed.

Lemma within_run_body h :
  publishes_within h ["run-id"; "status"; "pr-number"; "pr-url"] (run_body h).
Proof.
  unfold run_body.
  apply within_after; [unfold getInput; silent|intros payloadFile].
  apply within_after; [unfold getInput; silent|intros tokenInput]. cbv zeta.
  apply within_after; [unfold getInput; silent|intros mergeStrategy].
  apply within_after; [unfold getInput; silent|intros pixelframeBaseUrl].
  apply within_after; [unfold load_payload; silent|intros payload].
  apply within_after; [unfold resolveAgentUrl; silent|intros agentUrl].
  destruct (negb (Js.truthy agentUrl)); [apply within_nothing, emits_throw|].
  apply within_after; [silent; apply silent_logs, logs_only_toWarning|intros _].
  apply within_after; [apply silent_logs, logs_only_logPipelineStart|intros _]. cbv zeta.
  apply within_after; [apply silent_callAgent|intros agentResponse].
  apply (within_bind h ["run-id"; "status"] ["pr-number"; "pr-url"]).
  { destruct (Js.truthy agentResponse && Js.is_object agentResponse)%bool;
      [|apply within_nothing, emits_ret].
    apply (within_bind h ["run-id"] ["status"]); [|intros _]; apply within_setOutput. }
  intros _.
  apply within_after; [apply silent_maybeApplyRepositoryPlan|intros result].
  apply (within_bind h ["pr-number"] ["pr-url"]); [apply within_setOutput|intros _].
  rewrite <- (app_nil_r ["pr-url"]).
  apply within_bind; [apply within_setOutput|intros _].
  apply within_silent, silent_logs, logs_only_logPipelineComplete.
Qed.

(** X28.  In every run appendOutputLine is called only for the outputs run-id,
    status, pr-number and pr-url, in this order and each at most once, and
    always for the destination named by GITHUB_OUTPUT. A call never raises:
    an append that fails is reported by a warning and the output is lost.
    The theorem counts calls, not lines: a value is written unescaped, so one
    that holds a line feed adds lines of its own. *)
Theorem run_publishes_outputs_in_order (h : host) (st : state) :
  sublist (output_names (effects (run h) st)) ["run-id"; "status"; "pr-number"; "pr-url"] /\
  Forall (fun e => forall d n v, e = OutputLine d n v -> d = env h "GITHUB_OUTPUT")
    (effects (run h) st) /\
  (forall name v st0, exists st1 tr,
      setOutput h name v st0 = (Ok tt, st1) /\
      trace st1
      = trace st0
          ++ OutputLine (env h "GITHUB_OUTPUT") name
               (match v with VStr s => Text s | _ => Json v end) :: tr /\
      Forall (fun e => is_log e = true) tr).
Proof.
  split; [|split; [|intros; apply setOutput_spec]];
  destruct (within_run_body h st) as (tr & T & S & D);
  destruct (run_body h st) as [[[]|e] st1] eqn:E; cbn [snd] in T.
  - assert (R : run h st = (Ok tt, st1)) by (unfold run, try_catch; now rewrite E).
    rewrite (effects_of_trace _ st tr) by (now rewrite R). auto.
  - assert (R : run h st
                = (Ok tt, add_event (ExitCode 1)
                            (add_event (Annotation Failure (exn_message e)) st1))).
    { unfold run, try_catch. rewrite E. reflexivity. }
    rewrite (effects_of_trace _ st (tr ++ [Annotation Failure (exn_message e); ExitCode 1])).
    + rewrite output_names_app. cbn. now rewrite app_nil_r.
    + rewrite R. cbn. rewrite T, <- !app_assoc. reflexivity.
  - assert (R : run h st = (Ok tt, st1)) by (unfold run, try_catch; now rewrite E).
    rewrite (effects_of_trace _ st tr) by (now rewrite R). auto.
  - assert (R : run h st
                = (Ok tt, add_event (ExitCode 1)
                            (add_event (Annotation Failure (exn_message e)) st1))).
    { unfold run, try_catch. rewrite E. reflexivity. }
    rewrite (effects_of_trace _ st (tr ++ [Annotation Failure (exn_message e); ExitCode 1])).
    + apply Forall_app. split; [exact D|]. repeat constructor; intros d n v; discriminate.
    + rewrite R. cbn. rewrite T, <- !app_assoc. reflexivity.
Qed.

Lemma no_debug_toDebug h message :
  env h "RUNNER_DEBUG" <> "1" ->
  emits (fun e => is_debug_line e = false) (toDebug h message).
Proof.
  intros H. unfold toDebug. apply String.eqb_neq in H. rewrite H. apply emits_ret.
Qed.

Ltac no_debug h H :=
  unfold toNotice, toWarning, setOutput, appendOutputLine, setFailed;
  repeat first [ apply (no_debug_toDebug h _ H) | emits_step ];
  cbv beta; try reflexivity.

Lemma no_debug_pollLoop h statusUrl apiKey runId :
  env h "RUNNER_DEBUG" <> "1" ->
  forall remaining attempt,
    emits (fun e => is_debug_line e = false)
      (pollLoop h remaining attempt statusUrl apiKey runId).
Proof.
  intros H. induction remaining as [|n IH]; intros attempt; cbn [pollLoop];
    [apply emits_throw|].
  apply emits_bind;
    [unfold pollAttempt, logAgentChange, logAgentStatus; no_debug h H|].
  intros [v|]; [apply emits_ret|apply IH].
Qed.

(** X29.  Unless RUNNER_DEBUG is exactly '1', toDebug prints nothing: no run
    makes its call of console.log, whatever the agent, git and GitHub answer.
    Messages and output values are printed unescaped: provided that no text
    the run prints holds a line feed or carriage return, no line it prints
    begins with ::debug::. *)
Theorem debug_lines_need_runner_debug (h : host) (st : state) :
  env h "RUNNER_DEBUG" <> "1" ->
  Forall (fun e => is_debug_line e = false) (effects (run h) st) /\
  (prints_single_lines h (effects (run h) st) ->
   Forall (fun line => Str.starts_with "::debug::" line = false)
     (console_lines h (effects (run h) st))).
Proof.
  intros H.
  assert (Hcalls : Forall (fun e => is_debug_line e = false) (effects (run h) st)).
  { apply emits_effects.
    unfold run, run_body, getInput, load_payload, resolveAgentUrl, callAgent, pollAgentStatus,
      logPipelineStart, logPipelineComplete, logAgentStatus,
      maybeApplyRepositoryPlan, pushBranch, createOrUpdatePullRequest,
      requestReviewsIfNeeded, maybeMergePullRequest, githubRequest, stageAndCommit,
      applyFileOperations, writeFileChange, removeFile, resolve_in_cwd,
      ensureGitUserConfigured, prepareBranch, parseRepository.
    unfold toNotice, toWarning, setOutput, appendOutputLine, setFailed;
    repeat first [ apply (no_debug_toDebug h _ H) | apply (no_debug_pollLoop h _ _ _ H)
                 | emits_step ];
    cbv beta; try reflexivity. }
  split; [exact Hcalls|].
  intros Hs. apply console_lines_single; [exact Hs|].
  eapply Forall_impl; [exact Hcalls|]. intros e He text. now apply debug_line_text.
Qed.

Lemma debug_lines_need_runner_debug_witness :
  Forall (fun e => is_debug_line e = false) (effects (run Sample.host0) Sample.scenario) /\
  Forall (fun line => Str.starts_with "::debug::" line = false)
    (console_lines Sample.host0 (effects (run Sample.host0) Sample.scenario)).
Proof.
  destruct (debug_lines_need_runner_debug Sample.host0 Sample.scenario) as [Hcalls Hlines];
    [discriminate|].
  split; [exact Hcalls|]. apply Hlines. vm_compute. repeat constructor.
Defined.

(** *** The build script *)









